(** * bring-back-BOLO: the simulation core of [src/bolo_engine.py]

    A shallow embedding of the engine's data model (terrain table, tile
    map, the five entity classes, the game state with its pending-spawn
    buffer) and of the per-frame pipeline, followed by the properties
    established about it.

    Conventions of the embedding.
    - Python [int] is [Z]; Python [float] is IEEE binary64, i.e. Rocq's
      primitive [float] with its primitive operations.  Coordinates that
      the game sometimes holds as [int] (the initial spawn positions) are
      identified with their float value.
    - The functions of the C library reached through [math] ([cos], [sin],
      [atan2], and [pow] behind [** 2]) and the stream of [random.random()]
      are parameters of the development (class [PyRuntime]).  They are
      total, where Python raises at the extremes: [math.cos] and
      [math.sin] on an infinity, [** 2] on a float above about 1.3e154.
      An integer compared with a float is converted first ([float_of_Z]),
      which is exact up to [2^53], where Python compares exactly.  The
      engine builds no such value; the statements about [Shell.update]
      and about mines that guarantee a return state the bound.
    - A Python exception is the result [None].
    - Objects live in a store ([objs]) and are referred to by their index;
      the entity lists hold references, so an in-place mutation is seen
      through every alias. *)

From Stdlib Require Import ZArith Bool List Lia String.
From Stdlib Require Import PrimFloat SpecFloat FloatOps FloatAxioms Uint63.
From stdpp Require Import base option list.

Set Warnings "-inexact-float".
Local Open Scope Z_scope.

(** ** Floats as Python uses them *)

(** [float(n)] for an [int] in the range the game uses. *)
Definition float_of_Z (n : Z) : float :=
  if (0 <=? n)%Z then PrimFloat.of_uint63 (Uint63.of_Z n)
  else PrimFloat.opp (PrimFloat.of_uint63 (Uint63.of_Z (- n))).

(** [int(x // 16)]: the floor of [x / TILE_SIZE].  Floor division by a
    power of two is exact on finite floats; on an infinity or a NaN the
    conversion [int(...)] raises. *)
Definition floor_div_int (x : float) (d : Z) : option Z :=
  match Prim2SF x with
  | S754_zero _ => Some 0
  | S754_finite s m e =>
      let n := if s then Z.neg m else Z.pos m in
      Some (if (0 <=? e)%Z then (n * 2 ^ e) / d else n / (d * 2 ^ (- e)))
  | S754_infinity _ => None
  | S754_nan => None
  end.

(** The builtins [min(a, b)] and [max(a, b)] on floats: the second argument
    replaces the first only when it compares strictly smaller (larger). *)
Definition py_min (a b : float) : float := if PrimFloat.ltb b a then b else a.
Definition py_max (a b : float) : float := if PrimFloat.ltb a b then b else a.

(** [math.pi], and [math.radians] / [math.degrees], which CPython computes
    as one multiplication by a constant quotient. *)
Definition math_pi : float := 0x1.921fb54442d18p+1%float.
Definition radians (x : float) : float := (x * (math_pi / 180))%float.
Definition degrees (x : float) : float := (x * (180 / math_pi))%float.

(** The part of the Python runtime that is not modelled bit by bit. *)
Class PyRuntime := {
  math_cos : float -> float;
  math_sin : float -> float;
  math_atan2 : float -> float -> float;
  (** [x ** 2] *)
  pow2 : float -> float;
  (** the [n]-th value returned by [random.random()] *)
  random_random : nat -> float
}.

(** [x % y] on floats, which CPython computes from the C library's
    [fmod]; a parameter like the functions above. *)
Class PyFloatMod := {
  float_mod : float -> float -> float
}.

(** ** Section 1 of the source: constants and configuration *)

Module Config.
Definition WINDOW_WIDTH : Z := 1024.
Definition WINDOW_HEIGHT : Z := 768.
Definition FPS : Z := 60.
Definition TILE_SIZE : Z := 16.
Definition MAP_WIDTH : Z := 64.
Definition MAP_HEIGHT : Z := 48.
Definition TANK_MAX_ARMOR : Z := 8.
Definition TANK_MAX_SHELLS : Z := 40.
Definition TANK_MAX_MINES : Z := 40.
Definition TANK_MAX_WOOD : Z := 40.
Definition TANK_BASE_SPEED : float := 2.0%float.
Definition TANK_ROTATION_SPEED : float := 4.0%float.
Definition TANK_SIZE : Z := 12.
Definition SHELL_DAMAGE : Z := 1.
Definition SHELL_SPEED : float := 6.0%float.
Definition SHELL_LIFETIME : Z := 90.
Definition MINE_DAMAGE : Z := 4.
Definition PILLBOX_MAX_HEALTH : Z := 16.
Definition PILLBOX_FIRE_RATE : Z := 30.
Definition PILLBOX_RANGE : float := 150.0%float.
Definition BASE_RESUPPLY_RATE : Z := 1200.
End Config.

Inductive TileType :=
  | DEEP_WATER | RIVER | SWAMP | CRATER | ROAD | FOREST
  | RUBBLE | GRASS | WALL | DAMAGED_WALL | BOAT.

#[global] Instance TileType_eq_dec : EqDecision TileType.
Proof. solve_decision. Defined.

Definition Color : Type := Z * Z * Z.

Record TerrainInfo := mkTerrainInfo {
  name : string;
  speed_multiplier : float;
  passable : bool;
  blocks_shots : bool;
  destructible : bool;
  color : Color
}.

(** The terrain lookup table, in the order of the dict literal. *)
Definition TERRAIN_DATA : list (TileType * TerrainInfo) :=
  [ (DEEP_WATER,
      mkTerrainInfo "Deep Water" 0.0 false false false (20, 60, 120));
    (RIVER, mkTerrainInfo "River" 0.3 true false false (40, 100, 160));
    (SWAMP, mkTerrainInfo "Swamp" 0.25 true false true (60, 80, 40));
    (CRATER, mkTerrainInfo "Crater" 0.5 true false false (80, 70, 50));
    (ROAD, mkTerrainInfo "Road" 1.2 true false false (60, 60, 60));
    (FOREST, mkTerrainInfo "Forest" 0.4 true false true (20, 80, 20));
    (RUBBLE, mkTerrainInfo "Rubble" 0.6 true false false (90, 85, 75));
    (GRASS, mkTerrainInfo "Grass" 0.8 true false false (50, 120, 50));
    (WALL, mkTerrainInfo "Wall" 0.0 false true true (100, 100, 100));
    (DAMAGED_WALL,
      mkTerrainInfo "Damaged Wall" 0.0 false true true (120, 110, 100));
    (BOAT, mkTerrainInfo "Boat" 0.8 true false true (120, 80, 40)) ].

(** [TERRAIN_DATA[k]], a [KeyError] being [None]. *)
Fixpoint dict_lookup (k : TileType) (d : list (TileType * TerrainInfo))
  : option TerrainInfo :=
  match d with
  | [] => None
  | (k', v) :: rest => if decide (k' = k) then Some v else dict_lookup k rest
  end.

(** [TERRAIN_DATA.get(tile, TERRAIN_DATA[TileType.GRASS])]: the default is
    evaluated first, as Python evaluates arguments before the call. *)
Definition terrain_get (tile : TileType) : option TerrainInfo :=
  dflt ← dict_lookup GRASS TERRAIN_DATA;
  Some (default dflt (dict_lookup tile TERRAIN_DATA)).

Inductive Team := NEUTRAL | TEAM_1 | TEAM_2 | TEAM_3 | TEAM_4.

#[global] Instance Team_eq_dec : EqDecision Team.
Proof. solve_decision. Defined.

(** ** Section 3 of the source: the tile map *)

Module GameMap.

(** [_terrain_surface] is a render cache and is left out; its [_dirty]
    flag is kept. *)
Record t := mk {
  width : Z;
  height : Z;
  tiles : list (list TileType);
  dirty : bool
}.

Definition init (w h : Z) : t :=
  mk w h (replicate (Z.to_nat h) (replicate (Z.to_nat w) GRASS)) true.

Definition pixel_width (m : t) : Z := width m * Config.TILE_SIZE.
Definition pixel_height (m : t) : Z := height m * Config.TILE_SIZE.

(** [0 <= x < self.width and 0 <= y < self.height] *)
Definition in_bounds (m : t) (x y : Z) : bool :=
  (0 <=? x) && (x <? width m) && (0 <=? y) && (y <? height m).

(** [self.tiles[y][x]] for non-negative indices; [None] is [IndexError]. *)
Definition cell (m : t) (x y : Z) : option TileType :=
  row ← tiles m !! Z.to_nat y; row !! Z.to_nat x.

Definition get_tile (m : t) (x y : Z) : option TileType :=
  if in_bounds m x y then cell m x y else Some WALL.

Definition set_tile (m : t) (x y : Z) (tile_type : TileType) : option t :=
  if in_bounds m x y then
    row ← tiles m !! Z.to_nat y;
    if decide (Z.to_nat x < length row)%nat then
      Some (mk (width m) (height m)
              (<[Z.to_nat y := <[Z.to_nat x := tile_type]> row]> (tiles m))
              true)
    else None
  else Some m.

Definition damage_tile (m : t) (x y : Z) : option t :=
  tile ← get_tile m x y;
  match tile with
  | WALL => set_tile m x y DAMAGED_WALL
  | DAMAGED_WALL => set_tile m x y RUBBLE
  | FOREST => set_tile m x y GRASS
  | SWAMP => set_tile m x y CRATER
  | _ => Some m
  end.

(** The shape the constructor builds: [height] rows of [width] cells. *)
Definition wf (m : t) : Prop :=
  length (tiles m) = Z.to_nat (height m) /\
  Forall (fun row => length row = Z.to_nat (width m)) (tiles m).

(** Resolution of a list index: a negative index counts from the end;
    [None] is [IndexError]. *)
Definition py_index (len : nat) (i : Z) : option nat :=
  if 0 <=? i then
    if i <? Z.of_nat len then Some (Z.to_nat i) else None
  else if 0 <=? i + Z.of_nat len then Some (Z.to_nat (i + Z.of_nat len))
  else None.

(** [tiles[y][x] = tile_type], the direct assignment [generate_random]
    makes. *)
Definition assign (rows : list (list TileType)) (y x : Z)
    (tile_type : TileType) : option (list (list TileType)) :=
  iy ← py_index (length rows) y;
  row ← rows !! iy;
  ix ← py_index (length row) x;
  Some (<[iy := <[ix := tile_type]> row]> rows).

(** [range(a, b)] *)
Definition py_range (a b : Z) : list Z := seqZ a (b - a).

(** [for item in items: body], with the state threaded and an exception
    ending the loop. *)
Fixpoint for_in {A S : Type} (body : S -> A -> option S) (items : list A)
    (s : S) : option S :=
  match items with
  | [] => Some s
  | item :: rest => s1 ← body s item; for_in body rest s1
  end.

(** The kind the thresholds of [generate_random] give the draw [r]. *)
Definition random_kind (r : float) : TileType :=
  if PrimFloat.ltb r 0.05 then FOREST
  else if PrimFloat.ltb r 0.08 then RIVER
  else if PrimFloat.ltb r 0.10 then SWAMP
  else if PrimFloat.ltb r 0.12 then WALL
  else GRASS.

Section Generate.
Context `{PyRuntime}.

(** The body of the inner loop of [generate_random]; the state is the
    rows and the number of draws made. *)
Definition generate_cell (m : t) (y : Z)
    (st : list (list TileType) * nat) (x : Z)
  : option (list (list TileType) * nat) :=
  let '(rows, draws) := st in
  if (x =? 0) || (y =? 0) || (x =? width m - 1) || (y =? height m - 1)
  then rows' ← assign rows y x WALL; Some (rows', draws)
  else
    let r := random_random draws in
    rows' ← assign rows y x (random_kind r); Some (rows', S draws).

Definition generate_row (m : t) (st : list (list TileType) * nat) (y : Z)
  : option (list (list TileType) * nat) :=
  for_in (generate_cell m y) (py_range 0 (width m)) st.

(** [generate_random], given the number of draws made so far; the result
    is the map and the new number of draws. *)
Definition generate_random (m : t) (draws : nat) : option (t * nat) :=
  '(rows, draws') ←
    for_in (generate_row m) (py_range 0 (height m)) (tiles m, draws);
  let mid_y := height m / 2 in
  rows ← for_in (fun rows x => assign rows mid_y x ROAD)
                (py_range 5 (width m - 5)) rows;
  let mid_x := width m / 2 in
  rows ← for_in (fun rows y => assign rows y mid_x ROAD)
                (py_range 5 (height m - 5)) rows;
  Some (mk (width m) (height m) rows true, draws').

End Generate.

End GameMap.

(** ** Section 2 of the source: the entity classes *)

(** [Entity.tile_position]:
    [(int(self.x // TILE_SIZE), int(self.y // TILE_SIZE))]. *)
Definition tile_position (x y : float) : option (Z * Z) :=
  tx ← floor_div_int x Config.TILE_SIZE;
  ty ← floor_div_int y Config.TILE_SIZE;
  Some (tx, ty).

(** [math.sqrt((ax - bx)**2 + (ay - by)**2)], the distance every collision
    test and the pillbox targeting compute. *)
Definition distance `{PyRuntime} (ax ay bx by_ : float) : float :=
  PrimFloat.sqrt (pow2 (ax - bx) + pow2 (ay - by_))%float.

Module Shell.

Record t := mk {
  id : Z;
  x : float;
  y : float;
  alive : bool;
  angle : float;
  team : Team;
  owner_id : Z;
  speed : float;
  damage : Z;
  lifetime : Z;
  radius : Z
}.

(** [Shell(x, y, angle, team, owner_id)]; [new_id] is the value of
    [Entity._next_id] the constructor reads. *)
Definition init (x0 y0 angle0 : float) (team0 : Team) (owner : Z)
    (new_id : Z) : t :=
  mk new_id x0 y0 true angle0 team0 owner
     Config.SHELL_SPEED Config.SHELL_DAMAGE Config.SHELL_LIFETIME 3.

Definition destroy (self : t) : t :=
  mk (id self) (x self) (y self) false (angle self) (team self)
     (owner_id self) (speed self) (damage self) (lifetime self)
     (radius self).

Definition moved (self : t) (x' y' : float) (lifetime' : Z) : t :=
  mk (id self) x' y' (alive self) (angle self) (team self)
     (owner_id self) (speed self) (damage self) lifetime' (radius self).

Section Methods.
Context `{PyRuntime}.

Definition update (self : t) (m : GameMap.t) : option (t * GameMap.t) :=
  let x' := (x self + math_cos (radians (angle self)) * speed self)%float in
  let y' := (y self + math_sin (radians (angle self)) * speed self)%float in
  let self := moved self x' y' (lifetime self - 1) in
  if lifetime self <=? 0 then Some (destroy self, m)
  else
    '(tx, ty) ← tile_position (x self) (y self);
    tile ← GameMap.get_tile m tx ty;
    terrain ← terrain_get tile;
    if blocks_shots terrain then
      m' ← (if destructible terrain
             then GameMap.damage_tile m tx ty else Some m);
      Some (destroy self, m')
    else if PrimFloat.ltb (x self) 0
         || PrimFloat.ltb (float_of_Z (GameMap.pixel_width m)) (x self)
         || PrimFloat.ltb (y self) 0
         || PrimFloat.ltb (float_of_Z (GameMap.pixel_height m)) (y self)
    then Some (destroy self, m)
    else Some (self, m).
End Methods.

End Shell.

Module Mine.

Record t := mk {
  id : Z;
  x : float;
  y : float;
  alive : bool;
  team : Team;
  hidden : bool;
  damage : Z;
  radius : Z;
  detection_radius : Z
}.

(** [Mine(x, y, team)], with [hidden] at its default. *)
Definition init (x0 y0 : float) (team0 : Team) (new_id : Z) : t :=
  mk new_id x0 y0 true team0 false Config.MINE_DAMAGE 6 4.

Definition destroy (self : t) : t :=
  mk (id self) (x self) (y self) false (team self) (hidden self)
     (damage self) (radius self) (detection_radius self).

Definition detonate (self : t) (m : GameMap.t) : option (t * GameMap.t) :=
  '(tx, ty) ← tile_position (x self) (y self);
  m' ← GameMap.set_tile m tx ty CRATER;
  Some (destroy self, m').

End Mine.

Module Resources.

Record t := mk {
  armor : Z;
  shells : Z;
  mines : Z;
  wood : Z
}.

(** [Resources()] with the dataclass defaults. *)
Definition init : t :=
  mk Config.TANK_MAX_ARMOR Config.TANK_MAX_SHELLS Config.TANK_MAX_MINES 0.

End Resources.

Module Tank.

(** [carried_pillboxes] holds references into the object store. *)
Record t := mk {
  id : Z;
  x : float;
  y : float;
  alive : bool;
  team : Team;
  angle : float;
  resources : Resources.t;
  speed : float;
  size : Z;
  is_moving : bool;
  has_boat : bool;
  lgm_deployed : bool;
  lgm_position : option (float * float);
  lgm_respawn_timer : Z;
  carried_pillboxes : list nat;
  fire_cooldown : Z;
  fire_rate : Z
}.

Definition init (x0 y0 : float) (team0 : Team) (new_id : Z) : t :=
  mk new_id x0 y0 true team0 0.0 Resources.init
     Config.TANK_BASE_SPEED Config.TANK_SIZE false false
     false None 0 [] 0 10.

Definition set_alive (self : t) (b : bool) : t :=
  mk (id self) (x self) (y self) b (team self) (angle self)
     (resources self) (speed self) (size self) (is_moving self)
     (has_boat self) (lgm_deployed self) (lgm_position self)
     (lgm_respawn_timer self) (carried_pillboxes self)
     (fire_cooldown self) (fire_rate self).

Definition destroy (self : t) : t := set_alive self false.

Definition set_resources (self : t) (r : Resources.t) : t :=
  mk (id self) (x self) (y self) (alive self) (team self) (angle self)
     r (speed self) (size self) (is_moving self)
     (has_boat self) (lgm_deployed self) (lgm_position self)
     (lgm_respawn_timer self) (carried_pillboxes self)
     (fire_cooldown self) (fire_rate self).

Definition set_fire_cooldown (self : t) (c : Z) : t :=
  mk (id self) (x self) (y self) (alive self) (team self) (angle self)
     (resources self) (speed self) (size self) (is_moving self)
     (has_boat self) (lgm_deployed self) (lgm_position self)
     (lgm_respawn_timer self) (carried_pillboxes self)
     c (fire_rate self).

Definition set_lgm (self : t) (deployed : bool) (timer : Z) : t :=
  mk (id self) (x self) (y self) (alive self) (team self) (angle self)
     (resources self) (speed self) (size self) (is_moving self)
     (has_boat self) deployed (lgm_position self)
     timer (carried_pillboxes self)
     (fire_cooldown self) (fire_rate self).

(** The three assignments that end a successful move. *)
Definition move_to (self : t) (x' y' : float) : t :=
  mk (id self) x' y' (alive self) (team self) (angle self)
     (resources self) (speed self) (size self) true
     (has_boat self) (lgm_deployed self) (lgm_position self)
     (lgm_respawn_timer self) (carried_pillboxes self)
     (fire_cooldown self) (fire_rate self).

Definition update (self : t) : t :=
  let self :=
    if 0 <? fire_cooldown self
    then set_fire_cooldown self (fire_cooldown self - 1) else self in
  if 0 <? lgm_respawn_timer self then
    let timer := lgm_respawn_timer self - 1 in
    set_lgm self (if timer =? 0 then false else lgm_deployed self) timer
  else self.

Definition take_damage (self : t) (amount : Z) : t :=
  let r := resources self in
  let self :=
    set_resources self
      (Resources.mk (Resources.armor r - amount) (Resources.shells r)
                    (Resources.mines r) (Resources.wood r)) in
  if Resources.armor (resources self) <=? 0 then destroy self else self.

(** [resupply(base)]; the argument is not used by the body. *)
Definition resupply (self : t) : t :=
  let r := resources self in
  set_resources self
    (Resources.mk (Z.min Config.TANK_MAX_ARMOR (Resources.armor r + 1))
                 (Z.min Config.TANK_MAX_SHELLS (Resources.shells r + 5))
                 (Z.min Config.TANK_MAX_MINES (Resources.mines r + 2))
                 (Resources.wood r)).

(** [place_mine]: the mine, if any, and the successor of [Entity._next_id]. *)
Definition place_mine (self : t) (next_id : Z) : t * Z * option Mine.t :=
  let r := resources self in
  if Resources.mines r <=? 0 then (self, next_id, None)
  else
    (set_resources self
       (Resources.mk (Resources.armor r) (Resources.shells r)
                     (Resources.mines r - 1) (Resources.wood r)),
     next_id + 1,
     Some (Mine.init (x self) (y self) (team self) next_id)).

Section Methods.
Context `{PyRuntime}.

(** [fire]: the updated tank, the successor of [Entity._next_id] and
    the returned shell or [None]. *)
Definition fire (self : t) (next_id : Z) : t * Z * option Shell.t :=
  if (0 <? fire_cooldown self) || (Resources.shells (resources self) <=? 0)
  then (self, next_id, None)
  else
    let r := resources self in
    let self1 :=
      set_fire_cooldown
        (set_resources self
           (Resources.mk (Resources.armor r) (Resources.shells r - 1)
                         (Resources.mines r) (Resources.wood r)))
        (fire_rate self) in
    let cannon_length := float_of_Z (size self1 + 8) in
    let shell_x :=
      (x self1 + math_cos (radians (angle self1)) * cannon_length)%float in
    let shell_y :=
      (y self1 + math_sin (radians (angle self1)) * cannon_length)%float in
    (self1, next_id + 1,
     Some (Shell.init shell_x shell_y (angle self1) (team self1)
                      (id self1) next_id)).

Definition _get_terrain_speed (self : t) (m : GameMap.t) : option float :=
  '(tx, ty) ← tile_position (x self) (y self);
  tile ← GameMap.get_tile m tx ty;
  terrain ← terrain_get tile;
  if (bool_decide (tile = DEEP_WATER) || bool_decide (tile = RIVER))
     && negb (has_boat self)
  then
    if bool_decide (tile = DEEP_WATER) then Some 0.0%float
    else Some (speed_multiplier terrain)
  else Some (speed_multiplier terrain).

Definition _can_move_to (self : t) (x' y' : float) (m : GameMap.t)
  : option bool :=
  if PrimFloat.ltb x' (float_of_Z (size self))
     || PrimFloat.ltb (float_of_Z (GameMap.pixel_width m - size self)) x'
  then Some false
  else if PrimFloat.ltb y' (float_of_Z (size self))
     || PrimFloat.ltb (float_of_Z (GameMap.pixel_height m - size self)) y'
  then Some false
  else
    '(tile_x, tile_y) ← tile_position x' y';
    tile ← GameMap.get_tile m tile_x tile_y;
    terrain ← terrain_get tile;
    if negb (passable terrain) then
      if bool_decide (tile = DEEP_WATER) && has_boat self
      then Some true else Some false
    else Some true.

Definition move_forward (self : t) (m : GameMap.t) : option t :=
  terrain_speed ← _get_terrain_speed self m;
  if PrimFloat.leb terrain_speed 0 then Some self
  else
    let dx := (math_cos (radians (angle self)) * speed self
               * terrain_speed)%float in
    let dy := (math_sin (radians (angle self)) * speed self
               * terrain_speed)%float in
    let new_x := (x self + dx)%float in
    let new_y := (y self + dy)%float in
    ok ← _can_move_to self new_x new_y m;
    if ok : bool then Some (move_to self new_x new_y) else Some self.

Definition move_backward (self : t) (m : GameMap.t) : option t :=
  terrain_speed ← _get_terrain_speed self m;
  if PrimFloat.leb terrain_speed 0 then Some self
  else
    let dx := (math_cos (radians (angle self)) * speed self
               * terrain_speed * 0.6)%float in
    let dy := (math_sin (radians (angle self)) * speed self
               * terrain_speed * 0.6)%float in
    let new_x := (x self - dx)%float in
    let new_y := (y self - dy)%float in
    ok ← _can_move_to self new_x new_y m;
    if ok : bool then Some (move_to self new_x new_y) else Some self.
End Methods.

(** The assignment [enemy.angle = 180] of the set-up. *)
Definition set_angle (self : t) (a : float) : t :=
  mk (id self) (x self) (y self) (alive self) (team self) a
     (resources self) (speed self) (size self) (is_moving self)
     (has_boat self) (lgm_deployed self) (lgm_position self)
     (lgm_respawn_timer self) (carried_pillboxes self)
     (fire_cooldown self) (fire_rate self).

Definition rotate_left `{PyFloatMod} (self : t) : t :=
  set_angle self (float_mod (angle self - Config.TANK_ROTATION_SPEED) 360).

Definition rotate_right `{PyFloatMod} (self : t) : t :=
  set_angle self (float_mod (angle self + Config.TANK_ROTATION_SPEED) 360).

End Tank.

Module Pillbox.

Record t := mk {
  id : Z;
  x : float;
  y : float;
  alive : bool;
  team : Team;
  health : Z;
  fire_rate : Z;
  fire_cooldown : Z;
  range : float;
  size : Z;
  active : bool;
  aggression : Z
}.

(** [Pillbox(x, y, team)] *)
Definition init (x0 y0 : float) (team0 : Team) (new_id : Z) : t :=
  mk new_id x0 y0 true team0 Config.PILLBOX_MAX_HEALTH
     Config.PILLBOX_FIRE_RATE 0 Config.PILLBOX_RANGE 8 true 0.

Definition set_fire_cooldown (self : t) (c : Z) : t :=
  mk (id self) (x self) (y self) (alive self) (team self) (health self)
     (fire_rate self) c (range self) (size self) (active self)
     (aggression self).

Definition set_aggression (self : t) (a : Z) : t :=
  mk (id self) (x self) (y self) (alive self) (team self) (health self)
     (fire_rate self) (fire_cooldown self) (range self) (size self)
     (active self) a.

Definition take_damage (self : t) (amount : Z) : t :=
  let health' := health self - amount in
  let aggression' := Z.min 8 (aggression self + 1) in
  if health' <=? 0 then
    mk (id self) (x self) (y self) (alive self) NEUTRAL 0
       (fire_rate self) (fire_cooldown self) (range self) (size self)
       false aggression'
  else
    mk (id self) (x self) (y self) (alive self) (team self) health'
       (fire_rate self) (fire_cooldown self) (range self) (size self)
       (active self) aggression'.

Definition capture (self : t) (new_team : Team) : t :=
  mk (id self) (x self) (y self) (alive self) new_team
     (Config.PILLBOX_MAX_HEALTH / 2)
     (fire_rate self) (fire_cooldown self) (range self) (size self)
     true 0.

Section Methods.
Context `{PyRuntime}.

(** [_fire_at(target)], given the target's position: the pillbox with
    its cooldown reset and the shell it returns. *)
Definition _fire_at (self : t) (target_x target_y : float) (new_id : Z)
  : t * Shell.t :=
  let angle :=
    degrees (math_atan2 (target_y - y self) (target_x - x self))%float in
  let adjusted_rate := Z.max 5 (fire_rate self - aggression self * 3) in
  let self := set_fire_cooldown self adjusted_rate in
  (self, Shell.init (x self) (y self) angle (team self) (id self) new_id).
End Methods.

End Pillbox.

Module Base.

Record t := mk {
  id : Z;
  x : float;
  y : float;
  alive : bool;
  team : Team;
  health : Z;
  size : Z;
  shells : Z;
  mines : Z;
  armor : Z;
  regen_timer : Z
}.

(** [Base(x, y, team)] *)
Definition init (x0 y0 : float) (team0 : Team) (new_id : Z) : t :=
  mk new_id x0 y0 true team0 16 16 20 10 8 Config.BASE_RESUPPLY_RATE.

Definition set_stock (self : t) (shells' mines' armor' : Z) : t :=
  mk (id self) (x self) (y self) (alive self) (team self) (health self)
     (size self) shells' mines' armor' (regen_timer self).

Definition update (self : t) : t :=
  let timer := regen_timer self - 1 in
  if timer <=? 0 then
    mk (id self) (x self) (y self) (alive self) (team self) (health self)
       (size self)
       (Z.min 40 (shells self + 1)) (Z.min 20 (mines self + 1))
       (Z.min 16 (armor self + 1)) Config.BASE_RESUPPLY_RATE
  else
    mk (id self) (x self) (y self) (alive self) (team self) (health self)
       (size self) (shells self) (mines self) (armor self) timer.

(** [resupply_tank(tank)]: the base, the tank (mutated through the
    reference the caller passed) and the returned flag.  [min] of three
    integers is [Z.min] nested. *)
Definition resupply_tank (self : t) (tank : Tank.t) : t * Tank.t * bool :=
  if negb (bool_decide (Tank.team tank = team self))
  then (self, tank, false)
  else
    let resupplied := false in
    (* armor first *)
    let '(self, tank, resupplied) :=
      let r := Tank.resources tank in
      if (Resources.armor r <? Config.TANK_MAX_ARMOR) && (0 <? armor self)
      then
        let transfer :=
          Z.min (Z.min 1 (armor self))
                (Config.TANK_MAX_ARMOR - Resources.armor r) in
        (set_stock self (shells self) (mines self) (armor self - transfer),
         Tank.set_resources tank
           (Resources.mk (Resources.armor r + transfer) (Resources.shells r)
                        (Resources.mines r) (Resources.wood r)),
         true)
      else (self, tank, resupplied) in
    (* then shells *)
    let '(self, tank, resupplied) :=
      let r := Tank.resources tank in
      if (Resources.shells r <? Config.TANK_MAX_SHELLS) && (0 <? shells self)
      then
        let transfer :=
          Z.min (Z.min 5 (shells self))
                (Config.TANK_MAX_SHELLS - Resources.shells r) in
        (set_stock self (shells self - transfer) (mines self) (armor self),
         Tank.set_resources tank
           (Resources.mk (Resources.armor r) (Resources.shells r + transfer)
                        (Resources.mines r) (Resources.wood r)),
         true)
      else (self, tank, resupplied) in
    (* then mines *)
    let '(self, tank, resupplied) :=
      let r := Tank.resources tank in
      if (Resources.mines r <? Config.TANK_MAX_MINES) && (0 <? mines self)
      then
        let transfer :=
          Z.min (Z.min 2 (mines self))
                (Config.TANK_MAX_MINES - Resources.mines r) in
        (set_stock self (shells self) (mines self - transfer) (armor self),
         Tank.set_resources tank
           (Resources.mk (Resources.armor r) (Resources.shells r)
                        (Resources.mines r + transfer) (Resources.wood r)),
         true)
      else (self, tank, resupplied) in
    (self, tank, resupplied).

Definition take_damage (self : t) (amount : Z) : t :=
  let health' := health self - amount in
  if health' <=? 0 then
    mk (id self) (x self) (y self) (alive self) NEUTRAL 1
       (size self) (shells self) (mines self) (armor self)
       (regen_timer self)
  else
    mk (id self) (x self) (y self) (alive self) (team self) health'
       (size self) (shells self) (mines self) (armor self)
       (regen_timer self).

Definition capture (self : t) (new_team : Team) : t :=
  mk (id self) (x self) (y self) (alive self) new_team 8
     (size self) (shells self) (mines self) (armor self)
     (regen_timer self).

End Base.

(** ** Section 4 of the source: the game state *)

(** An object of one of the five concrete [Entity] classes. *)
Inductive Entity :=
  | ETank (tank : Tank.t)
  | EShell (shell : Shell.t)
  | EMine (mine : Mine.t)
  | EPillbox (pillbox : Pillbox.t)
  | EBase (base : Base.t).

Definition entity_alive (e : Entity) : bool :=
  match e with
  | ETank o => Tank.alive o
  | EShell o => Shell.alive o
  | EMine o => Mine.alive o
  | EPillbox o => Pillbox.alive o
  | EBase o => Base.alive o
  end.

Definition entity_id (e : Entity) : Z :=
  match e with
  | ETank o => Tank.id o
  | EShell o => Shell.id o
  | EMine o => Mine.id o
  | EPillbox o => Pillbox.id o
  | EBase o => Base.id o
  end.

(** The four collision categories of [_process_collisions]. *)
Inductive Category := ShellTank | ShellPillbox | TankMine | TankBase.

#[global] Instance Category_eq_dec : EqDecision Category.
Proof. solve_decision. Defined.

(** What a collision pass did, in the order it did it.  For the first
    three categories [Contact c entity other] records the call
    [other.take_damage(entity.damage)] made for the outer-loop object
    [entity]; for [TankBase] it records that the overlap test of tank
    [entity] and base [other] succeeded. *)
Inductive Event := Contact (c : Category) (entity other : nat).

Definition ev_category (ev : Event) : Category :=
  match ev with Contact c _ _ => c end.
Definition ev_entity (ev : Event) : nat :=
  match ev with Contact _ e _ => e end.
Definition ev_other (ev : Event) : nat :=
  match ev with Contact _ _ o => o end.

Module GameState.

(** The fields of [GameState], followed by the process-wide state its
    methods reach: the object store, the class attribute
    [Entity._next_id] and the number of [random.random()] calls made. *)
Record t := mk {
  game_map : GameMap.t;
  entities : list nat;
  pending_entities : list nat;
  player : option nat;
  camera_x : float;
  camera_y : float;
  paused : bool;
  game_over : bool;
  score : Z;
  objs : list Entity;
  next_id : Z;
  draws : nat
}.

(** [GameState()] in a process with the given store and id counter. *)
Definition init (store : list Entity) (next : Z) (n : nat) : t :=
  mk (GameMap.init Config.MAP_WIDTH Config.MAP_HEIGHT) [] [] None
     0.0 0.0 false false 0 store next n.

Definition set_game_map (gs : t) (m : GameMap.t) : t :=
  mk m (entities gs) (pending_entities gs) (player gs) (camera_x gs)
     (camera_y gs) (paused gs) (game_over gs) (score gs) (objs gs)
     (next_id gs) (draws gs).

Definition set_lists (gs : t) (live pending : list nat) : t :=
  mk (game_map gs) live pending (player gs) (camera_x gs)
     (camera_y gs) (paused gs) (game_over gs) (score gs) (objs gs)
     (next_id gs) (draws gs).

Definition set_camera (gs : t) (cx cy : float) : t :=
  mk (game_map gs) (entities gs) (pending_entities gs) (player gs) cx
     cy (paused gs) (game_over gs) (score gs) (objs gs)
     (next_id gs) (draws gs).

Definition set_objs (gs : t) (store : list Entity) : t :=
  mk (game_map gs) (entities gs) (pending_entities gs) (player gs)
     (camera_x gs) (camera_y gs) (paused gs) (game_over gs) (score gs)
     store (next_id gs) (draws gs).

Definition set_draws (gs : t) (n : nat) : t :=
  mk (game_map gs) (entities gs) (pending_entities gs) (player gs)
     (camera_x gs) (camera_y gs) (paused gs) (game_over gs) (score gs)
     (objs gs) (next_id gs) n.

(** Mutation of the object behind reference [r]. *)
Definition store (r : nat) (e : Entity) (gs : t) : t :=
  set_objs gs (<[r := e]> (objs gs)).

(** The store side of a constructor call: the object [e], built with
    the id [next_id gs], gets a fresh reference and [Entity._next_id] is
    incremented. *)
Definition new_entity (e : Entity) (gs : t) : nat * t :=
  (length (objs gs),
   mk (game_map gs) (entities gs) (pending_entities gs) (player gs)
      (camera_x gs) (camera_y gs) (paused gs) (game_over gs) (score gs)
      (objs gs ++ [e]) (next_id gs + 1) (draws gs)).

Definition add_entity (gs : t) (entity : nat) : t :=
  set_lists gs (entities gs) (pending_entities gs ++ [entity]).

(** [e.alive] through a reference. *)
Definition ref_alive (gs : t) (r : nat) : bool :=
  match objs gs !! r with
  | Some e => entity_alive e
  | None => false
  end.

Definition remove_dead_entities (gs : t) : t :=
  set_lists gs (filter (fun r => ref_alive gs r = true) (entities gs))
            (pending_entities gs).

(** [for entity in refs: body(entity)], threading the state and
    collecting the events; an exception in the body ends the loop. *)
Fixpoint for_each (body : t -> nat -> option (t * list Event))
    (refs : list nat) (gs : t) : option (t * list Event) :=
  match refs with
  | [] => Some (gs, [])
  | r :: rest =>
      '(gs1, evs1) ← body gs r;
      '(gs2, evs2) ← for_each body rest gs1;
      Some (gs2, evs1 ++ evs2)
  end.

Section Methods.
Context `{PyRuntime}.

(** *** [Pillbox._find_target] and [Pillbox.update] *)

Fixpoint find_target_loop (gs : t) (self : Pillbox.t) (refs : list nat)
    (best_target : option nat) (best_distance : float) : option nat :=
  match refs with
  | [] => best_target
  | r :: rest =>
      match objs gs !! r with
      | Some (ETank entity) =>
          if negb (bool_decide (Tank.team entity = Pillbox.team self))
          then
            let dist :=
              distance (Tank.x entity) (Tank.y entity)
                       (Pillbox.x self) (Pillbox.y self) in
            if PrimFloat.ltb dist (Pillbox.range self)
               && PrimFloat.ltb dist best_distance
            then find_target_loop gs self rest (Some r) dist
            else find_target_loop gs self rest best_target best_distance
          else find_target_loop gs self rest best_target best_distance
      | _ => find_target_loop gs self rest best_target best_distance
      end
  end.

Definition _find_target (gs : t) (self : Pillbox.t) : option nat :=
  find_target_loop gs self (entities gs) None PrimFloat.infinity.

(** [Pillbox.update] for the pillbox behind reference [r]. *)
Definition Pillbox_update (gs : t) (r : nat) (self : Pillbox.t) : t :=
  if negb (Pillbox.active self) then gs
  else
    let self :=
      if 0 <? Pillbox.fire_cooldown self
      then Pillbox.set_fire_cooldown self (Pillbox.fire_cooldown self - 1)
      else self in
    (* [and] short-circuits: a number is drawn only when angry *)
    let '(self, gs) :=
      if 0 <? Pillbox.aggression self then
        let u := random_random (draws gs) in
        (if PrimFloat.ltb u 0.01
         then Pillbox.set_aggression self
                (Z.max 0 (Pillbox.aggression self - 1))
         else self,
         set_draws gs (S (draws gs)))
      else (self, gs) in
    if Pillbox.fire_cooldown self <=? 0 then
      match _find_target gs self with
      | Some target =>
          match objs gs !! target with
          | Some (ETank tk) =>
              let '(self, shell_obj) :=
                Pillbox._fire_at self (Tank.x tk) (Tank.y tk)
                                 (next_id gs) in
              let '(shell, gs) := new_entity (EShell shell_obj) gs in
              add_entity (store r (EPillbox self) gs) shell
          | _ => store r (EPillbox self) gs
          end
      | None => store r (EPillbox self) gs
      end
    else store r (EPillbox self) gs.

(** [entity.update(self)], dispatched on the class of the object. *)
Definition update_entity (gs : t) (r : nat) : option (t * list Event) :=
  match objs gs !! r with
  | Some (ETank o) => Some (store r (ETank (Tank.update o)) gs, [])
  | Some (EShell o) =>
      '(o', m') ← Shell.update o (game_map gs);
      Some (store r (EShell o') (set_game_map gs m'), [])
  | Some (EMine o) => Some (gs, [])  (* [Mine.update] is [pass] *)
  | Some (EPillbox o) => Some (Pillbox_update gs r o, [])
  | Some (EBase o) => Some (store r (EBase (Base.update o)) gs, [])
  | None => Some (gs, [])
  end.

Definition update_entities (gs : t) : option (t * list Event) :=
  for_each update_entity (entities gs) gs.

(** *** [_process_collisions], one definition per category *)

(** Shell vs Tank: the inner loop for the live shell [entity] behind
    reference [r].  Nothing is mutated before the first hit, and the
    hit ends the loop. *)
Fixpoint shell_tank_inner (gs : t) (r : nat) (entity : Shell.t)
    (others : list nat) : t * list Event :=
  match others with
  | [] => (gs, [])
  | o :: rest =>
      match objs gs !! o with
      | Some (ETank other) =>
          if Tank.alive other then
            if Tank.id other =? Shell.owner_id entity
            then shell_tank_inner gs r entity rest
            else if bool_decide (Tank.team other = Shell.team entity)
            then shell_tank_inner gs r entity rest
            else
              let dist :=
                distance (Shell.x entity) (Shell.y entity)
                         (Tank.x other) (Tank.y other) in
              if PrimFloat.ltb dist
                   (float_of_Z (Tank.size other + Shell.radius entity))
              then
                (store r (EShell (Shell.destroy entity))
                   (store o
                      (ETank (Tank.take_damage other
                                (Shell.damage entity))) gs),
                 [Contact ShellTank r o])
              else shell_tank_inner gs r entity rest
          else shell_tank_inner gs r entity rest
      | _ => shell_tank_inner gs r entity rest
      end
  end.

Definition shell_tank_body (gs : t) (r : nat) : option (t * list Event) :=
  match objs gs !! r with
  | Some (EShell entity) =>
      if Shell.alive entity
      then Some (shell_tank_inner gs r entity (entities gs))
      else Some (gs, [])
  | _ => Some (gs, [])
  end.

(** Shell vs Pillbox. *)
Fixpoint shell_pillbox_inner (gs : t) (r : nat) (entity : Shell.t)
    (others : list nat) : t * list Event :=
  match others with
  | [] => (gs, [])
  | o :: rest =>
      match objs gs !! o with
      | Some (EPillbox other) =>
          if Pillbox.alive other && Pillbox.active other then
            if bool_decide (Pillbox.team other = Shell.team entity)
            then shell_pillbox_inner gs r entity rest
            else
              let dist :=
                distance (Shell.x entity) (Shell.y entity)
                         (Pillbox.x other) (Pillbox.y other) in
              if PrimFloat.ltb dist
                   (float_of_Z (Pillbox.size other + Shell.radius entity))
              then
                (store r (EShell (Shell.destroy entity))
                   (store o
                      (EPillbox (Pillbox.take_damage other
                                   (Shell.damage entity))) gs),
                 [Contact ShellPillbox r o])
              else shell_pillbox_inner gs r entity rest
          else shell_pillbox_inner gs r entity rest
      | _ => shell_pillbox_inner gs r entity rest
      end
  end.

Definition shell_pillbox_body (gs : t) (r : nat)
  : option (t * list Event) :=
  match objs gs !! r with
  | Some (EShell entity) =>
      if Shell.alive entity
      then Some (shell_pillbox_inner gs r entity (entities gs))
      else Some (gs, [])
  | _ => Some (gs, [])
  end.

(** Tank vs Mine: the hit also detonates the mine, which writes the
    map and may raise. *)
Fixpoint tank_mine_inner (gs : t) (r : nat) (entity : Mine.t)
    (others : list nat) : option (t * list Event) :=
  match others with
  | [] => Some (gs, [])
  | o :: rest =>
      match objs gs !! o with
      | Some (ETank other) =>
          if Tank.alive other then
            if bool_decide (Tank.team other = Mine.team entity)
            then tank_mine_inner gs r entity rest
            else
              let dist :=
                distance (Mine.x entity) (Mine.y entity)
                         (Tank.x other) (Tank.y other) in
              if PrimFloat.ltb dist
                   (float_of_Z (Tank.size other + Mine.radius entity))
              then
                let gs :=
                  store o
                    (ETank (Tank.take_damage other (Mine.damage entity)))
                    gs in
                '(entity', m') ← Mine.detonate entity (game_map gs);
                Some (store r (EMine entity') (set_game_map gs m'),
                      [Contact TankMine r o])
              else tank_mine_inner gs r entity rest
          else tank_mine_inner gs r entity rest
      | _ => tank_mine_inner gs r entity rest
      end
  end.

Definition tank_mine_body (gs : t) (r : nat) : option (t * list Event) :=
  match objs gs !! r with
  | Some (EMine entity) =>
      if Mine.alive entity
      then tank_mine_inner gs r entity (entities gs)
      else Some (gs, [])
  | _ => Some (gs, [])
  end.

(** Tank vs Base: what an overlapping pair does (the [if] / [elif]
    under the distance test). *)
Definition tank_base_contact (entity : Tank.t) (other : Base.t)
  : Tank.t * Base.t :=
  if bool_decide (Base.team other = Tank.team entity) then
    let '(other', entity', _) := Base.resupply_tank other entity in
    (entity', other')
  else if bool_decide (Base.team other = NEUTRAL) then
    (entity, Base.capture other (Tank.team entity))
  else (entity, other).

(** One iteration of the inner loop; the tank is read through its
    reference each time, since earlier iterations mutate it. *)
Definition tank_base_pair (r : nat) (gs : t) (o : nat)
  : option (t * list Event) :=
  match objs gs !! r, objs gs !! o with
  | Some (ETank entity), Some (EBase other) =>
      let dist :=
        distance (Tank.x entity) (Tank.y entity)
                 (Base.x other) (Base.y other) in
      if PrimFloat.ltb dist
           (float_of_Z (Tank.size entity + Base.size other))
      then
        let '(entity', other') := tank_base_contact entity other in
        Some (store o (EBase other') (store r (ETank entity') gs),
              [Contact TankBase r o])
      else Some (gs, [])
  | _, _ => Some (gs, [])
  end.

Definition tank_base_body (gs : t) (r : nat) : option (t * list Event) :=
  match objs gs !! r with
  | Some (ETank entity) =>
      if Tank.alive entity
      then for_each (tank_base_pair r) (entities gs) gs
      else Some (gs, [])
  | _ => Some (gs, [])
  end.

Definition _process_collisions (gs : t) : option (t * list Event) :=
  '(gs, evs1) ← for_each shell_tank_body (entities gs) gs;
  '(gs, evs2) ← for_each shell_pillbox_body (entities gs) gs;
  '(gs, evs3) ← for_each tank_mine_body (entities gs) gs;
  '(gs, evs4) ← for_each tank_base_body (entities gs) gs;
  Some (gs, evs1 ++ evs2 ++ evs3 ++ evs4).

(** *** [_update_camera] and [update] *)

Definition _update_camera (gs : t) : t :=
  match player gs with
  | Some p =>
      match objs gs !! p with
      | Some (ETank pl) =>
          let target_x :=
            (Tank.x pl - float_of_Z (Config.WINDOW_WIDTH / 2))%float in
          let target_y :=
            (Tank.y pl - float_of_Z (Config.WINDOW_HEIGHT / 2))%float in
          let cx := (camera_x gs + (target_x - camera_x gs) * 0.1)%float in
          let cy := (camera_y gs + (target_y - camera_y gs) * 0.1)%float in
          let m := game_map gs in
          set_camera gs
            (py_max 0
               (py_min (float_of_Z (GameMap.pixel_width m
                                    - Config.WINDOW_WIDTH)) cx))
            (py_max 0
               (py_min (float_of_Z (GameMap.pixel_height m
                                    - Config.WINDOW_HEIGHT)) cy))
      | _ => gs
      end
  | None => gs
  end.

(** The first two statements of an active frame:
    [self.entities.extend(self.pending_entities)] and
    [self.pending_entities.clear()]. *)
Definition merge_pending (gs : t) : t :=
  set_lists gs (entities gs ++ pending_entities gs) [].

Definition player_alive (gs : t) : bool :=
  match player gs with
  | Some p => ref_alive gs p
  | None => false
  end.

Definition update (gs : t) : option (t * list Event) :=
  if paused gs || game_over gs then Some (gs, [])
  else
    let gs := merge_pending gs in
    '(gs, _) ← update_entities gs;
    '(gs, evs) ← _process_collisions gs;
    let gs := remove_dead_entities gs in
    if player_alive gs then Some (_update_camera gs, evs)
    else Some (gs, evs).
End Methods.

(** [self.player = ...] and [self.entities.append(...)], as the game
    controller does them. *)
Definition set_player (gs : t) (p : option nat) : t :=
  mk (game_map gs) (entities gs) (pending_entities gs) p (camera_x gs)
     (camera_y gs) (paused gs) (game_over gs) (score gs) (objs gs)
     (next_id gs) (draws gs).

Definition set_paused (gs : t) (b : bool) : t :=
  mk (game_map gs) (entities gs) (pending_entities gs) (player gs)
     (camera_x gs) (camera_y gs) b (game_over gs) (score gs) (objs gs)
     (next_id gs) (draws gs).

Definition append_entity (gs : t) (entity : nat) : t :=
  set_lists gs (entities gs ++ [entity]) (pending_entities gs).

End GameState.

(** ** Section 5 of the source: the game controller *)

(** The keys [_handle_keydown] tells apart. *)
Inductive Key := K_ESCAPE | K_r | K_SPACE | K_m | K_other.

Module BoloGame.

(** The window, the clock and the font are handles of the display
    library and are left out. *)
Record t := mk {
  running : bool;
  game_state : GameState.t
}.

Section Methods.
Context `{PyRuntime}.

(** [x = Cls(...); self.game_state.entities.append(x)] *)
Definition spawn (e : Entity) (gs : GameState.t) : nat * GameState.t :=
  let '(r, gs) := GameState.new_entity e gs in
  (r, GameState.append_entity gs r).

Definition spawn_enemy (gs : GameState.t) (i : Z) : GameState.t :=
  let enemy :=
    Tank.init
      (float_of_Z (Config.MAP_WIDTH * Config.TILE_SIZE * 3 / 4))
      (float_of_Z (Config.MAP_HEIGHT * Config.TILE_SIZE / 4 + i * 100))
      TEAM_2 (GameState.next_id gs) in
  (spawn (ETank (Tank.set_angle enemy 180)) gs).2.

Definition spawn_pillbox (gs : GameState.t) (i : Z) : GameState.t :=
  let pill :=
    Pillbox.init
      (float_of_Z (150 + i * 200))
      (float_of_Z (Config.MAP_HEIGHT * Config.TILE_SIZE - 150))
      NEUTRAL (GameState.next_id gs) in
  (spawn (EPillbox pill) gs).2.

(** The three bases are built first and then appended together. *)
Definition spawn_bases (gs : GameState.t) : GameState.t :=
  let '(base1, gs) :=
    GameState.new_entity
      (EBase (Base.init 200 200 TEAM_1 (GameState.next_id gs))) gs in
  let '(base2, gs) :=
    GameState.new_entity
      (EBase (Base.init
                (float_of_Z (Config.MAP_WIDTH * Config.TILE_SIZE - 200))
                200 TEAM_2 (GameState.next_id gs))) gs in
  let '(base_neutral, gs) :=
    GameState.new_entity
      (EBase (Base.init
                (float_of_Z (Config.MAP_WIDTH * Config.TILE_SIZE / 2))
                (float_of_Z (Config.MAP_HEIGHT * Config.TILE_SIZE / 2))
                NEUTRAL (GameState.next_id gs))) gs in
  GameState.set_lists gs
    (GameState.entities gs ++ [base1; base2; base_neutral])
    (GameState.pending_entities gs).

Definition _setup_game (gs : GameState.t) : option GameState.t :=
  '(m, draws) ←
    GameMap.generate_random (GameState.game_map gs) (GameState.draws gs);
  let gs := GameState.set_draws (GameState.set_game_map gs m) draws in
  let '(player, gs) :=
    GameState.new_entity
      (ETank (Tank.init
                (float_of_Z (Config.MAP_WIDTH * Config.TILE_SIZE / 4))
                (float_of_Z (Config.MAP_HEIGHT * Config.TILE_SIZE / 2))
                TEAM_1 (GameState.next_id gs))) gs in
  let gs := GameState.set_player gs (Some player) in
  let gs := GameState.append_entity gs player in
  let gs := foldl spawn_enemy gs (GameMap.py_range 0 3) in
  let gs := spawn_bases gs in
  let gs := foldl spawn_pillbox gs (GameMap.py_range 0 4) in
  Some gs.

(** [self.game_state = GameState(); self._setup_game()], what both the
    constructor and the restart key do; the object store, the id counter
    and the random stream are the process's and carry on. *)
Definition restart (old : GameState.t) : option GameState.t :=
  _setup_game (GameState.init (GameState.objs old) (GameState.next_id old)
                              (GameState.draws old)).

Definition _handle_keydown (self : t) (key : Key) : option t :=
  let gs := game_state self in
  match key with
  | K_ESCAPE =>
      Some (mk (running self)
               (GameState.set_paused gs (negb (GameState.paused gs))))
  | K_r => gs' ← restart gs; Some (mk (running self) gs')
  | _ =>
      match GameState.player gs with
      | None => Some self
      | Some p =>
          match GameState.objs gs !! p with
          | Some (ETank player) =>
              if negb (Tank.alive player) then Some self
              else
                match key with
                | K_SPACE =>
                    let '(player', _, shell) :=
                      Tank.fire player (GameState.next_id gs) in
                    let gs := GameState.store p (ETank player') gs in
                    match shell with
                    | Some sh =>
                        let '(r, gs) :=
                          GameState.new_entity (EShell sh) gs in
                        Some (mk (running self) (GameState.add_entity gs r))
                    | None => Some (mk (running self) gs)
                    end
                | K_m =>
                    let '(player', _, mine) :=
                      Tank.place_mine player (GameState.next_id gs) in
                    let gs := GameState.store p (ETank player') gs in
                    match mine with
                    | Some mn =>
                        let '(r, gs) :=
                          GameState.new_entity (EMine mn) gs in
                        Some (mk (running self) (GameState.add_entity gs r))
                    | None => Some (mk (running self) gs)
                    end
                | _ => Some self
                end
          | _ => Some self
          end
      end
  end.

End Methods.

(** The keys [_update] polls; each flag stands for the two alternative
    keys of one direction. *)
Record Pressed := mkPressed {
  forward : bool;
  backward : bool;
  left : bool;
  right : bool
}.

Section Update.
Context `{PyRuntime} `{PyFloatMod}.

(** The continuous key input of [_update], applied to the player. *)
Definition player_input (keys : Pressed) (gs : GameState.t)
  : option GameState.t :=
  match GameState.player gs with
  | Some p =>
      match GameState.objs gs !! p with
      | Some (ETank player) =>
          if Tank.alive player then
            player ← (if forward keys
                       then Tank.move_forward player (GameState.game_map gs)
                       else Some player);
            player ← (if backward keys
                       then Tank.move_backward player (GameState.game_map gs)
                       else Some player);
            let player :=
              if left keys then Tank.rotate_left player else player in
            let player :=
              if right keys then Tank.rotate_right player else player in
            Some (GameState.store p (ETank player) gs)
          else Some gs
      | _ => Some gs
      end
  | None => Some gs
  end.

(** [_simple_enemy_ai(enemy)] for the tank behind reference [r]. *)
Definition _simple_enemy_ai (gs : GameState.t) (r : nat) (enemy : Tank.t)
  : option GameState.t :=
  match GameState.player gs with
  | Some p =>
      match GameState.objs gs !! p with
      | Some (ETank player) =>
          if negb (Tank.alive player) then Some gs
          else
            let dx := (Tank.x player - Tank.x enemy)%float in
            let dy := (Tank.y player - Tank.y enemy)%float in
            let target_angle := degrees (math_atan2 dy dx) in
            let angle_diff :=
              (float_mod (target_angle - Tank.angle enemy + 180) 360
               - 180)%float in
            let enemy :=
              if PrimFloat.ltb 5 (PrimFloat.abs angle_diff) then
                if PrimFloat.ltb 0 angle_diff then Tank.rotate_right enemy
                else Tank.rotate_left enemy
              else enemy in
            let dist := PrimFloat.sqrt (dx * dx + dy * dy)%float in
            if PrimFloat.ltb (PrimFloat.abs angle_diff) 30 then
              enemy ← (if PrimFloat.ltb 150 dist
                        then Tank.move_forward enemy (GameState.game_map gs)
                        else Some enemy);
              if PrimFloat.ltb dist 300 then
                (* [and] short-circuits: the number is drawn only here *)
                let u := random_random (GameState.draws gs) in
                let gs := GameState.set_draws gs (S (GameState.draws gs)) in
                if PrimFloat.ltb u 0.03 then
                  let '(enemy, _, shell) :=
                    Tank.fire enemy (GameState.next_id gs) in
                  let gs := GameState.store r (ETank enemy) gs in
                  match shell with
                  | Some sh =>
                      let '(s, gs) := GameState.new_entity (EShell sh) gs in
                      Some (GameState.add_entity gs s)
                  | None => Some gs
                  end
                else Some (GameState.store r (ETank enemy) gs)
              else Some (GameState.store r (ETank enemy) gs)
            else Some (GameState.store r (ETank enemy) gs)
      | _ => Some gs
      end
  | None => Some gs
  end.

(** The body of the loop over the entities in [_update]. *)
Definition ai_body (gs : GameState.t) (r : nat)
  : option (GameState.t * list Event) :=
  match GameState.objs gs !! r with
  | Some (ETank entity) =>
      if bool_decide (Tank.team entity = TEAM_2)
      then gs' ← _simple_enemy_ai gs r entity; Some (gs', [])
      else Some (gs, [])
  | _ => Some (gs, [])
  end.

Definition _update (self : t) (keys : Pressed) : option t :=
  let gs := game_state self in
  if GameState.paused gs then Some self
  else
    gs ← player_input keys gs;
    '(gs, _) ← GameState.for_each ai_body (GameState.entities gs) gs;
    '(gs, _) ← GameState.update gs;
    Some (mk (running self) gs).

(** [BoloGame()], in a fresh process: no object exists yet and
    [Entity._next_id] is 0; [draws] random numbers have been drawn. *)
Definition init (draws : nat) : option t :=
  gs ← _setup_game (GameState.init [] 0 draws); Some (mk true gs).

End Update.

End BoloGame.

(** * Vocabulary of the statements, and scenarios *)

(** A kind is "still and impassable" when its speed multiplier equals
    zero and it is not passable. *)
Definition still_impassable (k : TileType) : bool :=
  match dict_lookup k TERRAIN_DATA with
  | Some i => PrimFloat.eqb (speed_multiplier i) 0 && negb (passable i)
  | None => false
  end.

(** A runtime to execute scenarios with: squares by one multiplication,
    and the values the C library returns for a tank facing angle 0 and a
    target due east ([cos 0 = 1], [sin 0 = 0], [atan2 0 x = 0] for a
    positive [x]); every draw of [random.random()] is 0.5. *)
Definition scenario_runtime : PyRuntime := {|
  math_cos := fun _ => 1%float;
  math_sin := fun _ => 0%float;
  math_atan2 := fun _ _ => 0%float;
  pow2 := fun x => (x * x)%float;
  random_random := fun _ => 0.5%float
|}.

(** The calls C6 ranges over.  [OpBaseResupply b] is
    [b.resupply_tank(tank)] for a base in any state. *)
Inductive TankOp :=
  | OpFire
  | OpTakeDamage (amount : Z)
  | OpResupply
  | OpBaseResupply (b : Base.t).

Definition within_maxima (tk : Tank.t) : Prop :=
  Resources.armor (Tank.resources tk) <= Config.TANK_MAX_ARMOR /\
  Resources.shells (Tank.resources tk) <= Config.TANK_MAX_SHELLS /\
  Resources.mines (Tank.resources tk) <= Config.TANK_MAX_MINES.

(** Damage amounts are not negative (the game passes 1 and 4). *)
Definition op_admissible (op : TankOp) : Prop :=
  match op with
  | OpTakeDamage amount => 0 <= amount
  | _ => True
  end.

Section TankOps.
Context `{PyRuntime}.

(** One call on the tank; the id counter moves when a shell is built. *)
Definition apply_op (st : Tank.t * Z) (op : TankOp) : Tank.t * Z :=
  let '(tk, next_id) := st in
  match op with
  | OpFire => let '(tk', next_id', _) := Tank.fire tk next_id in (tk', next_id')
  | OpTakeDamage amount => (Tank.take_damage tk amount, next_id)
  | OpResupply => (Tank.resupply tk, next_id)
  | OpBaseResupply b =>
      let '(_, tk', _) := Base.resupply_tank b tk in (tk', next_id)
  end.

Definition apply_ops (st : Tank.t * Z) (ops : list TankOp) : Tank.t * Z :=
  foldl apply_op st ops.

End TankOps.

(** A 3 x 3 lake shore: deep water in the middle column. *)
Definition lake_map : GameMap.t :=
  GameMap.mk 3 3
    [[GRASS; DEEP_WATER; GRASS];
     [GRASS; DEEP_WATER; GRASS];
     [GRASS; DEEP_WATER; GRASS]] false.

(** A tank with a boat, afloat at the centre of tile (1, 1). *)
Definition boat_tank : Tank.t :=
  Tank.mk 3 24 24 true TEAM_1 0 Resources.init
          Config.TANK_BASE_SPEED Config.TANK_SIZE false true
          false None 0 [] 0 10.

(** What a collision pass never changes in an object, and the flags it
    only ever clears: the class of the object; a tank's id and team; a
    shell's owner and team; a mine's position; a pillbox's [alive] flag
    and, as long as it is still active, its team.  [alive] of a tank or a
    shell and [active] of a pillbox are never set again once cleared. *)
Definition obj_stable (e0 e : Entity) : Prop :=
  match e0, e with
  | ETank t0, ETank t =>
      Tank.id t = Tank.id t0 /\ Tank.team t = Tank.team t0 /\
      (Tank.alive t = true -> Tank.alive t0 = true)
  | EShell s0, EShell s =>
      Shell.owner_id s = Shell.owner_id s0 /\
      Shell.team s = Shell.team s0 /\
      (Shell.alive s = true -> Shell.alive s0 = true)
  | EMine m0, EMine m => Mine.x m = Mine.x m0 /\ Mine.y m = Mine.y m0
  | EPillbox p0, EPillbox p =>
      Pillbox.alive p = Pillbox.alive p0 /\
      (Pillbox.active p = true ->
         Pillbox.active p0 = true /\ Pillbox.team p = Pillbox.team p0)
  | EBase _, EBase _ => True
  | _, _ => False
  end.

Definition stable (o0 o : list Entity) : Prop :=
  forall r e,
    o !! r = Some e -> exists e0, o0 !! r = Some e0 /\ obj_stable e0 e.

(** The shell behind [r] made the [take_damage] call recorded by [ev]. *)
Definition damages (r : nat) (ev : Event) : Prop :=
  ev_entity ev = r /\
  (ev_category ev = ShellTank \/ ev_category ev = ShellPillbox).

#[global] Instance damages_dec (r : nat) (ev : Event) :
  Decision (damages r ev).
Proof. unfold damages. apply _. Defined.

(** The number of [take_damage] calls the shell behind [r] made. *)
Definition shell_hits (r : nat) (evs : list Event) : nat :=
  length (filter (damages r) evs).

(** A recorded hit is legitimate in the store [o]: the attacker is a live
    shell, the victim a live tank that is neither its owner nor of its
    team, or a live, active pillbox that is not of its team. *)
Definition legitimate (o : list Entity) (ev : Event) : Prop :=
  match ev with
  | Contact ShellTank r v =>
      exists sh tk,
        o !! r = Some (EShell sh) /\ o !! v = Some (ETank tk) /\
        Shell.alive sh = true /\ Tank.alive tk = true /\
        Tank.id tk <> Shell.owner_id sh /\ Tank.team tk <> Shell.team sh
  | Contact ShellPillbox r v =>
      exists sh pb,
        o !! r = Some (EShell sh) /\ o !! v = Some (EPillbox pb) /\
        Shell.alive sh = true /\ Pillbox.alive pb = true /\
        Pillbox.active pb = true /\ Pillbox.team pb <> Shell.team sh
  | Contact _ _ _ => True
  end.

Definition shell_alive_in (o : list Entity) (r : nat) : Prop :=
  exists sh, o !! r = Some (EShell sh) /\ Shell.alive sh = true.

Definition shell_dead_in (o : list Entity) (r : nat) : Prop :=
  forall sh, o !! r = Some (EShell sh) -> Shell.alive sh = false.

(** The summary of any stretch of the collision pass that leads from
    [gs] to [gs'] and records [evs]. *)
Record Stretch (gs : GameState.t) (evs : list Event) (gs' : GameState.t)
  : Prop := mkStretch {
  st_entities : GameState.entities gs' = GameState.entities gs;
  st_pending :
    GameState.pending_entities gs' = GameState.pending_entities gs;
  st_length :
    length (GameState.objs gs') = length (GameState.objs gs);
  st_map :
    GameMap.wf (GameState.game_map gs) ->
    GameMap.wf (GameState.game_map gs');
  st_stable : stable (GameState.objs gs) (GameState.objs gs');
  st_legit : Forall (legitimate (GameState.objs gs)) evs;
  st_once : forall r, (shell_hits r evs <= 1)%nat;
  st_spent :
    forall r, shell_hits r evs = 1%nat ->
      shell_alive_in (GameState.objs gs) r /\
      shell_dead_in (GameState.objs gs') r
}.


(** A skirmish that exercises every category: shell 5 (fired by tank 0 of
    team 1) overlaps its owner, a team mate, two enemy tanks and an enemy
    pillbox; shell 6 overlaps a neutral pillbox; mine 8 of team 2 lies
    under tank 0; base 9 of team 1 is within reach of all four tanks. *)
Definition skirmish : GameState.t :=
  GameState.mk (GameMap.init 64 48) [0; 1; 2; 3; 4; 5; 6; 7; 8; 9]%nat []
    (Some 0%nat) 0 0 false false 0
    [ ETank (Tank.init 145 100 TEAM_1 0);
      ETank (Tank.init 150 100 TEAM_1 1);
      ETank (Tank.init 150 100 TEAM_2 2);
      ETank (Tank.init 152 100 TEAM_2 3);
      EPillbox (Pillbox.init 155 100 TEAM_2 4);
      EShell (Shell.init 151 100 0 TEAM_1 0 5);
      EShell (Shell.init 300 100 0 TEAM_1 0 6);
      EPillbox (Pillbox.init 302 100 NEUTRAL 7);
      EMine (Mine.init 145 100 TEAM_2 8);
      EBase (Base.init 145 100 TEAM_1 9) ] 10 0.


(** The scenario of C3 run through the whole pass: a team-1 base with
    armor stock 8 and, on it, a team-1 tank with armor 5 and full shells
    and mines; afterwards the tank has armor 6 and the base 7. *)
Definition depot : GameState.t :=
  GameState.mk (GameMap.init 64 48) [0; 1]%nat [] (Some 0%nat)
    0 0 false false 0
    [ ETank (Tank.set_resources (Tank.init 200 200 TEAM_1 0)
                                (Resources.mk 5 40 40 0));
      EBase (Base.init 200 200 TEAM_1 1) ] 2 0.

(** Every reference held by the two entity lists points into the store. *)
Definition refs_valid (gs : GameState.t) : Prop :=
  Forall (fun r => (r < length (GameState.objs gs))%nat)
         (GameState.entities gs ++ GameState.pending_entities gs).

(** What the entity-update phase can do to the lists: the live list stays
    as it is, and the pending list is extended by references to objects
    created in the meantime. *)
Record Grow (gs gs' : GameState.t) : Prop := mkGrow {
  gr_entities : GameState.entities gs' = GameState.entities gs;
  gr_length :
    (length (GameState.objs gs) <= length (GameState.objs gs'))%nat;
  gr_pending :
    exists new,
      GameState.pending_entities gs' = GameState.pending_entities gs ++ new /\
      Forall (fun n => (length (GameState.objs gs) <= n
                        < length (GameState.objs gs'))%nat) new
}.

(** An outpost: a neutral pillbox with a team-1 tank due east of it and
    within its range. *)
Definition outpost : GameState.t :=
  GameState.mk (GameMap.init 64 48) [0; 1]%nat [] (Some 0%nat)
    0 0 false false 0
    [ ETank (Tank.init 200 100 TEAM_1 0);
      EPillbox (Pillbox.init 100 100 NEUTRAL 1) ] 2 0.

(** The outpost after the update phase of its first frame (the pillbox
    has fired: object 2 is the shell), and after the collision pass. *)
Definition outpost_updated : GameState.t :=
  Eval vm_compute in
    match @GameState.update_entities scenario_runtime
            (GameState.merge_pending outpost) with
    | Some (g, _) => g
    | None => outpost
    end.

Definition outpost_collided : GameState.t :=
  Eval vm_compute in
    match @GameState._process_collisions scenario_runtime outpost_updated with
    | Some (g, _) => g
    | None => outpost
    end.

(** An ambush: the tank stands 10 pixels east of the pillbox, so the
    shell the pillbox fires in one frame reaches it in the next. *)
Definition ambush : GameState.t :=
  GameState.mk (GameMap.init 64 48) [0; 1]%nat [] (Some 0%nat)
    0 0 false false 0
    [ ETank (Tank.init 110 100 TEAM_1 0);
      EPillbox (Pillbox.init 100 100 NEUTRAL 1) ] 2 0.

Definition ambush_frame1 : GameState.t :=
  Eval vm_compute in
    match @GameState.update scenario_runtime ambush with
    | Some (g, _) => g
    | None => ambush
    end.

Definition ambush_frame2 : GameState.t :=
  Eval vm_compute in
    match @GameState.update scenario_runtime ambush_frame1 with
    | Some (g, _) => g
    | None => ambush
    end.

(** [ambush_frame1] with the [game_over] flag set. *)
Definition ambush_game_over : GameState.t :=
  GameState.mk (GameState.game_map ambush_frame1)
    (GameState.entities ambush_frame1)
    (GameState.pending_entities ambush_frame1)
    (GameState.player ambush_frame1)
    (GameState.camera_x ambush_frame1) (GameState.camera_y ambush_frame1)
    false true (GameState.score ambush_frame1)
    (GameState.objs ambush_frame1) (GameState.next_id ambush_frame1)
    (GameState.draws ambush_frame1).

(** ** Vocabulary of the further properties *)

(** The kind a hit turns a kind into: the [if] / [elif] chain of
    [damage_tile], a kind without a branch staying as it is. *)
Definition worn (c : TileType) : TileType :=
  match c with
  | WALL => DAMAGED_WALL
  | DAMAGED_WALL => RUBBLE
  | FOREST => GRASS
  | SWAMP => CRATER
  | other => other
  end.

(** [n] calls of [shell.update(game_state)] in a row, the map being
    threaded through them. *)
Fixpoint shell_updates `{PyRuntime} (n : nat) (sh : Shell.t) (m : GameMap.t)
  : option (Shell.t * GameMap.t) :=
  match n with
  | O => Some (sh, m)
  | S k => '(sh1, m1) ← Shell.update sh m; shell_updates k sh1 m1
  end.

(** [n] calls of [tank.update(game_state)] in a row. *)
Definition tank_updates (n : nat) (tk : Tank.t) : Tank.t :=
  Nat.iter n Tank.update tk.

(** [damage_tile] applied [n] times to the same cell. *)
Fixpoint damage_tiles (n : nat) (m : GameMap.t) (x y : Z)
  : option GameMap.t :=
  match n with
  | O => Some m
  | S k => m1 ← GameMap.damage_tile m x y; damage_tiles k m1 x y
  end.

(** The layout [generate_random] produces: the outermost ring of cells,
    the two road corridors, and the position of an interior cell in the
    row-major order in which the random numbers are drawn. *)
Definition on_border (m : GameMap.t) (x y : Z) : bool :=
  (x =? 0) || (y =? 0) || (x =? GameMap.width m - 1)
  || (y =? GameMap.height m - 1).

Definition on_road (m : GameMap.t) (x y : Z) : bool :=
  ((y =? GameMap.height m / 2) && (5 <=? x) && (x <? GameMap.width m - 5))
  || ((x =? GameMap.width m / 2) && (5 <=? y)
      && (y <? GameMap.height m - 5)).

Definition draw_index (m : GameMap.t) (x y : Z) : nat :=
  Z.to_nat ((y - 1) * (GameMap.width m - 2) + (x - 1)).

Definition generated `{PyRuntime} (m : GameMap.t) (draws : nat) (x y : Z)
  : TileType :=
  if on_road m x y then ROAD
  else if on_border m x y then WALL
  else GameMap.random_kind (random_random (draws + draw_index m x y)).

(** Every call the engine can make on a tank (the two rotations, which
    touch the heading only, are not modelled). *)
Inductive TankCall :=
  | CallUpdate
  | CallMoveForward (m : GameMap.t)
  | CallMoveBackward (m : GameMap.t)
  | CallFire
  | CallPlaceMine
  | CallTakeDamage (amount : Z)
  | CallResupply
  | CallBaseResupply (b : Base.t).

Section TankCalls.
Context `{PyRuntime}.

(** One call on the tank; the state is the tank and [Entity._next_id]. *)
Definition tank_call (st : Tank.t * Z) (c : TankCall)
  : option (Tank.t * Z) :=
  let '(tk, next_id) := st in
  match c with
  | CallUpdate => Some (Tank.update tk, next_id)
  | CallMoveForward m => tk' ← Tank.move_forward tk m; Some (tk', next_id)
  | CallMoveBackward m => tk' ← Tank.move_backward tk m; Some (tk', next_id)
  | CallFire =>
      let '(tk', next_id', _) := Tank.fire tk next_id in Some (tk', next_id')
  | CallPlaceMine =>
      let '(tk', next_id', _) := Tank.place_mine tk next_id in
      Some (tk', next_id')
  | CallTakeDamage amount => Some (Tank.take_damage tk amount, next_id)
  | CallResupply => Some (Tank.resupply tk, next_id)
  | CallBaseResupply b =>
      let '(_, tk', _) := Base.resupply_tank b tk in Some (tk', next_id)
  end.

Fixpoint tank_calls (st : Tank.t * Z) (cs : list TankCall)
  : option (Tank.t * Z) :=
  match cs with
  | [] => Some st
  | c :: rest => st1 ← tank_call st c; tank_calls st1 rest
  end.

End TankCalls.

(** What no call on a tank changes, and the direction in which the rest
    can move. *)
Definition tank_kept (tk tk' : Tank.t) : Prop :=
  Tank.id tk' = Tank.id tk /\
  Tank.team tk' = Tank.team tk /\
  Tank.size tk' = Tank.size tk /\
  Tank.speed tk' = Tank.speed tk /\
  Tank.fire_rate tk' = Tank.fire_rate tk /\
  Tank.has_boat tk' = Tank.has_boat tk /\
  Tank.angle tk' = Tank.angle tk /\
  (Tank.alive tk' = true -> Tank.alive tk = true) /\
  (0 <= Resources.shells (Tank.resources tk) ->
   0 <= Resources.shells (Tank.resources tk')) /\
  (0 <= Resources.mines (Tank.resources tk) ->
   0 <= Resources.mines (Tank.resources tk')) /\
  ((Tank.alive tk = true -> 0 < Resources.armor (Tank.resources tk)) ->
   Tank.alive tk' = true -> 0 < Resources.armor (Tank.resources tk')) /\
  (0 <= Tank.fire_cooldown tk -> 0 <= Tank.fire_rate tk ->
   0 <= Tank.fire_cooldown tk'
     <= Z.max (Tank.fire_cooldown tk) (Tank.fire_rate tk)).


(** [n] frames of a base. *)
Definition base_updates (n : nat) (b : Base.t) : Base.t :=
  Nat.iter n Base.update b.

(** The bounds within which the overlap test of a mine and a tank is the
    test the code makes: the integer [size + radius] is a float as it
    stands (at most [2^53] in size), where the code compares the float
    with the integer itself, and the coordinate differences are small
    enough for [** 2] not to overflow, where the code raises. *)
Definition mine_test_exact (mn : Mine.t) (e : Entity) : Prop :=
  match e with
  | ETank tk =>
      - 2 ^ 53 <= Tank.size tk + Mine.radius mn <= 2 ^ 53 /\
      PrimFloat.leb (PrimFloat.abs (Mine.x mn - Tank.x tk)) 0x1p511 = true /\
      PrimFloat.leb (PrimFloat.abs (Mine.y mn - Tank.y tk)) 0x1p511 = true
  | _ => True
  end.

(** The tank behind [o] sets the mine off: it is alive, of another team,
    and nearer than its size plus the radius of the mine. *)
Definition sets_off `{PyRuntime} (gs : GameState.t) (mn : Mine.t) (o : nat)
  : Prop :=
  exists tk,
    GameState.objs gs !! o = Some (ETank tk) /\
    Tank.alive tk = true /\
    Tank.team tk <> Mine.team mn /\
    PrimFloat.ltb
      (distance (Mine.x mn) (Mine.y mn) (Tank.x tk) (Tank.y tk))
      (float_of_Z (Tank.size tk + Mine.radius mn)) = true.

(** * Properties *)

(** ** The terrain table *)

(** C7, as stated, fails: it is not the case that exactly one terrain kind
    has a zero speed multiplier together with [passable = False]; deep
    water and wall are two different such kinds. *)
Lemma terrain_not_exactly_one_still_impassable :
  ~ (exists k, forall k', still_impassable k' = true <-> k' = k).
Proof.
  intros [k Hk].
  assert (Hd : DEEP_WATER = k) by (apply Hk; reflexivity).
  assert (Hw : WALL = k) by (apply Hk; reflexivity).
  congruence.
Qed.

(** C7, amended: every kind is in the table with a speed multiplier that
    is at least zero; the kinds with a zero multiplier and
    [passable = False] are exactly the three kinds deep water, wall and
    damaged wall; [blocks_shots] holds for wall and damaged wall and for
    no other kind, so deep water is the only still and impassable kind
    that does not block shots. *)
Theorem terrain_table_properties (k : TileType) :
  exists i,
    dict_lookup k TERRAIN_DATA = Some i /\
    terrain_get k = Some i /\
    PrimFloat.leb 0 (speed_multiplier i) = true /\
    (still_impassable k = true <->
       k = DEEP_WATER \/ k = WALL \/ k = DAMAGED_WALL) /\
    (blocks_shots i = true <-> k = WALL \/ k = DAMAGED_WALL) /\
    (still_impassable k = true /\ blocks_shots i = false <->
       k = DEEP_WATER).
Proof.
  destruct k; eexists; (split; [reflexivity|]); (split; [reflexivity|]);
    (split; [reflexivity|]); cbv [still_impassable]; cbn;
    repeat split; intros; intuition (auto; discriminate).
Qed.

(** ** The tile map *)

Section GameMapFacts.
Import GameMap.

Lemma in_bounds_true (m : t) (x y : Z) :
  in_bounds m x y = true <-> (0 <= x < width m /\ 0 <= y < height m).
Proof. unfold in_bounds. rewrite !andb_true_iff. lia. Qed.

Lemma in_bounds_false (m : t) (x y : Z) :
  in_bounds m x y = false <-> ~ (0 <= x < width m /\ 0 <= y < height m).
Proof.
  rewrite <- in_bounds_true. destruct (in_bounds m x y); split; congruence.
Qed.

Lemma wf_row (m : t) (x y : Z) :
  wf m -> 0 <= x < width m -> 0 <= y < height m ->
  exists row, tiles m !! Z.to_nat y = Some row
              /\ (Z.to_nat x < length row)%nat.
Proof.
  intros [Hh Hw] Hx Hy.
  destruct (lookup_lt_is_Some_2 (tiles m) (Z.to_nat y)) as [row Hrow];
    [lia|].
  exists row. split; [done|].
  rewrite Forall_lookup in Hw. rewrite (Hw _ _ Hrow). lia.
Qed.

Lemma wf_init (w h : Z) : wf (init w h).
Proof.
  split; cbn.
  - by rewrite length_replicate.
  - apply Forall_replicate. by rewrite length_replicate.
Qed.

Lemma set_tile_in (m : t) (x y : Z) (k : TileType) :
  wf m -> 0 <= x < width m -> 0 <= y < height m ->
  exists row,
    tiles m !! Z.to_nat y = Some row /\
    set_tile m x y k =
      Some (mk (width m) (height m)
              (<[Z.to_nat y := <[Z.to_nat x := k]> row]> (tiles m)) true).
Proof.
  intros Hwf Hx Hy. destruct (wf_row m x y Hwf Hx Hy) as (row & Hrow & Hlt).
  exists row. split; [done|]. unfold set_tile.
  rewrite (proj2 (in_bounds_true m x y)) by done.
  rewrite Hrow. cbn. by rewrite decide_True.
Qed.

Lemma set_tile_wf (m m' : t) (x y : Z) (k : TileType) :
  wf m -> set_tile m x y k = Some m' ->
  wf m' /\ width m' = width m /\ height m' = height m.
Proof.
  intros [Hh Hw]. unfold set_tile.
  destruct (in_bounds m x y); [|by intros [= <-]].
  destruct (tiles m !! Z.to_nat y) as [row|] eqn:Hrow; [|done]. cbn.
  case_decide; [|done]. intros [= <-]. unfold wf.
  cbv [tiles width height]. repeat split.
  - by rewrite length_insert.
  - apply Forall_insert; [done|].
    rewrite length_insert. by eapply (Forall_lookup_1 _ _ _ _ Hw).
Qed.

Lemma set_tile_cell (m m' : t) (x y : Z) (k : TileType) :
  0 <= x < width m -> 0 <= y < height m ->
  set_tile m x y k = Some m' ->
  cell m' x y = Some k /\
  (forall x' y', 0 <= x' -> 0 <= y' -> (x', y') <> (x, y) ->
                 cell m' x' y' = cell m x' y').
Proof.
  intros Hx Hy. unfold set_tile.
  rewrite (proj2 (in_bounds_true m x y)) by done.
  destruct (tiles m !! Z.to_nat y) as [row|] eqn:Hrow; [|done]. cbn.
  case_decide as Hlt; [|done]. intros [= <-]. unfold cell. cbn. split.
  - rewrite list_lookup_insert_eq by (by eapply lookup_lt_Some). cbn.
    by rewrite list_lookup_insert_eq.
  - intros x' y' Hx' Hy' Hne.
    destruct (decide (Z.to_nat y = Z.to_nat y')) as [Hyy|Hyy].
    + rewrite <- Hyy.
      rewrite list_lookup_insert_eq by (by eapply lookup_lt_Some).
      rewrite Hrow. cbn. apply list_lookup_insert_ne.
      intros Hxx. apply Hne. f_equal; lia.
    + by rewrite list_lookup_insert_ne.
Qed.

End GameMapFacts.

(** C9: outside the rectangle [0, width) x [0, height), [get_tile] returns
    [WALL] and [set_tile] returns the map as it was, whatever the kind;
    inside it (on a map of the shape the constructor builds), [get_tile]
    returns the stored cell and [set_tile] stores exactly the given kind
    at that cell, every other cell and the dimensions staying as they
    were. *)
Theorem tile_access_bounds (m : GameMap.t) (x y : Z) (k : TileType) :
  (~ (0 <= x < GameMap.width m /\ 0 <= y < GameMap.height m) ->
     GameMap.get_tile m x y = Some WALL /\
     GameMap.set_tile m x y k = Some m) /\
  (GameMap.wf m ->
   0 <= x < GameMap.width m -> 0 <= y < GameMap.height m ->
     exists c m',
       GameMap.cell m x y = Some c /\
       GameMap.get_tile m x y = Some c /\
       GameMap.set_tile m x y k = Some m' /\
       GameMap.cell m' x y = Some k /\
       GameMap.get_tile m' x y = Some k /\
       GameMap.width m' = GameMap.width m /\
       GameMap.height m' = GameMap.height m /\
       (forall x' y', 0 <= x' -> 0 <= y' -> (x', y') <> (x, y) ->
                      GameMap.cell m' x' y' = GameMap.cell m x' y')).
Proof.
  split.
  - intros Hout. apply in_bounds_false in Hout.
    unfold GameMap.get_tile, GameMap.set_tile. by rewrite Hout.
  - intros Hwf Hx Hy.
    destruct (wf_row m x y Hwf Hx Hy) as (row & Hrow & Hlt).
    destruct (lookup_lt_is_Some_2 row (Z.to_nat x) Hlt) as [c Hc].
    destruct (set_tile_in m x y k Hwf Hx Hy) as (row' & Hrow' & Hset).
    destruct (set_tile_wf _ _ _ _ _ Hwf Hset) as (_ & Hw' & Hh').
    destruct (set_tile_cell _ _ _ _ _ Hx Hy Hset) as [Hk Hothers].
    assert (Hcell : GameMap.cell m x y = Some c)
      by (unfold GameMap.cell; by rewrite Hrow).
    assert (Hin : forall m0, GameMap.width m0 = GameMap.width m ->
                   GameMap.height m0 = GameMap.height m ->
                   GameMap.get_tile m0 x y = GameMap.cell m0 x y).
    { intros m0 Hw0 Hh0. unfold GameMap.get_tile.
      rewrite (proj2 (in_bounds_true m0 x y)); [done|]. by rewrite Hw0, Hh0. }
    exists c. eexists. split_and!; [exact Hcell | | exact Hset | exact Hk
      | | exact Hw' | exact Hh' | exact Hothers].
    + by rewrite Hin.
    + by rewrite Hin.
Qed.

Lemma tile_access_bounds_witness :
  (GameMap.get_tile (GameMap.init 4 3) 7 1 = Some WALL /\
   GameMap.set_tile (GameMap.init 4 3) 7 1 ROAD = Some (GameMap.init 4 3)) /\
  (exists c m',
     GameMap.cell (GameMap.init 4 3) 1 2 = Some c /\
     GameMap.get_tile (GameMap.init 4 3) 1 2 = Some c /\
     GameMap.set_tile (GameMap.init 4 3) 1 2 ROAD = Some m' /\
     GameMap.cell m' 1 2 = Some ROAD /\
     GameMap.get_tile m' 1 2 = Some ROAD /\
     GameMap.width m' = 4 /\
     GameMap.height m' = 3 /\
     (forall x' y', 0 <= x' -> 0 <= y' -> (x', y') <> (1, 2) ->
        GameMap.cell m' x' y' = GameMap.cell (GameMap.init 4 3) x' y')).
Proof.
  split.
  - apply (tile_access_bounds (GameMap.init 4 3) 7 1 ROAD). cbn. lia.
  - apply (tile_access_bounds (GameMap.init 4 3) 1 2 ROAD).
    + apply wf_init.
    + cbn. lia.
    + cbn. lia.
Defined.

(** C8: at an in-bounds coordinate, [damage_tile] turns WALL into
    DAMAGED_WALL, DAMAGED_WALL into RUBBLE, FOREST into GRASS and SWAMP
    into CRATER, touches no other cell, and leaves a map whose cell is of
    any other kind exactly as it was; so on RUBBLE or ROAD a call, and a
    second one after it, change nothing. *)
Theorem damage_tile_transitions (m : GameMap.t) (x y : Z) (c : TileType) :
  GameMap.wf m ->
  0 <= x < GameMap.width m -> 0 <= y < GameMap.height m ->
  GameMap.cell m x y = Some c ->
  exists m',
    GameMap.damage_tile m x y = Some m' /\
    (c = WALL -> GameMap.cell m' x y = Some DAMAGED_WALL) /\
    (c = DAMAGED_WALL -> GameMap.cell m' x y = Some RUBBLE) /\
    (c = FOREST -> GameMap.cell m' x y = Some GRASS) /\
    (c = SWAMP -> GameMap.cell m' x y = Some CRATER) /\
    (c <> WALL -> c <> DAMAGED_WALL -> c <> FOREST -> c <> SWAMP ->
       m' = m) /\
    (c = RUBBLE \/ c = ROAD ->
       m' = m /\ GameMap.damage_tile m' x y = Some m') /\
    (forall x' y', 0 <= x' -> 0 <= y' -> (x', y') <> (x, y) ->
                   GameMap.cell m' x' y' = GameMap.cell m x' y').
Proof.
  intros Hwf Hx Hy Hc.
  assert (Hget : GameMap.get_tile m x y = Some c).
  { unfold GameMap.get_tile. by rewrite (proj2 (in_bounds_true m x y)). }
  assert (Hdam : forall k, exists m',
             GameMap.set_tile m x y k = Some m' /\
             GameMap.cell m' x y = Some k /\
             (forall x' y', 0 <= x' -> 0 <= y' -> (x', y') <> (x, y) ->
                GameMap.cell m' x' y' = GameMap.cell m x' y')).
  { intros k. destruct (set_tile_in m x y k Hwf Hx Hy) as (row & _ & Hset).
    eexists. split; [exact Hset|]. by eapply set_tile_cell. }
  assert (Hnoop : c = RUBBLE \/ c = ROAD ->
                  GameMap.damage_tile m x y = Some m).
  { unfold GameMap.damage_tile. rewrite Hget. by intros [-> | ->]. }
  unfold GameMap.damage_tile at 1. rewrite Hget. cbn.
  destruct c; cbn;
    lazymatch goal with
    | |- exists _, GameMap.set_tile m x y ?k = _ /\ _ =>
        destruct (Hdam k) as (m' & Hs & Hk & Ho); exists m'
    | |- _ => exists m
    end;
    split_and!; try done; try (intros [? | ?]; discriminate);
    try (intros; split; [done | by apply Hnoop]).
Qed.

Lemma damage_tile_transitions_witness :
  let m := GameMap.mk 2 2 [[WALL; ROAD]; [FOREST; RUBBLE]] false in
  exists m',
    GameMap.damage_tile m 0 0 = Some m' /\
    (WALL = WALL -> GameMap.cell m' 0 0 = Some DAMAGED_WALL) /\
    (WALL = DAMAGED_WALL -> GameMap.cell m' 0 0 = Some RUBBLE) /\
    (WALL = FOREST -> GameMap.cell m' 0 0 = Some GRASS) /\
    (WALL = SWAMP -> GameMap.cell m' 0 0 = Some CRATER) /\
    (WALL <> WALL -> WALL <> DAMAGED_WALL -> WALL <> FOREST ->
     WALL <> SWAMP -> m' = m) /\
    (WALL = RUBBLE \/ WALL = ROAD ->
       m' = m /\ GameMap.damage_tile m' 0 0 = Some m') /\
    (forall x' y', 0 <= x' -> 0 <= y' -> (x', y') <> (0, 0) ->
                   GameMap.cell m' x' y' = GameMap.cell m x' y').
Proof.
  apply (damage_tile_transitions
           (GameMap.mk 2 2 [[WALL; ROAD]; [FOREST; RUBBLE]] false) 0 0 WALL).
  - split; [reflexivity | repeat constructor].
  - cbn. lia.
  - cbn. lia.
  - reflexivity.
Defined.

(** ** Pillbox *)

(** C4: [take_damage n] with [n >= 1] raises aggression by one, capped at
    8, with no regard to who fired; a health that would fall to zero or
    below is stored as 0 with team NEUTRAL and [active = False], and
    otherwise team and [active] are kept; [capture t] sets the team to
    [t], the health to half the maximum (8), [active] to True and the
    aggression to 0. *)
Theorem pillbox_take_damage_capture (p : Pillbox.t) (n : Z) (t : Team) :
  1 <= n ->
  let p' := Pillbox.take_damage p n in
  let q := Pillbox.capture p t in
  Pillbox.aggression p' = Z.min 8 (Pillbox.aggression p + 1) /\
  (Pillbox.aggression p < 8 ->
     Pillbox.aggression p' = Pillbox.aggression p + 1) /\
  (Pillbox.aggression p = 8 -> Pillbox.aggression p' = 8) /\
  (Pillbox.health p - n <= 0 ->
     Pillbox.health p' = 0 /\ Pillbox.team p' = NEUTRAL /\
     Pillbox.active p' = false) /\
  (0 < Pillbox.health p - n ->
     Pillbox.health p' = Pillbox.health p - n /\
     Pillbox.team p' = Pillbox.team p /\
     Pillbox.active p' = Pillbox.active p) /\
  Pillbox.team q = t /\
  Pillbox.health q = 8 /\
  Pillbox.health q = Config.PILLBOX_MAX_HEALTH / 2 /\
  Pillbox.active q = true /\
  Pillbox.aggression q = 0.
Proof.
  intros Hn p' q. subst p' q. unfold Pillbox.take_damage, Pillbox.capture.
  destruct (Z.leb_spec (Pillbox.health p - n) 0); cbn;
    split_and!; try reflexivity; intros; try lia; done.
Qed.

Lemma pillbox_take_damage_capture_witness :
  let p := Pillbox.init 100 100 TEAM_2 5 in
  let p' := Pillbox.take_damage p 16 in
  let q := Pillbox.capture p TEAM_1 in
  Pillbox.aggression p' = Z.min 8 (Pillbox.aggression p + 1) /\
  (Pillbox.aggression p < 8 ->
     Pillbox.aggression p' = Pillbox.aggression p + 1) /\
  (Pillbox.aggression p = 8 -> Pillbox.aggression p' = 8) /\
  (Pillbox.health p - 16 <= 0 ->
     Pillbox.health p' = 0 /\ Pillbox.team p' = NEUTRAL /\
     Pillbox.active p' = false) /\
  (0 < Pillbox.health p - 16 ->
     Pillbox.health p' = Pillbox.health p - 16 /\
     Pillbox.team p' = Pillbox.team p /\
     Pillbox.active p' = Pillbox.active p) /\
  Pillbox.team q = TEAM_1 /\
  Pillbox.health q = 8 /\
  Pillbox.health q = Config.PILLBOX_MAX_HEALTH / 2 /\
  Pillbox.active q = true /\
  Pillbox.aggression q = 0.
Proof.
  apply (pillbox_take_damage_capture (Pillbox.init 100 100 TEAM_2 5) 16 TEAM_1).
  lia.
Defined.

(** ** Tank *)

(** C5: [fire] returns [None] and the tank as it was when the cooldown is
    positive or no shell is left; otherwise the tank loses exactly one
    shell, its cooldown becomes its fire rate, nothing else of it
    changes, and the returned shell is a new object (it takes the next
    entity id) at the tank's position offset along the facing angle by
    the tank radius plus 8, with the tank's angle and team and with the
    tank's id as owner. *)
Theorem tank_fire_spec `{PyRuntime} (tk : Tank.t) (next_id : Z) :
  (0 < Tank.fire_cooldown tk \/ Resources.shells (Tank.resources tk) <= 0 ->
     Tank.fire tk next_id = (tk, next_id, None)) /\
  (Tank.fire_cooldown tk <= 0 ->
   0 < Resources.shells (Tank.resources tk) ->
     exists tk' sh,
       Tank.fire tk next_id = (tk', next_id + 1, Some sh) /\
       tk' = Tank.set_fire_cooldown
               (Tank.set_resources tk
                  (Resources.mk
                     (Resources.armor (Tank.resources tk))
                     (Resources.shells (Tank.resources tk) - 1)
                     (Resources.mines (Tank.resources tk))
                     (Resources.wood (Tank.resources tk))))
               (Tank.fire_rate tk) /\
       Resources.shells (Tank.resources tk')
         = Resources.shells (Tank.resources tk) - 1 /\
       Tank.fire_cooldown tk' = Tank.fire_rate tk /\
       Shell.x sh
         = (Tank.x tk + math_cos (radians (Tank.angle tk))
                        * float_of_Z (Tank.size tk + 8))%float /\
       Shell.y sh
         = (Tank.y tk + math_sin (radians (Tank.angle tk))
                        * float_of_Z (Tank.size tk + 8))%float /\
       Shell.angle sh = Tank.angle tk /\
       Shell.team sh = Tank.team tk /\
       Shell.owner_id sh = Tank.id tk /\
       Shell.id sh = next_id /\
       Shell.alive sh = true).
Proof.
  split.
  - intros Hblocked. unfold Tank.fire.
    destruct (Z.ltb_spec 0 (Tank.fire_cooldown tk)); [done|].
    destruct (Z.leb_spec (Resources.shells (Tank.resources tk)) 0);
      [done | lia].
  - intros Hcool Hstock. unfold Tank.fire.
    destruct (Z.ltb_spec 0 (Tank.fire_cooldown tk)); [lia|].
    destruct (Z.leb_spec (Resources.shells (Tank.resources tk)) 0); [lia|].
    cbn. eexists _, _. split_and!; reflexivity.
Qed.

Lemma tank_fire_spec_witness :
  let empty :=
    Tank.set_resources (Tank.init 100 100 TEAM_1 3) (Resources.mk 8 0 40 0) in
  let ready := Tank.init 100 100 TEAM_1 3 in
  @Tank.fire scenario_runtime empty 4 = (empty, 4, None) /\
  exists tk' sh,
    @Tank.fire scenario_runtime ready 4 = (tk', 5, Some sh) /\
    Resources.shells (Tank.resources tk') = 39 /\
    Tank.fire_cooldown tk' = 10 /\
    Shell.x sh = 120%float /\
    Shell.y sh = 100%float /\
    Shell.team sh = TEAM_1 /\
    Shell.owner_id sh = 3 /\
    Shell.id sh = 4.
Proof.
  split.
  - apply (@tank_fire_spec scenario_runtime
             (Tank.set_resources (Tank.init 100 100 TEAM_1 3)
                                 (Resources.mk 8 0 40 0)) 4).
    right. cbn. lia.
  - assert (Hcool : Tank.fire_cooldown (Tank.init 100 100 TEAM_1 3) <= 0)
      by (cbn; lia).
    assert (Hstock : 0 < Resources.shells
                           (Tank.resources (Tank.init 100 100 TEAM_1 3)))
      by (vm_compute; reflexivity).
    destruct (proj2 (@tank_fire_spec scenario_runtime
                       (Tank.init 100 100 TEAM_1 3) 4) Hcool Hstock)
      as (tk' & sh & Hf & _ & Hs & Hc & Hx & Hy & _ & Ht & Ho & Hi & _).
    exists tk', sh. split_and!; [exact Hf | exact Hs | exact Hc | | | exact Ht
      | exact Ho | exact Hi].
    + rewrite Hx. vm_compute. reflexivity.
    + rewrite Hy. vm_compute. reflexivity.
Defined.

(** *** The resource maxima *)

Section TankOpsFacts.
Context `{PyRuntime}.

Lemma fire_within_maxima (tk : Tank.t) (n : Z) :
  within_maxima tk -> within_maxima (Tank.fire tk n).1.1.
Proof.
  unfold within_maxima, Tank.fire.
  destruct ((0 <? Tank.fire_cooldown tk)
            || (Resources.shells (Tank.resources tk) <=? 0)); cbn; lia.
Qed.

Lemma take_damage_within_maxima (tk : Tank.t) (amount : Z) :
  0 <= amount -> within_maxima tk ->
  within_maxima (Tank.take_damage tk amount).
Proof.
  unfold within_maxima, Tank.take_damage. cbn.
  destruct (_ <=? 0); cbn; lia.
Qed.

Lemma resupply_within_maxima (tk : Tank.t) :
  within_maxima (Tank.resupply tk).
Proof. unfold within_maxima, Tank.resupply. cbn. lia. Qed.

Lemma resupply_tank_within_maxima (b : Base.t) (tk : Tank.t) :
  within_maxima tk -> within_maxima (Base.resupply_tank b tk).1.2.
Proof.
  unfold within_maxima, Base.resupply_tank.
  destruct tk as [? ? ? ? ? ? [a s m w] ? ? ? ? ? ? ? ? ? ?]. cbn.
  unfold Config.TANK_MAX_ARMOR, Config.TANK_MAX_SHELLS,
    Config.TANK_MAX_MINES.
  intros Hmax. destruct (negb _); cbn; [lia|].
  destruct (Z.ltb_spec a 8), (Z.ltb_spec 0 (Base.armor b)); cbn;
    destruct (Z.ltb_spec s 40), (Z.ltb_spec 0 (Base.shells b)); cbn;
    destruct (Z.ltb_spec m 40), (Z.ltb_spec 0 (Base.mines b)); cbn; lia.
Qed.

Lemma apply_op_within_maxima (st : Tank.t * Z) (op : TankOp) :
  op_admissible op -> within_maxima st.1 -> within_maxima (apply_op st op).1.
Proof.
  destruct st as [tk n]. destruct op as [|amount| |b]; cbn; intros Hop Hmax.
  - pose proof (fire_within_maxima tk n Hmax) as Hf.
    by destruct (Tank.fire tk n) as [[tk' n'] sh].
  - by apply take_damage_within_maxima.
  - apply resupply_within_maxima.
  - pose proof (resupply_tank_within_maxima b tk Hmax) as Hr.
    by destruct (Base.resupply_tank b tk) as [[b' tk'] flag].
Qed.

End TankOpsFacts.

(** C6, as stated, fails: [take_damage] subtracts whatever amount it is
    given, so the single call [take_damage(-1)] on a new tank (armor 8)
    leaves it with armor 9. *)
Lemma negative_damage_exceeds_armor_maximum :
  let tk := Tank.init 100 100 TEAM_1 3 in
  Resources.armor (Tank.resources tk) <= 8 /\
  Resources.shells (Tank.resources tk) <= 40 /\
  Resources.mines (Tank.resources tk) <= 40 /\
  Resources.armor
    (Tank.resources
       (@apply_ops scenario_runtime (tk, 4) [OpTakeDamage (-1)]).1) = 9 /\
  ~ (Resources.armor
       (Tank.resources
          (@apply_ops scenario_runtime (tk, 4) [OpTakeDamage (-1)]).1) <= 8).
Proof. vm_compute. split_and!; try discriminate; auto. Qed.

(** C6, amended: a tank whose armor, shells and mines start at or below
    the maxima 8, 40 and 40 keeps them at or below the maxima through
    every finite sequence of [Tank.fire], [Tank.take_damage] of a
    non-negative amount, [Tank.resupply] and [Base.resupply_tank] calls,
    the bases being in any state. *)
Theorem tank_resources_never_exceed_maxima `{PyRuntime}
    (ops : list TankOp) (tk : Tank.t) (next_id : Z) :
  Resources.armor (Tank.resources tk) <= 8 ->
  Resources.shells (Tank.resources tk) <= 40 ->
  Resources.mines (Tank.resources tk) <= 40 ->
  Forall op_admissible ops ->
  let tk' := (apply_ops (tk, next_id) ops).1 in
  Resources.armor (Tank.resources tk') <= 8 /\
  Resources.shells (Tank.resources tk') <= 40 /\
  Resources.mines (Tank.resources tk') <= 40.
Proof.
  intros Ha Hs Hm Hops.
  assert (Hstart : within_maxima (tk, next_id).1) by (split_and!; done).
  generalize dependent (tk, next_id). clear Ha Hs Hm tk next_id.
  induction Hops as [|op ops Hop Hops IH]; intros st Hst.
  - exact Hst.
  - cbn. apply IH. by apply apply_op_within_maxima.
Qed.

Lemma tank_resources_never_exceed_maxima_witness :
  let ops :=
    [OpFire; OpTakeDamage 1; OpResupply;
     OpBaseResupply (Base.init 200 200 TEAM_1 9); OpTakeDamage 4;
     OpBaseResupply (Base.init 200 200 TEAM_1 9); OpResupply] in
  let tk' :=
    (@apply_ops scenario_runtime (Tank.init 100 100 TEAM_1 3, 10) ops).1 in
  Resources.armor (Tank.resources tk') <= 8 /\
  Resources.shells (Tank.resources tk') <= 40 /\
  Resources.mines (Tank.resources tk') <= 40.
Proof.
  apply (@tank_resources_never_exceed_maxima scenario_runtime
           [OpFire; OpTakeDamage 1; OpResupply;
            OpBaseResupply (Base.init 200 200 TEAM_1 9); OpTakeDamage 4;
            OpBaseResupply (Base.init 200 200 TEAM_1 9); OpResupply]
           (Tank.init 100 100 TEAM_1 3) 10).
  - vm_compute. discriminate.
  - vm_compute. discriminate.
  - vm_compute. discriminate.
  - repeat constructor; vm_compute; discriminate.
Defined.

(** *** Movement on deep water *)

(** C10: a tank whose current tile is DEEP_WATER gets the terrain speed
    0.0 from [_get_terrain_speed] with or without a boat (with a boat the
    lookup falls through to deep water's multiplier, which is 0.0), so
    [move_forward] and [move_backward] return before a candidate position
    is computed and leave the tank as it was.  What the boat changes is
    [_can_move_to]: for a destination inside the pixel bounds whose tile
    is DEEP_WATER it answers [has_boat]. *)
Theorem deep_water_blocks_movement `{PyRuntime}
    (tk : Tank.t) (m : GameMap.t) (tx ty : Z) :
  tile_position (Tank.x tk) (Tank.y tk) = Some (tx, ty) ->
  GameMap.get_tile m tx ty = Some DEEP_WATER ->
  Tank._get_terrain_speed tk m = Some 0.0%float /\
  Tank.move_forward tk m = Some tk /\
  Tank.move_backward tk m = Some tk /\
  (forall x' y' tx' ty',
     PrimFloat.ltb x' (float_of_Z (Tank.size tk)) = false ->
     PrimFloat.ltb (float_of_Z (GameMap.pixel_width m - Tank.size tk)) x'
       = false ->
     PrimFloat.ltb y' (float_of_Z (Tank.size tk)) = false ->
     PrimFloat.ltb (float_of_Z (GameMap.pixel_height m - Tank.size tk)) y'
       = false ->
     tile_position x' y' = Some (tx', ty') ->
     GameMap.get_tile m tx' ty' = Some DEEP_WATER ->
     Tank._can_move_to tk x' y' m = Some (Tank.has_boat tk)).
Proof.
  intros Hpos Htile.
  assert (Hspeed : Tank._get_terrain_speed tk m = Some 0.0%float).
  { unfold Tank._get_terrain_speed. rewrite Hpos. cbn. rewrite Htile. cbn.
    by destruct (Tank.has_boat tk). }
  split_and!.
  - exact Hspeed.
  - unfold Tank.move_forward. by rewrite Hspeed.
  - unfold Tank.move_backward. by rewrite Hspeed.
  - intros x' y' tx' ty' Hx1 Hx2 Hy1 Hy2 Hpos' Htile'.
    unfold Tank._can_move_to. rewrite Hx1, Hx2, Hy1, Hy2. cbn.
    rewrite Hpos'. cbn. rewrite Htile'. cbn.
    by destruct (Tank.has_boat tk).
Qed.

Lemma deep_water_blocks_movement_witness :
  Tank._get_terrain_speed boat_tank lake_map = Some 0.0%float /\
  @Tank.move_forward scenario_runtime boat_tank lake_map = Some boat_tank /\
  @Tank.move_backward scenario_runtime boat_tank lake_map = Some boat_tank /\
  Tank._can_move_to boat_tank 24 30 lake_map = Some true.
Proof.
  destruct (@deep_water_blocks_movement scenario_runtime
              boat_tank lake_map 1 1) as (Hs & Hf & Hb & Hc).
  - vm_compute. reflexivity.
  - vm_compute. reflexivity.
  - split_and!; [exact Hs | exact Hf | exact Hb |].
    apply (Hc 24%float 30%float 1 1); vm_compute; reflexivity.
Defined.

(** ** Tank and base contact *)

(** [resupply_tank] leaves the team of the base alone. *)
Lemma resupply_tank_base_team (b : Base.t) (tk : Tank.t) :
  Base.team (Base.resupply_tank b tk).1.1 = Base.team b.
Proof.
  unfold Base.resupply_tank. destruct (negb _); [done|].
  destruct ((Resources.armor _ <? _) && _); cbn;
    destruct ((Resources.shells _ <? _) && _); cbn;
    destruct ((Resources.mines _ <? _) && _); cbn; done.
Qed.

(** C3: what [_process_collisions] does for a live tank and a base that
    overlap (a pair that does not overlap, and a dead tank, are passed
    over): the two objects are replaced by the outcome of the contact,
    which is as follows.  A base of the tank's own team resupplies it:
    armor, shells and mines each move from the base's stock to the tank
    by the amount [max(0, min(cap, stock, maximum - current))] with the
    per-tick caps 1, 5 and 2, and nothing else changes.  A NEUTRAL base
    ends with the tank's team; unless the tank is itself NEUTRAL (its own
    team, the case above) this is [capture], which leaves the stocks and
    the tank alone.  A base of another, non-NEUTRAL team is left as it is,
    and so is the tank.  In particular a team-1 base with armor stock 8
    and a team-1 tank with armor 5, shells and mines at 40, end with tank
    armor 6 and base armor stock 7.  That every contact of the pass is
    resolved so: for a live tank the body of the fourth loop is the inner
    loop over all the entities, each step of which is the step above, and
    the pass ends with the fourth loop run over all the entities of the
    state the first three loops leave. *)
Theorem tank_base_contact_spec `{PyRuntime} (tk : Tank.t) (b : Base.t) :
  let r := Tank.resources tk in
  let ta := Z.max 0 (Z.min 1 (Z.min (Base.armor b)
                      (Config.TANK_MAX_ARMOR - Resources.armor r))) in
  let ts := Z.max 0 (Z.min 5 (Z.min (Base.shells b)
                      (Config.TANK_MAX_SHELLS - Resources.shells r))) in
  let tm := Z.max 0 (Z.min 2 (Z.min (Base.mines b)
                      (Config.TANK_MAX_MINES - Resources.mines r))) in
  (forall gs rt rb,
     GameState.objs gs !! rt = Some (ETank tk) ->
     GameState.objs gs !! rb = Some (EBase b) ->
     PrimFloat.ltb
       (distance (Tank.x tk) (Tank.y tk) (Base.x b) (Base.y b))
       (float_of_Z (Tank.size tk + Base.size b)) = true ->
     GameState.tank_base_pair rt gs rb =
       Some (GameState.store rb
               (EBase (GameState.tank_base_contact tk b).2)
               (GameState.store rt
                  (ETank (GameState.tank_base_contact tk b).1) gs),
             [Contact TankBase rt rb])) /\
  (forall gs rt rb,
     GameState.objs gs !! rt = Some (ETank tk) ->
     GameState.objs gs !! rb = Some (EBase b) ->
     PrimFloat.ltb
       (distance (Tank.x tk) (Tank.y tk) (Base.x b) (Base.y b))
       (float_of_Z (Tank.size tk + Base.size b)) = false ->
     GameState.tank_base_pair rt gs rb = Some (gs, [])) /\
  (forall gs rt,
     GameState.objs gs !! rt = Some (ETank tk) -> Tank.alive tk = false ->
     GameState.tank_base_body gs rt = Some (gs, [])) /\
  (Base.team b = Tank.team tk ->
     GameState.tank_base_contact tk b =
       (Tank.set_resources tk
          (Resources.mk (Resources.armor r + ta) (Resources.shells r + ts)
                        (Resources.mines r + tm) (Resources.wood r)),
        Base.set_stock b (Base.shells b - ts) (Base.mines b - tm)
                         (Base.armor b - ta))) /\
  (Base.team b = NEUTRAL ->
     Base.team (GameState.tank_base_contact tk b).2 = Tank.team tk /\
     (Tank.team tk <> NEUTRAL ->
        GameState.tank_base_contact tk b
          = (tk, Base.capture b (Tank.team tk)) /\
        Base.armor (Base.capture b (Tank.team tk)) = Base.armor b /\
        Base.shells (Base.capture b (Tank.team tk)) = Base.shells b /\
        Base.mines (Base.capture b (Tank.team tk)) = Base.mines b)) /\
  (Base.team b <> Tank.team tk -> Base.team b <> NEUTRAL ->
     GameState.tank_base_contact tk b = (tk, b)) /\
  (Base.team b = TEAM_1 -> Tank.team tk = TEAM_1 ->
   Base.armor b = 8 -> Resources.armor r = 5 ->
   Resources.shells r = 40 -> Resources.mines r = 40 ->
     let '(tk', b') := GameState.tank_base_contact tk b in
     Resources.armor (Tank.resources tk') = 6 /\ Base.armor b' = 7 /\
     Resources.shells (Tank.resources tk') = 40 /\
     Resources.mines (Tank.resources tk') = 40 /\
     Base.shells b' = Base.shells b /\ Base.mines b' = Base.mines b) /\
  (forall gs rt,
     GameState.objs gs !! rt = Some (ETank tk) -> Tank.alive tk = true ->
     GameState.tank_base_body gs rt =
       GameState.for_each (GameState.tank_base_pair rt)
                          (GameState.entities gs) gs) /\
  (forall gs gs' evs,
     GameState._process_collisions gs = Some (gs', evs) ->
     exists g3 evs123 evs4,
       GameState.for_each GameState.tank_base_body
                          (GameState.entities g3) g3 = Some (gs', evs4) /\
       evs = evs123 ++ evs4).
Proof.
  intros r ta ts tm.
  assert (Hown : Base.team b = Tank.team tk ->
     GameState.tank_base_contact tk b =
       (Tank.set_resources tk
          (Resources.mk (Resources.armor r + ta) (Resources.shells r + ts)
                        (Resources.mines r + tm) (Resources.wood r)),
        Base.set_stock b (Base.shells b - ts) (Base.mines b - tm)
                         (Base.armor b - ta))).
  { subst r ta ts tm. intros Hteam.
    unfold GameState.tank_base_contact, Base.resupply_tank.
    rewrite bool_decide_true by done.
    rewrite (bool_decide_true (Tank.team tk = Base.team b)) by done.
    destruct tk as [? ? ? ? ? ? [a s m w] ? ? ? ? ? ? ? ? ? ?].
    destruct b as [? ? ? ? ? ? ? bs bm ba ?]. cbn.
    unfold Config.TANK_MAX_ARMOR, Config.TANK_MAX_SHELLS,
      Config.TANK_MAX_MINES, Tank.set_resources, Base.set_stock. cbn.
    destruct (Z.ltb_spec a 8), (Z.ltb_spec 0 ba); cbn;
      destruct (Z.ltb_spec s 40), (Z.ltb_spec 0 bs); cbn;
      destruct (Z.ltb_spec m 40), (Z.ltb_spec 0 bm); cbn;
      repeat f_equal; lia. }
  split_and!.
  - intros gs rt rb Hrt Hrb Hnear. unfold GameState.tank_base_pair.
    rewrite Hrt, Hrb, Hnear.
    by destruct (GameState.tank_base_contact tk b).
  - intros gs rt rb Hrt Hrb Hfar. unfold GameState.tank_base_pair.
    by rewrite Hrt, Hrb, Hfar.
  - intros gs rt Hrt Hdead. unfold GameState.tank_base_body.
    by rewrite Hrt, Hdead.
  - exact Hown.
  - intros Hb. split.
    + unfold GameState.tank_base_contact. case_bool_decide as Hsame.
      * pose proof (resupply_tank_base_team b tk) as Hteam.
        destruct (Base.resupply_tank b tk) as [[b' tk'] flag].
        cbn in *. congruence.
      * by rewrite bool_decide_true.
    + intros Htk. split_and!; try reflexivity.
      unfold GameState.tank_base_contact.
      rewrite bool_decide_false by congruence.
      by rewrite bool_decide_true.
  - intros Hne Hnn. unfold GameState.tank_base_contact.
    by rewrite !bool_decide_false.
  - intros Hb Htk Hba Ha Hs Hm. rewrite Hown by congruence.
    subst ta ts tm. cbn. rewrite Hba, Ha, Hs, Hm.
    unfold Config.TANK_MAX_ARMOR, Config.TANK_MAX_SHELLS,
      Config.TANK_MAX_MINES.
    split_and!; lia.
  - intros gs rt Hrt Hlive. unfold GameState.tank_base_body.
    by rewrite Hrt, Hlive.
  - intros gs gs' evs. unfold GameState._process_collisions.
    destruct (GameState.for_each GameState.shell_tank_body _ gs)
      as [[g1 evs1]|]; [|done]. cbn [mbind option_bind].
    destruct (GameState.for_each GameState.shell_pillbox_body _ g1)
      as [[g2 evs2]|]; [|done]. cbn [mbind option_bind].
    destruct (GameState.for_each GameState.tank_mine_body _ g2)
      as [[g3 evs3]|]; [|done]. cbn [mbind option_bind].
    destruct (GameState.for_each GameState.tank_base_body _ g3)
      as [[g4 evs4]|] eqn:H4; [|done]. cbn [mbind option_bind].
    intros [= <- <-]. exists g3, (evs1 ++ evs2 ++ evs3), evs4.
    split; [exact H4|]. by rewrite <- !app_assoc.
Qed.

Lemma tank_base_contact_spec_witness :
  let tk := Tank.set_resources (Tank.init 200 200 TEAM_1 0)
                               (Resources.mk 5 40 40 0) in
  let own := Base.init 200 200 TEAM_1 1 in
  let free := Base.init 200 200 NEUTRAL 2 in
  let foe := Base.init 200 200 TEAM_2 3 in
  (let '(tk', b') := GameState.tank_base_contact tk own in
   Resources.armor (Tank.resources tk') = 6 /\ Base.armor b' = 7 /\
   Resources.shells (Tank.resources tk') = 40 /\
   Resources.mines (Tank.resources tk') = 40 /\
   Base.shells b' = Base.shells own /\ Base.mines b' = Base.mines own) /\
  Base.team (GameState.tank_base_contact tk free).2 = Tank.team tk /\
  GameState.tank_base_contact tk foe = (tk, foe) /\
  @GameState.tank_base_body scenario_runtime depot 0 =
    @GameState.for_each (@GameState.tank_base_pair scenario_runtime 0)
                        (GameState.entities depot) depot.
Proof.
  split_and!.
  - apply (@tank_base_contact_spec scenario_runtime
             (Tank.set_resources (Tank.init 200 200 TEAM_1 0)
                                 (Resources.mk 5 40 40 0))
             (Base.init 200 200 TEAM_1 1)); reflexivity.
  - apply (@tank_base_contact_spec scenario_runtime
             (Tank.set_resources (Tank.init 200 200 TEAM_1 0)
                                 (Resources.mk 5 40 40 0))
             (Base.init 200 200 NEUTRAL 2)); reflexivity.
  - apply (@tank_base_contact_spec scenario_runtime
             (Tank.set_resources (Tank.init 200 200 TEAM_1 0)
                                 (Resources.mk 5 40 40 0))
             (Base.init 200 200 TEAM_2 3)); discriminate.
  - apply (@tank_base_contact_spec scenario_runtime
             (Tank.set_resources (Tank.init 200 200 TEAM_1 0)
                                 (Resources.mk 5 40 40 0))
             (Base.init 200 200 TEAM_1 1)); reflexivity.
Defined.

(** ** The collision pass *)

Lemma obj_stable_refl (e : Entity) : obj_stable e e.
Proof. destruct e; cbn; auto. Qed.

Lemma obj_stable_trans (e0 e1 e2 : Entity) :
  obj_stable e0 e1 -> obj_stable e1 e2 -> obj_stable e0 e2.
Proof.
  destruct e0, e1, e2; cbn; try done; intros H01 H12.
  - destruct H01 as (? & ? & ?), H12 as (? & ? & ?).
    split_and!; [congruence | congruence | auto].
  - destruct H01 as (? & ? & ?), H12 as (? & ? & ?).
    split_and!; [congruence | congruence | auto].
  - destruct H01, H12. split; congruence.
  - destruct H01 as [Ha01 H01], H12 as [Ha12 H12].
    split; [congruence|]. intros Hact.
    destruct (H12 Hact) as [Hact1 Ht12].
    destruct (H01 Hact1) as [Hact0 Ht01]. split; congruence.
Qed.

Lemma stable_refl (o : list Entity) : stable o o.
Proof. intros r e He. exists e. split; [done | apply obj_stable_refl]. Qed.

Lemma stable_trans (o0 o1 o2 : list Entity) :
  stable o0 o1 -> stable o1 o2 -> stable o0 o2.
Proof.
  intros H01 H12 r e2 He2.
  destruct (H12 r e2 He2) as (e1 & He1 & Hs12).
  destruct (H01 r e1 He1) as (e0 & He0 & Hs01).
  exists e0. split; [done | by eapply obj_stable_trans].
Qed.

Lemma stable_insert (o0 o : list Entity) (r : nat) (e e' : Entity) :
  stable o0 o -> o !! r = Some e -> obj_stable e e' ->
  stable o0 (<[r := e']> o).
Proof.
  intros Hst He Hee' i ei Hi.
  destruct (decide (r = i)) as [<- | Hne].
  - rewrite list_lookup_insert_eq in Hi by (by eapply lookup_lt_Some).
    injection Hi as <-. destruct (Hst r e He) as (e0 & He0 & Hs0).
    exists e0. split; [done | by eapply obj_stable_trans].
  - rewrite list_lookup_insert_ne in Hi by done. by apply Hst.
Qed.

Lemma shell_hits_app (r : nat) (evs1 evs2 : list Event) :
  shell_hits r (evs1 ++ evs2) = (shell_hits r evs1 + shell_hits r evs2)%nat.
Proof. unfold shell_hits. by rewrite filter_app, length_app. Qed.

Lemma legitimate_stable (o0 o : list Entity) (ev : Event) :
  stable o0 o -> legitimate o ev -> legitimate o0 ev.
Proof.
  intros Hst. destruct ev as [[| | |] r v]; cbn; try done.
  - intros (sh & tk & Hr & Hv & Has & Hat & Hid & Hteam).
    destruct (Hst r _ Hr) as ([| sh0 | | |] & Hr0 & Hs0); try done.
    destruct (Hst v _ Hv) as ([tk0 | | | |] & Hv0 & Ht0); try done.
    cbn in Hs0, Ht0. destruct Hs0 as (Ho & Hts & Hals).
    destruct Ht0 as (Hi & Htt & Halt).
    exists sh0, tk0. split_and!; try done; auto; congruence.
  - intros (sh & pb & Hr & Hv & Has & Hap & Hact & Hteam).
    destruct (Hst r _ Hr) as ([| sh0 | | |] & Hr0 & Hs0); try done.
    destruct (Hst v _ Hv) as ([| | | pb0 |] & Hv0 & Hp0); try done.
    cbn in Hs0, Hp0. destruct Hs0 as (Ho & Hts & Hals).
    destruct Hp0 as (Hal & Hp0). destruct (Hp0 Hact) as [Hact0 Htp].
    exists sh0, pb0. split_and!; try done; auto; congruence.
Qed.

Lemma shell_alive_stable (o0 o : list Entity) (r : nat) :
  stable o0 o -> shell_alive_in o r -> shell_alive_in o0 r.
Proof.
  intros Hst (sh & Hr & Ha).
  destruct (Hst r _ Hr) as ([| sh0 | | |] & Hr0 & Hs0); try done.
  exists sh0. split; [done|]. cbn in Hs0. by apply Hs0.
Qed.

Lemma shell_dead_stable (o0 o : list Entity) (r : nat) :
  stable o0 o -> shell_dead_in o0 r -> shell_dead_in o r.
Proof.
  intros Hst Hdead sh Hr.
  destruct (Hst r _ Hr) as ([| sh0 | | |] & Hr0 & Hs0); try done.
  cbn in Hs0. destruct Hs0 as (_ & _ & Hal).
  destruct (Shell.alive sh) eqn:Ha; [|done].
  rewrite (Hdead sh0 Hr0) in Hal. symmetry. by apply Hal.
Qed.

Lemma Stretch_refl (gs : GameState.t) : Stretch gs [] gs.
Proof.
  split; try done.
  - apply stable_refl.
  - intros r. cbn. lia.
Qed.

Lemma Stretch_trans (gs gs1 gs2 : GameState.t) (evs1 evs2 : list Event) :
  Stretch gs evs1 gs1 -> Stretch gs1 evs2 gs2 ->
  Stretch gs (evs1 ++ evs2) gs2.
Proof.
  intros [He1 Hp1 Hn1 Hm1 Hs1 Hl1 Ho1 Hd1] [He2 Hp2 Hn2 Hm2 Hs2 Hl2 Ho2 Hd2].
  assert (Hcases : forall r,
    ((shell_hits r evs1 = 0 /\ shell_hits r evs2 = 0) \/
     (shell_hits r evs1 = 1 /\ shell_hits r evs2 = 0) \/
     (shell_hits r evs1 = 0 /\ shell_hits r evs2 = 1))%nat).
  { intros r. pose proof (Ho1 r) as H1. pose proof (Ho2 r) as H2.
    destruct (decide (shell_hits r evs1 = 1%nat)) as [E1|N1];
      destruct (decide (shell_hits r evs2 = 1%nat)) as [E2|N2];
      [exfalso | lia | lia | lia].
    destruct (Hd1 r E1) as [_ Hdead]. destruct (Hd2 r E2) as [Halive _].
    destruct Halive as (sh & Hr & Ha). rewrite (Hdead sh Hr) in Ha. done. }
  split.
  - congruence.
  - congruence.
  - congruence.
  - auto.
  - by eapply stable_trans.
  - apply Forall_app. split; [done|].
    eapply Forall_impl; [exact Hl2|]. intros ev. by apply legitimate_stable.
  - intros r. rewrite shell_hits_app. specialize (Hcases r). lia.
  - intros r. rewrite shell_hits_app. intros Hone.
    destruct (Hcases r) as [[? ?] | [[E1 E2] | [E1 E2]]]; [lia | |].
    + destruct (Hd1 r E1) as [Halive Hdead]. split; [done|].
      by eapply shell_dead_stable.
    + destruct (Hd2 r E2) as [Halive Hdead]. split; [|done].
      by eapply shell_alive_stable.
Qed.

Lemma for_each_Stretch
    (body : GameState.t -> nat -> option (GameState.t * list Event)) :
  (forall gs r gs' evs, body gs r = Some (gs', evs) -> Stretch gs evs gs') ->
  forall refs gs gs' evs,
    GameState.for_each body refs gs = Some (gs', evs) -> Stretch gs evs gs'.
Proof.
  intros Hbody refs.
  induction refs as [|r rest IH]; intros gs gs' evs Hrun; cbn in Hrun.
  - injection Hrun as <- <-. apply Stretch_refl.
  - destruct (body gs r) as [[gs1 evs1]|] eqn:Hb; [|done]. cbn in Hrun.
    destruct (GameState.for_each body rest gs1) as [[gs2 evs2]|] eqn:Hr;
      [|done].
    cbn in Hrun. injection Hrun as <- <-.
    eapply Stretch_trans; [by eapply Hbody | by eapply IH].
Qed.


(** A stretch that records no shell hit. *)
Lemma quiet_Stretch (gs gs' : GameState.t) (evs : list Event) :
  GameState.entities gs' = GameState.entities gs ->
  GameState.pending_entities gs' = GameState.pending_entities gs ->
  length (GameState.objs gs') = length (GameState.objs gs) ->
  (GameMap.wf (GameState.game_map gs) ->
   GameMap.wf (GameState.game_map gs')) ->
  stable (GameState.objs gs) (GameState.objs gs') ->
  Forall (fun ev => ev_category ev = TankMine \/ ev_category ev = TankBase)
         evs ->
  Stretch gs evs gs'.
Proof.
  intros He Hp Hn Hm Hs Hq.
  assert (Hzero : forall r, shell_hits r evs = 0%nat).
  { intros r. unfold shell_hits. induction Hq as [|ev evs' Hev Hevs IH].
    - done.
    - rewrite filter_cons_False; [done|].
      intros [_ [Hc | Hc]]; destruct Hev; congruence. }
  split; try done.
  - eapply Forall_impl; [exact Hq|]. intros [c r v] [Hc | Hc]; cbn in Hc;
      by subst c.
  - intros r. rewrite Hzero. lia.
  - intros r. rewrite Hzero. done.
Qed.

(** The stretch made of one shell hit: the victim [o] is updated, then
    the shell [r] is destroyed. *)
Lemma hit_Stretch (gs : GameState.t) (c : Category) (r o : nat)
    (sh : Shell.t) (e e' : Entity) :
  c = ShellTank \/ c = ShellPillbox ->
  GameState.objs gs !! r = Some (EShell sh) -> Shell.alive sh = true ->
  GameState.objs gs !! o = Some e -> r <> o -> obj_stable e e' ->
  legitimate (GameState.objs gs) (Contact c r o) ->
  Stretch gs [Contact c r o]
    (GameState.store r (EShell (Shell.destroy sh)) (GameState.store o e' gs)).
Proof.
  intros Hc Hr Halive Ho Hne Hee' Hlegit.
  assert (Hr' : <[o := e']> (GameState.objs gs) !! r = Some (EShell sh))
    by (by rewrite list_lookup_insert_ne).
  split; try done.
  - cbn. by rewrite !length_insert.
  - cbn. eapply stable_insert; [| exact Hr' |].
    + eapply stable_insert; [apply stable_refl | exact Ho | exact Hee'].
    + cbn. split_and!; done.
  - by constructor.
  - intros r'. unfold shell_hits.
    etrans; [apply length_filter|]. done.
  - intros r'. unfold shell_hits. rewrite filter_cons.
    destruct (decide (damages r' (Contact c r o))) as [[Hd _]|]; [|done].
    cbn in Hd. subst r'. intros _. split.
    + by exists sh.
    + intros sh'. cbn.
      rewrite list_lookup_insert_eq by (by eapply lookup_lt_Some).
      by intros [= <-].
Qed.

Section CollisionPass.
Context `{PyRuntime}.

Lemma shell_tank_inner_cases (gs : GameState.t) (r : nat) (sh : Shell.t)
    (others : list nat) (gs' : GameState.t) (evs : list Event) :
  GameState.shell_tank_inner gs r sh others = (gs', evs) ->
  (gs' = gs /\ evs = []) \/
  exists o tk,
    GameState.objs gs !! o = Some (ETank tk) /\ Tank.alive tk = true /\
    Tank.id tk <> Shell.owner_id sh /\ Tank.team tk <> Shell.team sh /\
    gs' = GameState.store r (EShell (Shell.destroy sh))
            (GameState.store o
               (ETank (Tank.take_damage tk (Shell.damage sh))) gs) /\
    evs = [Contact ShellTank r o].
Proof.
  induction others as [|o rest IH]; cbn.
  - intros [= <- <-]. by left.
  - destruct (GameState.objs gs !! o) as [[tk | | | |]|] eqn:Ho; try exact IH.
    destruct (Tank.alive tk) eqn:Ha; [|exact IH].
    destruct (Z.eqb_spec (Tank.id tk) (Shell.owner_id sh)); [exact IH|].
    case_bool_decide; [exact IH|].
    destruct (PrimFloat.ltb _ _); [|exact IH].
    intros [= <- <-]. right. exists o, tk. by split_and!.
Qed.

Lemma shell_pillbox_inner_cases (gs : GameState.t) (r : nat) (sh : Shell.t)
    (others : list nat) (gs' : GameState.t) (evs : list Event) :
  GameState.shell_pillbox_inner gs r sh others = (gs', evs) ->
  (gs' = gs /\ evs = []) \/
  exists o pb,
    GameState.objs gs !! o = Some (EPillbox pb) /\
    Pillbox.alive pb = true /\ Pillbox.active pb = true /\
    Pillbox.team pb <> Shell.team sh /\
    gs' = GameState.store r (EShell (Shell.destroy sh))
            (GameState.store o
               (EPillbox (Pillbox.take_damage pb (Shell.damage sh))) gs) /\
    evs = [Contact ShellPillbox r o].
Proof.
  induction others as [|o rest IH]; cbn.
  - intros [= <- <-]. by left.
  - destruct (GameState.objs gs !! o) as [[| | | pb |]|] eqn:Ho; try exact IH.
    destruct (Pillbox.alive pb) eqn:Ha; [|exact IH].
    destruct (Pillbox.active pb) eqn:Hact; [|exact IH]. cbn.
    case_bool_decide; [exact IH|].
    destruct (PrimFloat.ltb _ _); [|exact IH].
    intros [= <- <-]. right. exists o, pb. by split_and!.
Qed.

Lemma tank_take_damage_stable (tk : Tank.t) (amount : Z) :
  obj_stable (ETank tk) (ETank (Tank.take_damage tk amount)).
Proof.
  cbn. unfold Tank.take_damage. destruct (_ <=? 0); cbn; split_and!; done.
Qed.

Lemma pillbox_take_damage_stable (pb : Pillbox.t) (amount : Z) :
  obj_stable (EPillbox pb) (EPillbox (Pillbox.take_damage pb amount)).
Proof.
  cbn. unfold Pillbox.take_damage. destruct (_ <=? 0); cbn; split_and!; done.
Qed.

Lemma shell_tank_body_Stretch (gs : GameState.t) (r : nat)
    (gs' : GameState.t) (evs : list Event) :
  GameState.shell_tank_body gs r = Some (gs', evs) -> Stretch gs evs gs'.
Proof.
  unfold GameState.shell_tank_body.
  destruct (GameState.objs gs !! r) as [[| sh | | |]|] eqn:Hr;
    try (intros [= <- <-]; apply Stretch_refl).
  destruct (Shell.alive sh) eqn:Ha; [|intros [= <- <-]; apply Stretch_refl].
  intros [= Hinner].
  destruct (shell_tank_inner_cases _ _ _ _ _ _ Hinner)
    as [[-> ->] | (o & tk & Ho & Hat & Hid & Hteam & -> & ->)].
  - apply Stretch_refl.
  - eapply hit_Stretch; try done.
    + by left.
    + intros ->. congruence.
    + apply tank_take_damage_stable.
    + cbn. exists sh, tk. by split_and!.
Qed.

Lemma shell_pillbox_body_Stretch (gs : GameState.t) (r : nat)
    (gs' : GameState.t) (evs : list Event) :
  GameState.shell_pillbox_body gs r = Some (gs', evs) -> Stretch gs evs gs'.
Proof.
  unfold GameState.shell_pillbox_body.
  destruct (GameState.objs gs !! r) as [[| sh | | |]|] eqn:Hr;
    try (intros [= <- <-]; apply Stretch_refl).
  destruct (Shell.alive sh) eqn:Ha; [|intros [= <- <-]; apply Stretch_refl].
  intros [= Hinner].
  destruct (shell_pillbox_inner_cases _ _ _ _ _ _ Hinner)
    as [[-> ->] | (o & pb & Ho & Hal & Hact & Hteam & -> & ->)].
  - apply Stretch_refl.
  - eapply hit_Stretch; try done.
    + by right.
    + intros ->. congruence.
    + apply pillbox_take_damage_stable.
    + cbn. exists sh, pb. by split_and!.
Qed.

Lemma tank_mine_inner_cases (gs : GameState.t) (r : nat) (mn : Mine.t)
    (others : list nat) (gs' : GameState.t) (evs : list Event) :
  GameState.tank_mine_inner gs r mn others = Some (gs', evs) ->
  (gs' = gs /\ evs = []) \/
  exists o tk tx ty m',
    GameState.objs gs !! o = Some (ETank tk) /\
    GameMap.set_tile (GameState.game_map gs) tx ty CRATER = Some m' /\
    gs' = GameState.store r (EMine (Mine.destroy mn))
            (GameState.set_game_map
               (GameState.store o
                  (ETank (Tank.take_damage tk (Mine.damage mn))) gs) m') /\
    evs = [Contact TankMine r o].
Proof.
  induction others as [|o rest IH]; cbn.
  - intros [= <- <-]. by left.
  - destruct (GameState.objs gs !! o) as [[tk | | | |]|] eqn:Ho; try exact IH.
    destruct (Tank.alive tk) eqn:Ha; [|exact IH].
    case_bool_decide; [exact IH|].
    destruct (PrimFloat.ltb _ _); [|exact IH].
    unfold Mine.detonate.
    destruct (tile_position (Mine.x mn) (Mine.y mn)) as [[tx ty]|]; [|done].
    cbn. destruct (GameMap.set_tile _ tx ty CRATER) as [m'|] eqn:Hset;
      [|done].
    cbn. intros [= <- <-]. right. by exists o, tk, tx, ty, m'.
Qed.

Lemma tank_mine_body_Stretch (gs : GameState.t) (r : nat)
    (gs' : GameState.t) (evs : list Event) :
  GameState.tank_mine_body gs r = Some (gs', evs) -> Stretch gs evs gs'.
Proof.
  unfold GameState.tank_mine_body.
  destruct (GameState.objs gs !! r) as [[| | mn | |]|] eqn:Hr;
    try (intros [= <- <-]; apply Stretch_refl).
  destruct (Mine.alive mn) eqn:Ha; [|intros [= <- <-]; apply Stretch_refl].
  intros Hinner.
  destruct (tank_mine_inner_cases _ _ _ _ _ _ Hinner)
    as [[-> ->] | (o & tk & tx & ty & m' & Ho & Hset & -> & ->)].
  - apply Stretch_refl.
  - apply quiet_Stretch; try done.
    + cbn. by rewrite !length_insert.
    + cbn. intros Hwf. by eapply set_tile_wf.
    + cbn. eapply stable_insert.
      * eapply stable_insert; [apply stable_refl | exact Ho |].
        apply tank_take_damage_stable.
      * rewrite list_lookup_insert_ne; [exact Hr|]. intros ->. congruence.
      * by cbn.
    + constructor; [by left | constructor].
Qed.

Lemma resupply_tank_identity (b : Base.t) (tk : Tank.t) :
  Tank.id (Base.resupply_tank b tk).1.2 = Tank.id tk /\
  Tank.team (Base.resupply_tank b tk).1.2 = Tank.team tk /\
  Tank.alive (Base.resupply_tank b tk).1.2 = Tank.alive tk.
Proof.
  unfold Base.resupply_tank. destruct (negb _); [done|].
  destruct ((Resources.armor _ <? _) && _); cbn;
    destruct ((Resources.shells _ <? _) && _); cbn;
    destruct ((Resources.mines _ <? _) && _); cbn; done.
Qed.

Lemma tank_base_contact_stable (tk : Tank.t) (b : Base.t) :
  obj_stable (ETank tk) (ETank (GameState.tank_base_contact tk b).1) /\
  obj_stable (EBase b) (EBase (GameState.tank_base_contact tk b).2).
Proof.
  unfold GameState.tank_base_contact.
  case_bool_decide; [|case_bool_decide; cbn; by split_and!].
  pose proof (resupply_tank_identity b tk) as (Hi & Ht & Ha).
  destruct (Base.resupply_tank b tk) as [[b' tk'] flag]. cbn in *.
  split_and!; try done. congruence.
Qed.

Lemma tank_base_pair_Stretch (r : nat) (gs : GameState.t) (o : nat)
    (gs' : GameState.t) (evs : list Event) :
  GameState.tank_base_pair r gs o = Some (gs', evs) -> Stretch gs evs gs'.
Proof.
  unfold GameState.tank_base_pair.
  destruct (GameState.objs gs !! r) as [[tk | | | |]|] eqn:Hr;
    try (intros [= <- <-]; apply Stretch_refl).
  destruct (GameState.objs gs !! o) as [[| | | | b]|] eqn:Ho;
    try (intros [= <- <-]; apply Stretch_refl).
  destruct (PrimFloat.ltb _ _); [|intros [= <- <-]; apply Stretch_refl].
  pose proof (tank_base_contact_stable tk b) as [Htk Hb].
  destruct (GameState.tank_base_contact tk b) as [tk' b']. cbn in Htk, Hb.
  intros [= <- <-]. apply quiet_Stretch; try done.
  - cbn. by rewrite !length_insert.
  - cbn. eapply stable_insert.
    + eapply stable_insert; [apply stable_refl | exact Hr | exact Htk].
    + rewrite list_lookup_insert_ne; [exact Ho|]. intros ->. congruence.
    + done.
  - constructor; [by right | constructor].
Qed.

Lemma tank_base_body_Stretch (gs : GameState.t) (r : nat)
    (gs' : GameState.t) (evs : list Event) :
  GameState.tank_base_body gs r = Some (gs', evs) -> Stretch gs evs gs'.
Proof.
  unfold GameState.tank_base_body.
  destruct (GameState.objs gs !! r) as [[tk | | | |]|] eqn:Hr;
    try (intros [= <- <-]; apply Stretch_refl).
  destruct (Tank.alive tk); [|intros [= <- <-]; apply Stretch_refl].
  apply for_each_Stretch. apply tank_base_pair_Stretch.
Qed.





(** [_process_collisions] is the four loops one after the other. *)
Lemma process_collisions_phases (gs gs' : GameState.t) (evs : list Event) :
  GameState._process_collisions gs = Some (gs', evs) ->
  exists gs1 gs2 gs3 evs1 evs2 evs3 evs4,
    GameState.for_each GameState.shell_tank_body (GameState.entities gs) gs
      = Some (gs1, evs1) /\
    GameState.for_each GameState.shell_pillbox_body
      (GameState.entities gs1) gs1 = Some (gs2, evs2) /\
    GameState.for_each GameState.tank_mine_body
      (GameState.entities gs2) gs2 = Some (gs3, evs3) /\
    GameState.for_each GameState.tank_base_body
      (GameState.entities gs3) gs3 = Some (gs', evs4) /\
    evs = evs1 ++ evs2 ++ evs3 ++ evs4.
Proof.
  unfold GameState._process_collisions.
  destruct (GameState.for_each GameState.shell_tank_body _ gs)
    as [[gs1 evs1]|] eqn:H1; [|done]. cbn.
  destruct (GameState.for_each GameState.shell_pillbox_body _ gs1)
    as [[gs2 evs2]|] eqn:H2; [|done]. cbn.
  destruct (GameState.for_each GameState.tank_mine_body _ gs2)
    as [[gs3 evs3]|] eqn:H3; [|done]. cbn.
  destruct (GameState.for_each GameState.tank_base_body _ gs3)
    as [[gs4 evs4]|] eqn:H4; [|done]. cbn.
  intros [= <- <-]. by exists gs1, gs2, gs3, evs1, evs2, evs3, evs4.
Qed.

Lemma process_collisions_Stretch (gs gs' : GameState.t) (evs : list Event) :
  GameState._process_collisions gs = Some (gs', evs) -> Stretch gs evs gs'.
Proof.
  intros Hrun.
  destruct (process_collisions_phases _ _ _ Hrun)
    as (gs1 & gs2 & gs3 & evs1 & evs2 & evs3 & evs4
        & H1 & H2 & H3 & H4 & ->).
  eapply Stretch_trans;
    [exact (for_each_Stretch _ shell_tank_body_Stretch _ _ _ _ H1)|].
  eapply Stretch_trans;
    [exact (for_each_Stretch _ shell_pillbox_body_Stretch _ _ _ _ H2)|].
  eapply Stretch_trans;
    [exact (for_each_Stretch _ tank_mine_body_Stretch _ _ _ _ H3)|].
  exact (for_each_Stretch _ tank_base_body_Stretch _ _ _ _ H4).
Qed.

(** *** The pass returns *)


Lemma set_tile_total (m : GameMap.t) (x y : Z) (k : TileType) :
  GameMap.wf m -> is_Some (GameMap.set_tile m x y k).
Proof.
  intros Hwf. destruct (GameMap.in_bounds m x y) eqn:Hin.
  - apply in_bounds_true in Hin as [Hx Hy].
    destruct (set_tile_in m x y k Hwf Hx Hy) as (row & _ & ->). done.
  - unfold GameMap.set_tile. by rewrite Hin.
Qed.


Lemma tank_mine_inner_total (gs : GameState.t) (r : nat) (mn : Mine.t)
    (others : list nat) :
  GameMap.wf (GameState.game_map gs) ->
  is_Some (tile_position (Mine.x mn) (Mine.y mn)) ->
  is_Some (GameState.tank_mine_inner gs r mn others).
Proof.
  intros Hwf [[tx ty] Hpos].
  induction others as [|o rest IH]; cbn; [done|].
  destruct (GameState.objs gs !! o) as [[tk | | | |]|]; try exact IH.
  destruct (Tank.alive tk); [|exact IH].
  case_bool_decide; [exact IH|].
  destruct (PrimFloat.ltb _ _); [|exact IH].
  unfold Mine.detonate. rewrite Hpos. cbn.
  destruct (set_tile_total (GameState.game_map gs) tx ty CRATER Hwf)
    as [m' ->].
  done.
Qed.


End CollisionPass.



Example depot_resupply :
  exists gs',
    @GameState._process_collisions scenario_runtime depot
      = Some (gs', [Contact TankBase 0 1]) /\
    GameState.objs gs' =
      [ ETank (Tank.set_resources (Tank.init 200 200 TEAM_1 0)
                                  (Resources.mk 6 40 40 0));
        EBase (Base.set_stock (Base.init 200 200 TEAM_1 1) 20 10 7) ].
Proof. eexists. split; vm_compute; reflexivity. Qed.

(** ** The pending-spawn buffer *)

Lemma Grow_refl (gs : GameState.t) : Grow gs gs.
Proof.
  split; [done | done |]. exists []. split; [by rewrite app_nil_r | done].
Qed.

Lemma Grow_trans (gs gs1 gs2 : GameState.t) :
  Grow gs gs1 -> Grow gs1 gs2 -> Grow gs gs2.
Proof.
  intros [He1 Hl1 (new1 & Hp1 & Hn1)] [He2 Hl2 (new2 & Hp2 & Hn2)].
  split; [congruence | lia |].
  exists (new1 ++ new2). split.
  - by rewrite Hp2, Hp1, app_assoc.
  - apply Forall_app. split.
    + eapply Forall_impl; [exact Hn1|]. cbn. lia.
    + eapply Forall_impl; [exact Hn2|]. cbn. lia.
Qed.

Lemma Grow_store (gs : GameState.t) (r : nat) (e : Entity) :
  Grow gs (GameState.store r e gs).
Proof.
  split; [done | cbn; by rewrite length_insert |].
  exists []. split; [by rewrite app_nil_r | done].
Qed.

Lemma for_each_preorder (R : GameState.t -> GameState.t -> Prop)
    (body : GameState.t -> nat -> option (GameState.t * list Event)) :
  (forall gs, R gs gs) ->
  (forall a b c, R a b -> R b c -> R a c) ->
  (forall gs r gs' evs, body gs r = Some (gs', evs) -> R gs gs') ->
  forall refs gs gs' evs,
    GameState.for_each body refs gs = Some (gs', evs) -> R gs gs'.
Proof.
  intros Hrefl Htrans Hbody refs.
  induction refs as [|r rest IH]; intros gs gs' evs Hrun; cbn in Hrun.
  - injection Hrun as <- <-. apply Hrefl.
  - destruct (body gs r) as [[gs1 evs1]|] eqn:Hb; [|done]. cbn in Hrun.
    destruct (GameState.for_each body rest gs1) as [[gs2 evs2]|] eqn:Hr;
      [|done].
    cbn in Hrun. injection Hrun as <- <-.
    eapply Htrans; [by eapply Hbody | by eapply IH].
Qed.

Section PendingBuffer.
Context `{PyRuntime}.

Lemma Pillbox_update_Grow (gs : GameState.t) (r : nat) (pb : Pillbox.t) :
  Grow gs (GameState.Pillbox_update gs r pb).
Proof.
  unfold GameState.Pillbox_update.
  destruct (negb (Pillbox.active pb)); [apply Grow_refl|].
  set (pb1 := if 0 <? Pillbox.fire_cooldown pb then _ else pb).
  assert (Hdraw : forall g n, Grow g (GameState.set_draws g n)).
  { intros g n. split; [done | done |].
    exists []. split; [by rewrite app_nil_r | done]. }
  destruct (0 <? Pillbox.aggression pb1).
  - set (pb2 := if PrimFloat.ltb _ _ then _ else pb1).
    set (g1 := GameState.set_draws gs (S (GameState.draws gs))).
    assert (Hg1 : Grow gs g1) by apply Hdraw.
    destruct (Pillbox.fire_cooldown pb2 <=? 0);
      [|eapply Grow_trans; [exact Hg1 | apply Grow_store]].
    destruct (GameState._find_target g1 pb2) as [target|];
      [|eapply Grow_trans; [exact Hg1 | apply Grow_store]].
    destruct (GameState.objs g1 !! target) as [[tk | | | |]|];
      try (eapply Grow_trans; [exact Hg1 | apply Grow_store]).
    eapply Grow_trans; [exact Hg1|]. cbn.
    split; [done | cbn; rewrite length_insert, length_app; lia |].
    exists [length (GameState.objs gs)]. split; [done|].
    constructor; [|done]. cbn. rewrite length_insert, length_app. cbn. lia.
  - destruct (Pillbox.fire_cooldown pb1 <=? 0); [|apply Grow_store].
    destruct (GameState._find_target gs pb1) as [target|];
      [|apply Grow_store].
    destruct (GameState.objs gs !! target) as [[tk | | | |]|];
      try apply Grow_store.
    cbn.
    split; [done | cbn; rewrite length_insert, length_app; lia |].
    exists [length (GameState.objs gs)]. split; [done|].
    constructor; [|done]. cbn. rewrite length_insert, length_app. cbn. lia.
Qed.

Lemma update_entity_Grow (gs : GameState.t) (r : nat)
    (gs' : GameState.t) (evs : list Event) :
  GameState.update_entity gs r = Some (gs', evs) -> Grow gs gs'.
Proof.
  unfold GameState.update_entity.
  destruct (GameState.objs gs !! r) as [[tk | sh | mn | pb | b]|].
  - intros [= <- <-]. apply Grow_store.
  - destruct (Shell.update sh (GameState.game_map gs)) as [[sh' m']|];
      [|done].
    cbn. intros [= <- <-].
    split; [done | cbn; by rewrite length_insert |].
    exists []. split; [by rewrite app_nil_r | done].
  - intros [= <- <-]. apply Grow_refl.
  - intros [= <- <-]. apply Pillbox_update_Grow.
  - intros [= <- <-]. apply Grow_store.
  - intros [= <- <-]. apply Grow_refl.
Qed.

Lemma update_entities_Grow (gs gs' : GameState.t) (evs : list Event) :
  GameState.update_entities gs = Some (gs', evs) -> Grow gs gs'.
Proof.
  apply (for_each_preorder Grow); [apply Grow_refl | apply Grow_trans |].
  apply update_entity_Grow.
Qed.

Lemma update_camera_lists (gs : GameState.t) :
  GameState.entities (GameState._update_camera gs) = GameState.entities gs /\
  GameState.pending_entities (GameState._update_camera gs)
    = GameState.pending_entities gs /\
  GameState.objs (GameState._update_camera gs) = GameState.objs gs.
Proof.
  unfold GameState._update_camera.
  destruct (GameState.player gs) as [p|]; [|done].
  by destruct (GameState.objs gs !! p) as [[| | | |]|].
Qed.

(** An active frame, once its update phase and its collision pass have
    returned: the purge keeps the live references, the pending list and
    the store are those the collision pass left. *)
Lemma update_active (gs g1 g2 : GameState.t) (evs0 evs : list Event) :
  GameState.paused gs = false -> GameState.game_over gs = false ->
  GameState.update_entities (GameState.merge_pending gs) = Some (g1, evs0) ->
  GameState._process_collisions g1 = Some (g2, evs) ->
  exists g3,
    GameState.update gs = Some (g3, evs) /\
    GameState.entities g3
      = filter (fun r => GameState.ref_alive g2 r = true)
               (GameState.entities g2) /\
    GameState.pending_entities g3 = GameState.pending_entities g2 /\
    GameState.objs g3 = GameState.objs g2.
Proof.
  intros Hp Hg Hup Hcol. unfold GameState.update.
  rewrite Hp, Hg. cbn [orb]. rewrite Hup.
  cbn -[GameState._process_collisions]. rewrite Hcol.
  cbn -[GameState.remove_dead_entities GameState.player_alive
        GameState._update_camera].
  destruct (GameState.player_alive _).
  - eexists. split; [reflexivity|].
    destruct (update_camera_lists (GameState.remove_dead_entities g2))
      as (-> & -> & ->).
    done.
  - eexists. split; [reflexivity|]. done.
Qed.

End PendingBuffer.

(** C2, amended: an active frame (neither paused nor game-over) on a
    state whose lists point into the store.
    The frame first merges the pending buffer into the live list and
    clears it, so what the buffer holds after the update phase is what
    was passed to [add_entity] during that phase.  Such an entity [e] is
    not in the live list the update phase iterates, nor in the one any of
    the four collision loops iterates, nor in the one the frame leaves;
    it is still in the pending buffer when the frame returns.  A call
    that is paused or game-over changes nothing.  An active call on a
    state [g4] that holds [e] in either list has [e] in the live list from
    its first statement, through its update phase and its collision
    pass, and its purge keeps [e] exactly if [e] is alive.  So [e] is
    live from the start of the next active call until a purge finds it
    dead. *)
Theorem pending_spawn_visibility `{PyRuntime}
    (gs g1 g2 : GameState.t) (evs0 evs : list Event) (e : nat) :
  refs_valid gs ->
  GameState.paused gs = false -> GameState.game_over gs = false ->
  GameState.update_entities (GameState.merge_pending gs) = Some (g1, evs0) ->
  GameState._process_collisions g1 = Some (g2, evs) ->
  (e ∈ GameState.pending_entities g1) ->
  GameState.pending_entities (GameState.merge_pending gs) = [] /\
  (e ∉ GameState.entities (GameState.merge_pending gs)) /\
  (e ∉ GameState.entities g1) /\
  (exists ga gb gc evs1 evs2 evs3 evs4,
     GameState.for_each GameState.shell_tank_body
       (GameState.entities g1) g1 = Some (ga, evs1) /\
     GameState.for_each GameState.shell_pillbox_body
       (GameState.entities ga) ga = Some (gb, evs2) /\
     GameState.for_each GameState.tank_mine_body
       (GameState.entities gb) gb = Some (gc, evs3) /\
     GameState.for_each GameState.tank_base_body
       (GameState.entities gc) gc = Some (g2, evs4) /\
     (e ∉ GameState.entities ga) /\ (e ∉ GameState.entities gb) /\
     e ∉ GameState.entities gc) /\
  (e ∉ GameState.entities g2) /\
  (exists g3,
     GameState.update gs = Some (g3, evs) /\
     (e ∉ GameState.entities g3) /\
     (e ∈ GameState.pending_entities g3) /\
     refs_valid g3) /\
  (forall g4,
     (e ∈ GameState.pending_entities g4) \/ (e ∈ GameState.entities g4) ->
     (GameState.paused g4 = true \/ GameState.game_over g4 = true ->
        GameState.update g4 = Some (g4, [])) /\
     (GameState.paused g4 = false -> GameState.game_over g4 = false ->
        (e ∈ GameState.entities (GameState.merge_pending g4)) /\
        forall g5 evs5 g6 evs6,
          GameState.update_entities (GameState.merge_pending g4)
            = Some (g5, evs5) ->
          GameState._process_collisions g5 = Some (g6, evs6) ->
          (e ∈ GameState.entities g5) /\ (e ∈ GameState.entities g6) /\
          exists g7,
            GameState.update g4 = Some (g7, evs6) /\
            (e ∈ GameState.entities g7 <->
               GameState.ref_alive g6 e = true))).
Proof.
  intros Hvalid Hp Hg Hup Hcol He.
  pose proof (update_entities_Grow _ _ _ Hup) as [Hent1 Hlen1 Hpend1].
  destruct Hpend1 as (new & Hpend1 & Hnew). cbn in Hpend1, Hlen1, Hnew.
  pose proof (process_collisions_Stretch _ _ _ Hcol)
    as [Hent2 Hpend2 Hlen2 _ _ _ _ _].
  assert (Hfresh : (length (GameState.objs gs) <= e)%nat).
  { rewrite Hpend1 in He. rewrite Forall_forall in Hnew.
    by apply Hnew in He as [? _]. }
  assert (Hold : forall r,
            r ∈ GameState.entities (GameState.merge_pending gs) ->
            (r < length (GameState.objs gs))%nat).
  { intros r Hr. unfold refs_valid in Hvalid.
    rewrite Forall_forall in Hvalid. by apply Hvalid. }
  assert (Hnot : e ∉ GameState.entities (GameState.merge_pending gs)).
  { intros Hin. apply Hold in Hin. lia. }
  split_and!.
  - done.
  - exact Hnot.
  - by rewrite Hent1.
  - destruct (process_collisions_phases _ _ _ Hcol)
      as (ga & gb & gc & evs1 & evs2 & evs3 & evs4
          & H1 & H2 & H3 & H4 & _).
    pose proof (for_each_Stretch _ shell_tank_body_Stretch _ _ _ _ H1)
      as [Ha _ _ _ _ _ _ _].
    pose proof (for_each_Stretch _ shell_pillbox_body_Stretch _ _ _ _ H2)
      as [Hb _ _ _ _ _ _ _].
    pose proof (for_each_Stretch _ tank_mine_body_Stretch _ _ _ _ H3)
      as [Hc _ _ _ _ _ _ _].
    exists ga, gb, gc, evs1, evs2, evs3, evs4.
    split_and!; try done.
    + by rewrite Ha, Hent1.
    + by rewrite Hb, Ha, Hent1.
    + by rewrite Hc, Hb, Ha, Hent1.
  - by rewrite Hent2, Hent1.
  - destruct (update_active gs g1 g2 evs0 evs Hp Hg Hup Hcol)
      as (g3 & Hrun & Hent3 & Hpend3 & Hobj3).
    exists g3. split_and!.
    + exact Hrun.
    + rewrite Hent3. intros Hin. apply list_elem_of_filter in Hin as [_ Hin].
      rewrite Hent2, Hent1 in Hin. done.
    + by rewrite Hpend3, Hpend2.
    + unfold refs_valid. rewrite Hobj3, Hlen2, Hent3, Hpend3, Hpend2.
      apply Forall_app. split.
      * apply Forall_forall. intros r Hr.
        apply list_elem_of_filter in Hr as [_ Hr].
        rewrite Hent2, Hent1 in Hr. apply Hold in Hr. lia.
      * rewrite Hpend1. cbn. eapply Forall_impl; [exact Hnew|]. cbn. lia.
  - intros g4 He4. split.
    + intros Hidle. unfold GameState.update.
      destruct Hidle as [-> | ->]; [done | by rewrite orb_true_r].
    + intros Hp4 Hg4.
      assert (Hm4 : e ∈ GameState.entities (GameState.merge_pending g4)).
      { cbn. apply elem_of_app. destruct He4; [by right | by left]. }
      split; [exact Hm4|].
      intros g5 evs5 g6 evs6 Hup5 Hcol6.
      pose proof (update_entities_Grow _ _ _ Hup5) as [Hent5 _ _].
      pose proof (process_collisions_Stretch _ _ _ Hcol6)
        as [Hent6 _ _ _ _ _ _ _].
      assert (He5 : e ∈ GameState.entities g5) by (by rewrite Hent5).
      assert (He6 : e ∈ GameState.entities g6) by (by rewrite Hent6).
      split_and!; [exact He5 | exact He6 |].
      destruct (update_active g4 g5 g6 evs5 evs6 Hp4 Hg4 Hup5 Hcol6)
        as (g7 & Hrun7 & Hent7 & _ & _).
      exists g7. split; [exact Hrun7|].
      rewrite Hent7, list_elem_of_filter. split; [by intros [? _] | done].
Qed.

Example outpost_shell :
  GameState.objs outpost_updated !! 2%nat
    = Some (EShell (Shell.init 100 100 0 NEUTRAL 1 2)) /\
  GameState.pending_entities outpost_updated = [2%nat] /\
  GameState.entities outpost_updated = [0; 1]%nat.
Proof. vm_compute. auto. Qed.

Lemma pending_spawn_visibility_witness :
  (2%nat ∈ GameState.pending_entities outpost_updated) /\
  (2%nat ∉ GameState.entities outpost_updated) /\
  (2%nat ∉ GameState.entities outpost_collided) /\
  exists g3,
    @GameState.update scenario_runtime outpost = Some (g3, []) /\
    (2%nat ∉ GameState.entities g3) /\
    (2%nat ∈ GameState.pending_entities g3) /\
    (2%nat ∈ GameState.entities (GameState.merge_pending g3)).
Proof.
  assert (Hvalid : refs_valid outpost).
  { unfold refs_valid. cbn. repeat constructor. }
  assert (Hup : @GameState.update_entities scenario_runtime
                  (GameState.merge_pending outpost)
                = Some (outpost_updated, []))
    by (vm_compute; reflexivity).
  assert (Hcol : @GameState._process_collisions scenario_runtime
                   outpost_updated = Some (outpost_collided, []))
    by (vm_compute; reflexivity).
  assert (Hin : 2%nat ∈ GameState.pending_entities outpost_updated)
    by (cbn; constructor).
  destruct (@pending_spawn_visibility scenario_runtime outpost
              outpost_updated outpost_collided [] [] 2%nat
              Hvalid eq_refl eq_refl Hup Hcol Hin)
    as (_ & _ & Hn1 & _ & Hn2 & (g3 & Hrun & Hn3 & Hp3 & _) & Hnext).
  split_and!; [exact Hin | exact Hn1 | exact Hn2 |].
  exists g3. split_and!; [exact Hrun | exact Hn3 | exact Hp3 |].
  destruct (Hnext g3 (or_introl Hp3)) as [_ Hactive].
  assert (Hflags : GameState.paused g3 = false /\
                   GameState.game_over g3 = false).
  { vm_compute in Hrun. injection Hrun as <-. split; reflexivity. }
  destruct Hflags as [Hp Hg].
  destruct (Hactive Hp Hg) as [Hmerged _]. exact Hmerged.
Defined.

(** C2, as stated, fails in its second half.  In the first frame of the
    ambush the pillbox passes shell 2 to [add_entity] during the update
    phase.  The next call of [update] is not paused; it merges the shell,
    moves it into the tank, destroys it and purges it, so that when the
    call returns the shell is not an element of [entities]: it is not an
    element "from the start of that call onward".  And on a state that is
    not paused but has [game_over] set, [update] returns at its guard and
    the shell is never merged. *)
Lemma spawned_shell_not_live_onward :
  (option_map (fun p => GameState.pending_entities p.1)
     (@GameState.update_entities scenario_runtime
        (GameState.merge_pending ambush)) = Some [2%nat]) /\
  @GameState.update scenario_runtime ambush = Some (ambush_frame1, []) /\
  GameState.pending_entities ambush_frame1 = [2%nat] /\
  GameState.paused ambush_frame1 = false /\
  @GameState.update scenario_runtime ambush_frame1
    = Some (ambush_frame2, [Contact ShellTank 2 0]) /\
  (2%nat ∉ GameState.entities ambush_frame2) /\
  GameState.paused ambush_game_over = false /\
  (2%nat ∈ GameState.pending_entities ambush_game_over) /\
  @GameState.update scenario_runtime ambush_game_over
    = Some (ambush_game_over, []) /\
  (2%nat ∉ GameState.entities ambush_game_over).
Proof.
  split_and!; try (vm_compute; reflexivity).
  - cbn. intros Hin. rewrite !elem_of_cons, elem_of_nil in Hin. lia.
  - cbn. constructor.
  - cbn. intros Hin. rewrite !elem_of_cons, elem_of_nil in Hin. lia.
Qed.

(** * Further properties *)

(** From here on [lia] also decides the boolean comparisons of [Z]. *)
From Stdlib Require Import ZifyBool.

(** ** Order facts about binary64 comparison *)

Lemma SFcompare_finite_Lt (s : bool) (m1 m2 : positive) (e1 e2 : Z) :
  SFcompare (S754_finite s m1 e1) (S754_finite s m2 e2) = Some Lt <->
  (if s then (e2 < e1 \/ (e1 = e2 /\ (m2 < m1)%positive))
   else (e1 < e2 \/ (e1 = e2 /\ (m1 < m2)%positive))).
Proof.
  cbn. change (Pos.compare_cont Eq m1 m2) with (Pos.compare m1 m2).
  destruct s; destruct (Z.compare_spec e1 e2) as [He|He|He];
    destruct (Pos.compare_spec m1 m2) as [Hm|Hm|Hm]; cbn;
    split; intros Hc; try discriminate; try reflexivity; try lia.
Qed.

Lemma SFltb_irrefl (x : spec_float) : SFltb x x = false.
Proof.
  unfold SFltb. destruct x as [s|s| |s m e]; try (destruct s; reflexivity).
  - reflexivity.
  - destruct (SFcompare (S754_finite s m e) (S754_finite s m e))
      as [[| |]|] eqn:Hc; try reflexivity.
    apply SFcompare_finite_Lt in Hc. destruct s; lia.
Qed.

Lemma SFltb_trans (x y z : spec_float) :
  SFltb x y = true -> SFltb y z = true -> SFltb x z = true.
Proof.
  unfold SFltb.
  destruct (SFcompare x y) as [[| |]|] eqn:Hxy; try discriminate.
  destruct (SFcompare y z) as [[| |]|] eqn:Hyz; try discriminate.
  intros _ _.
  destruct x as [sx|sx| |sx mx ex], y as [sy|sy| |sy my ey],
    z as [sz|sz| |sz mz ez];
    repeat match goal with s : bool |- _ => destruct s end;
    try solve [cbn in *; first [discriminate | reflexivity]].
  - apply SFcompare_finite_Lt in Hxy, Hyz.
    assert (Hxz : SFcompare (S754_finite true mx ex) (S754_finite true mz ez)
                  = Some Lt) by (apply SFcompare_finite_Lt; lia).
    by rewrite Hxz.
  - apply SFcompare_finite_Lt in Hxy, Hyz.
    assert (Hxz : SFcompare (S754_finite false mx ex)
                    (S754_finite false mz ez) = Some Lt)
      by (apply SFcompare_finite_Lt; lia).
    by rewrite Hxz.
Qed.

Lemma ltb_irrefl (x : float) : PrimFloat.ltb x x = false.
Proof. rewrite FloatAxioms.ltb_spec. apply SFltb_irrefl. Qed.

Lemma ltb_trans (x y z : float) :
  PrimFloat.ltb x y = true -> PrimFloat.ltb y z = true ->
  PrimFloat.ltb x z = true.
Proof. rewrite !FloatAxioms.ltb_spec. apply SFltb_trans. Qed.

Lemma ltb_asym (x y : float) :
  PrimFloat.ltb x y = true -> PrimFloat.ltb y x = false.
Proof.
  intros Hxy. destruct (PrimFloat.ltb y x) eqn:Hyx; [|reflexivity].
  pose proof (ltb_trans _ _ _ Hxy Hyx) as Hxx. by rewrite ltb_irrefl in Hxx.
Qed.


(** ** Wear of the terrain *)

Lemma get_tile_in (m : GameMap.t) (x y : Z) :
  0 <= x < GameMap.width m -> 0 <= y < GameMap.height m ->
  GameMap.get_tile m x y = GameMap.cell m x y.
Proof.
  intros Hx Hy. unfold GameMap.get_tile.
  by rewrite (proj2 (in_bounds_true m x y)).
Qed.

Lemma get_tile_out (m : GameMap.t) (x y : Z) :
  ~ (0 <= x < GameMap.width m /\ 0 <= y < GameMap.height m) ->
  GameMap.get_tile m x y = Some WALL.
Proof.
  intros Hout. unfold GameMap.get_tile.
  by rewrite (proj2 (in_bounds_false m x y)).
Qed.

Lemma wf_cell (m : GameMap.t) (x y : Z) :
  GameMap.wf m ->
  0 <= x < GameMap.width m -> 0 <= y < GameMap.height m ->
  is_Some (GameMap.cell m x y).
Proof.
  intros Hwf Hx Hy. destruct (wf_row m x y Hwf Hx Hy) as (row & Hrow & Hlt).
  unfold GameMap.cell. rewrite Hrow. cbn. by apply lookup_lt_is_Some.
Qed.

(** One hit: the cell under it becomes [worn] of what it was, and that is
    all that happens. *)
Lemma damage_tile_worn (m : GameMap.t) (x y : Z) :
  GameMap.wf m ->
  exists m',
    GameMap.damage_tile m x y = Some m' /\
    GameMap.wf m' /\
    GameMap.width m' = GameMap.width m /\
    GameMap.height m' = GameMap.height m /\
    (~ (0 <= x < GameMap.width m /\ 0 <= y < GameMap.height m) -> m' = m) /\
    (0 <= x < GameMap.width m -> 0 <= y < GameMap.height m ->
     forall c, GameMap.cell m x y = Some c ->
       GameMap.cell m' x y = Some (worn c) /\
       (worn c = c -> m' = m)) /\
    (forall x' y', 0 <= x' -> 0 <= y' -> (x', y') <> (x, y) ->
       GameMap.cell m' x' y' = GameMap.cell m x' y').
Proof.
  intros Hwf.
  destruct (decide (0 <= x < GameMap.width m /\ 0 <= y < GameMap.height m))
    as [[Hx Hy]|Hout].
  - destruct (wf_cell m x y Hwf Hx Hy) as [c Hc].
    assert (Hset : forall k, exists m',
               GameMap.set_tile m x y k = Some m' /\
               GameMap.wf m' /\
               GameMap.width m' = GameMap.width m /\
               GameMap.height m' = GameMap.height m /\
               GameMap.cell m' x y = Some k /\
               (forall x' y', 0 <= x' -> 0 <= y' -> (x', y') <> (x, y) ->
                  GameMap.cell m' x' y' = GameMap.cell m x' y')).
    { intros k. destruct (set_tile_total m x y k Hwf) as [m' Hm'].
      exists m'. split; [done|].
      destruct (set_tile_wf m m' x y k Hwf Hm') as (? & ? & ?).
      destruct (set_tile_cell m m' x y k Hx Hy Hm') as [? ?]. done. }
    unfold GameMap.damage_tile. rewrite get_tile_in, Hc by done. cbn.
    destruct c; cbn;
      lazymatch goal with
      | |- exists _, GameMap.set_tile m x y ?k = _ /\ _ =>
          destruct (Hset k) as (m' & Hs & Hw & Hww & Hhh & Hk & Ho);
          exists m'
      | |- _ => exists m
      end;
      split_and!; try done;
      try (intros Hn; destruct Hn; split; assumption);
      try (intros _ _ c' [= <-]; by split).
  - exists m. unfold GameMap.damage_tile. rewrite get_tile_out by done. cbn.
    unfold GameMap.set_tile. rewrite (proj2 (in_bounds_false m x y)) by done.
    split_and!; try done. intros Hx Hy. destruct Hout. done.
Qed.

(** X: however often a cell is hit, two hits exhaust it.  On a map of
    the constructor's shape [damage_tile] always returns; after two hits
    on a cell the kind there is [worn (worn c)], which no longer stops a
    shell, and every further hit returns the map as it is.  A hit outside
    the map changes nothing. *)
Theorem damage_tile_wears_out (m : GameMap.t) (x y : Z) (n : nat) :
  GameMap.wf m ->
  exists m2 mn,
    damage_tiles 2 m x y = Some m2 /\
    damage_tiles (2 + n) m x y = Some mn /\
    mn = m2 /\
    GameMap.wf m2 /\
    GameMap.width m2 = GameMap.width m /\
    GameMap.height m2 = GameMap.height m /\
    (forall x' y', 0 <= x' -> 0 <= y' -> (x', y') <> (x, y) ->
       GameMap.cell m2 x' y' = GameMap.cell m x' y') /\
    (~ (0 <= x < GameMap.width m /\ 0 <= y < GameMap.height m) -> m2 = m) /\
    (0 <= x < GameMap.width m -> 0 <= y < GameMap.height m ->
     exists c i,
       GameMap.cell m x y = Some c /\
       GameMap.cell m2 x y = Some (worn (worn c)) /\
       terrain_get (worn (worn c)) = Some i /\
       blocks_shots i = false).
Proof.
  intros Hwf.
  destruct (damage_tile_worn m x y Hwf)
    as (m1 & H1 & Hwf1 & Hw1 & Hh1 & Hout1 & Hin1 & Ho1).
  destruct (damage_tile_worn m1 x y Hwf1)
    as (m2 & H2 & Hwf2 & Hw2 & Hh2 & Hout2 & Hin2 & Ho2).
  assert (Hfix : GameMap.damage_tile m2 x y = Some m2).
  { destruct (damage_tile_worn m2 x y Hwf2)
      as (m3 & H3 & _ & _ & _ & Hout3 & Hin3 & _).
    rewrite H3. f_equal.
    destruct (decide (0 <= x < GameMap.width m /\ 0 <= y < GameMap.height m))
      as [[Hx Hy]|Hout].
    - destruct (wf_cell m x y Hwf Hx Hy) as [c Hc].
      destruct (Hin1 Hx Hy c Hc) as [Hc1 _].
      destruct (Hin2 ltac:(lia) ltac:(lia) _ Hc1) as [Hc2 _].
      destruct (Hin3 ltac:(lia) ltac:(lia) _ Hc2) as [_ Hsame].
      apply Hsame. by destruct c.
    - apply Hout3. lia. }
  assert (Hn : forall k, damage_tiles k m2 x y = Some m2).
  { induction k as [|k IH]; [done|]. cbn. rewrite Hfix. cbn. exact IH. }
  exists m2, m2. split_and!.
  - cbn. rewrite H1. cbn. rewrite H2. done.
  - cbn. rewrite H1. cbn. rewrite H2. cbn. apply Hn.
  - done.
  - done.
  - lia.
  - lia.
  - intros x' y' Hx' Hy' Hne. rewrite Ho2, Ho1 by done. done.
  - intros Hout. rewrite (Hout2 ltac:(lia)). by apply Hout1.
  - intros Hx Hy. destruct (wf_cell m x y Hwf Hx Hy) as [c Hc].
    destruct (Hin1 Hx Hy c Hc) as [Hc1 _].
    destruct (Hin2 ltac:(lia) ltac:(lia) _ Hc1) as [Hc2 _].
    exists c. destruct c; eexists; (split_and!; [done|done|reflexivity|done]).
Qed.

Lemma damage_tile_wears_out_witness :
  let m := GameMap.mk 2 2 [[WALL; ROAD]; [FOREST; RUBBLE]] false in
  exists m2 mn,
    damage_tiles 2 m 0 0 = Some m2 /\
    damage_tiles (2 + 3) m 0 0 = Some mn /\
    mn = m2 /\
    GameMap.wf m2 /\
    GameMap.width m2 = GameMap.width m /\
    GameMap.height m2 = GameMap.height m /\
    (forall x' y', 0 <= x' -> 0 <= y' -> (x', y') <> (0, 0) ->
       GameMap.cell m2 x' y' = GameMap.cell m x' y') /\
    (~ (0 <= 0 < GameMap.width m /\ 0 <= 0 < GameMap.height m) -> m2 = m) /\
    (0 <= 0 < GameMap.width m -> 0 <= 0 < GameMap.height m ->
     exists c i,
       GameMap.cell m 0 0 = Some c /\
       GameMap.cell m2 0 0 = Some (worn (worn c)) /\
       terrain_get (worn (worn c)) = Some i /\
       blocks_shots i = false).
Proof.
  apply (damage_tile_wears_out
           (GameMap.mk 2 2 [[WALL; ROAD]; [FOREST; RUBBLE]] false) 0 0 3).
  split; [reflexivity | repeat constructor].
Defined.

(** ** Map generation *)

Lemma for_in_range {S : Type} (body : S -> Z -> option S)
    (I : Z -> S -> Prop) (a b : Z) (s : S) :
  I a s ->
  (forall i s, a <= i < b -> I i s ->
     exists s', body s i = Some s' /\ I (i + 1) s') ->
  exists s', GameMap.for_in body (GameMap.py_range a b) s = Some s' /\
             I (Z.max a b) s'.
Proof.
  unfold GameMap.py_range.
  remember (Z.to_nat (b - a)) as n eqn:Hn.
  revert a s Hn. induction n as [|n IH]; intros a s Hn Ha Hstep.
  - assert (Hle : b - a <= 0) by lia.
    rewrite seqZ_nil by done. exists s. cbn.
    by replace (Z.max a b) with a by lia.
  - rewrite seqZ_cons by lia. cbn.
    destruct (Hstep a s ltac:(lia) Ha) as (s1 & -> & H1). cbn.
    replace (Z.pred (b - a)) with (b - Z.succ a) by lia.
    destruct (IH (Z.succ a) s1 ltac:(lia)) as (s' & Hs' & HI).
    + by replace (Z.succ a) with (a + 1) by lia.
    + intros i s2 Hi. apply Hstep. lia.
    + exists s'. split; [done|].
      by replace (Z.max a b) with (Z.max (Z.succ a) b) by lia.
Qed.

Section GenerateFacts.
Context `{PyRuntime}.
Variable m : GameMap.t.
Let w := GameMap.width m.
Let h := GameMap.height m.

(** The rows seen as a map of the dimensions of [m]. *)
Let as_map (rows : list (list TileType)) : GameMap.t :=
  GameMap.mk w h rows true.

Lemma assign_in (rows : list (list TileType)) (x y : Z) (k : TileType) :
  GameMap.wf (as_map rows) -> 0 <= x < w -> 0 <= y < h ->
  exists rows',
    GameMap.assign rows y x k = Some rows' /\
    GameMap.wf (as_map rows') /\
    GameMap.cell (as_map rows') x y = Some k /\
    (forall x' y', 0 <= x' -> 0 <= y' -> (x', y') <> (x, y) ->
       GameMap.cell (as_map rows') x' y' = GameMap.cell (as_map rows) x' y').
Proof.
  intros Hwf Hx Hy.
  destruct (set_tile_in (as_map rows) x y k Hwf Hx Hy) as (row & Hrow & Hset).
  cbn in Hrow, Hset.
  destruct (wf_row (as_map rows) x y Hwf Hx Hy) as (row' & Hrow' & Hlt).
  cbn in Hrow'. rewrite Hrow in Hrow'. injection Hrow' as <-.
  destruct Hwf as [Hlen Hrows]. cbn in Hlen, Hrows.
  exists (<[Z.to_nat y := <[Z.to_nat x := k]> row]> rows).
  assert (Hiy : GameMap.py_index (length rows) y = Some (Z.to_nat y)).
  { unfold GameMap.py_index.
    rewrite (proj2 (Z.leb_le 0 y)) by lia.
    by rewrite (proj2 (Z.ltb_lt y _)) by lia. }
  assert (Hix : GameMap.py_index (length row) x = Some (Z.to_nat x)).
  { unfold GameMap.py_index.
    rewrite (proj2 (Z.leb_le 0 x)) by lia.
    by rewrite (proj2 (Z.ltb_lt x _)) by lia. }
  split.
  { unfold GameMap.assign. rewrite Hiy. cbn. rewrite Hrow. cbn.
    rewrite Hix. done. }
  destruct (set_tile_wf (as_map rows) _ x y k
              (conj Hlen Hrows) Hset) as (Hwf' & _ & _).
  destruct (set_tile_cell (as_map rows) _ x y k Hx Hy Hset) as [Hk Ho].
  done.
Qed.

(** How many interior indices lie below [i] on an axis of [n] cells. *)
Let inner (n i : Z) : Z := Z.max 0 (Z.min i (n - 1) - 1).

Let border (x y : Z) : bool :=
  (x =? 0) || (y =? 0) || (x =? w - 1) || (y =? h - 1).

(** The draws one row costs. *)
Let row_draws (y : Z) : nat :=
  if (y =? 0) || (y =? h - 1) then 0%nat else Z.to_nat (Z.max 0 (w - 2)).

Lemma generate_row_spec (rows : list (list TileType)) (d : nat) (y : Z) :
  GameMap.wf (as_map rows) -> 0 <= y < h -> 0 <= w ->
  exists rows',
    GameMap.generate_row m (rows, d) y =
      Some (rows', (d + row_draws y)%nat) /\
    GameMap.wf (as_map rows') /\
    (forall x, 0 <= x < w ->
       GameMap.cell (as_map rows') x y =
         Some (if border x y then WALL
               else GameMap.random_kind
                      (random_random (d + Z.to_nat (x - 1))))) /\
    (forall x' y', 0 <= x' -> 0 <= y' -> y' <> y ->
       GameMap.cell (as_map rows') x' y' = GameMap.cell (as_map rows) x' y').
Proof.
  intros Hwf Hy Hw.
  set (rowd := fun i : Z =>
         if (y =? 0) || (y =? h - 1) then 0%nat else Z.to_nat (inner w i)).
  set (I := fun (i : Z) (st : list (list TileType) * nat) =>
         GameMap.wf (as_map st.1) /\
         st.2 = (d + rowd i)%nat /\
         (forall x, 0 <= x < i ->
            GameMap.cell (as_map st.1) x y =
              Some (if border x y then WALL
                    else GameMap.random_kind
                           (random_random (d + Z.to_nat (x - 1))))) /\
         (forall x' y', 0 <= x' -> 0 <= y' -> y' <> y ->
            GameMap.cell (as_map st.1) x' y'
            = GameMap.cell (as_map rows) x' y')).
  destruct (for_in_range (GameMap.generate_cell m y) I 0 w (rows, d))
    as ([rows' d'] & Hrun & Hwf' & Hd' & Hcells & Hothers).
  - unfold I, rowd, inner. cbn. split_and!; [done| |intros; lia|done].
    destruct ((y =? 0) || (y =? h - 1)); lia.
  - intros i [rows1 d1] Hi (Hwf1 & Hd1 & Hc1 & Ho1). cbn in Hwf1, Hd1, Hc1, Ho1.
    unfold GameMap.generate_cell. fold w h. fold (border i y).
    destruct (border i y) eqn:Hb.
    + destruct (assign_in rows1 i y WALL Hwf1 ltac:(lia) Hy)
        as (rows2 & -> & Hwf2 & Hk & Hrest). cbn.
      eexists. split; [done|]. unfold I. cbn. split_and!.
      * done.
      * rewrite Hd1. f_equal. unfold rowd, inner. unfold border in Hb.
        destruct ((y =? 0) || (y =? h - 1)) eqn:E; lia.
      * intros x Hx. destruct (decide (x = i)) as [->|Hne].
        -- by rewrite Hk, Hb.
        -- rewrite Hrest by (try lia; congruence). apply Hc1. lia.
      * intros x' y' Hx' Hy' Hne. rewrite Hrest by (try lia; congruence).
        by apply Ho1.
    + destruct (assign_in rows1 i y
                  (GameMap.random_kind (random_random d1)) Hwf1
                  ltac:(lia) Hy)
        as (rows2 & -> & Hwf2 & Hk & Hrest). cbn.
      eexists. split; [done|]. unfold I. cbn.
      assert (Hrd : rowd i = Z.to_nat (i - 1) /\
                    rowd (i + 1) = S (Z.to_nat (i - 1))).
      { unfold rowd, inner. unfold border in Hb.
        destruct ((y =? 0) || (y =? h - 1)) eqn:E; lia. }
      destruct Hrd as [Hrd Hrd'].
      split_and!.
      * done.
      * rewrite Hd1, Hrd, Hrd'. lia.
      * intros x Hx. destruct (decide (x = i)) as [->|Hne].
        -- rewrite Hk, Hb. by rewrite Hd1, Hrd.
        -- rewrite Hrest by (try lia; congruence). apply Hc1. lia.
      * intros x' y' Hx' Hy' Hne. rewrite Hrest by (try lia; congruence).
        by apply Ho1.
  - cbn in Hwf', Hd', Hcells, Hothers.
    exists rows'. unfold GameMap.generate_row. fold w.
    rewrite Hrun. split_and!.
    + do 2 f_equal. rewrite Hd'. f_equal. unfold rowd, row_draws, inner.
      destruct ((y =? 0) || (y =? h - 1)); lia.
    + done.
    + intros x Hx. apply Hcells. lia.
    + done.
Qed.


Lemma generate_rows_spec (d : nat) :
  GameMap.wf m -> 0 <= w -> 0 <= h ->
  exists rows',
    GameMap.for_in (GameMap.generate_row m) (GameMap.py_range 0 h)
                   (GameMap.tiles m, d) =
      Some (rows',
            (d + Z.to_nat (Z.max 0 (w - 2) * Z.max 0 (h - 2)))%nat) /\
    GameMap.wf (as_map rows') /\
    (forall x y, 0 <= x < w -> 0 <= y < h ->
       GameMap.cell (as_map rows') x y =
         Some (if border x y then WALL
               else GameMap.random_kind
                      (random_random (d + draw_index m x y)))).
Proof.
  intros Hwf Hw Hh.
  set (W := Z.max 0 (w - 2)).
  set (I := fun (j : Z) (st : list (list TileType) * nat) =>
         GameMap.wf (as_map st.1) /\
         st.2 = (d + Z.to_nat (W * inner h j))%nat /\
         (forall x y, 0 <= x < w -> 0 <= y < j ->
            GameMap.cell (as_map st.1) x y =
              Some (if border x y then WALL
                    else GameMap.random_kind
                           (random_random (d + draw_index m x y))))).
  destruct (for_in_range (GameMap.generate_row m) I 0 h (GameMap.tiles m, d))
    as ([rows' d'] & Hrun & Hwf' & Hd' & Hcells).
  - unfold I, inner. cbn. split_and!.
    + destruct Hwf. by split.
    + replace (W * _) with 0 by lia. cbn. lia.
    + intros; lia.
  - intros j [rows1 d1] Hj (Hwf1 & Hd1 & Hc1). cbn in Hwf1, Hd1, Hc1.
    destruct (generate_row_spec rows1 d1 j Hwf1 Hj Hw)
      as (rows2 & -> & Hwf2 & Hrow & Hrest).
    eexists. split; [done|]. unfold I. cbn. split_and!.
    + done.
    + rewrite Hd1. unfold row_draws, inner. fold W.
      destruct ((j =? 0) || (j =? h - 1)) eqn:E.
      * rewrite Nat.add_0_r. do 2 f_equal.
        assert (j = 0 \/ j = h - 1) as [-> | ->] by lia; f_equal; lia.
      * rewrite <- Nat.add_assoc. f_equal.
        replace (0 `max` (j `min` (h - 1) - 1)) with (j - 1) by lia.
        replace (0 `max` ((j + 1) `min` (h - 1) - 1)) with j by lia.
        rewrite <- Z2Nat.inj_add by nia. f_equal. ring.
    + intros x y Hx Hy. destruct (decide (y = j)) as [->|Hne].
      * rewrite Hrow by done. destruct (border x j) eqn:Hb; [done|].
        do 3 f_equal. rewrite Hd1. unfold draw_index. fold w.
        unfold border in Hb. rewrite <- Nat.add_assoc. f_equal.
        unfold inner.
        replace (0 `max` (j `min` (h - 1) - 1)) with (j - 1) by lia.
        replace W with (w - 2) by lia.
        rewrite <- Z2Nat.inj_add by nia. f_equal. ring.
      * rewrite Hrest by lia. apply Hc1; lia.
  - cbn in Hwf', Hd', Hcells. exists rows'. rewrite Hrun. split_and!.
    + do 2 f_equal. rewrite Hd'. do 2 f_equal. unfold inner.
      replace (Z.max 0 h) with h by lia.
      replace (0 `max` (h `min` (h - 1) - 1)) with (0 `max` (h - 2)) by lia.
      done.
    + done.
    + intros x y Hx Hy. apply Hcells; lia.
Qed.

(** A corridor: [ROAD] written along a run of cells of one row or one
    column. *)
Lemma road_row_spec (rows : list (list TileType)) (y a b : Z) :
  GameMap.wf (as_map rows) -> 0 <= y < h -> 0 <= a -> b <= w ->
  exists rows',
    GameMap.for_in (fun rows x => GameMap.assign rows y x ROAD)
                   (GameMap.py_range a b) rows = Some rows' /\
    GameMap.wf (as_map rows') /\
    (forall x' y', 0 <= x' -> 0 <= y' ->
       GameMap.cell (as_map rows') x' y' =
         if (y' =? y) && (a <=? x') && (x' <? b) then Some ROAD
         else GameMap.cell (as_map rows) x' y').
Proof.
  intros Hwf Hy Ha Hb.
  set (I := fun (i : Z) (rows1 : list (list TileType)) =>
         GameMap.wf (as_map rows1) /\
         (forall x' y', 0 <= x' -> 0 <= y' ->
            GameMap.cell (as_map rows1) x' y' =
              if (y' =? y) && (a <=? x') && (x' <? i) then Some ROAD
              else GameMap.cell (as_map rows) x' y')).
  destruct (for_in_range (fun rows x => GameMap.assign rows y x ROAD)
              I a b rows) as (rows' & Hrun & Hwf' & Hcells).
  - split; [done|]. intros x' y' Hx' Hy'.
    destruct ((y' =? y) && (a <=? x') && (x' <? a)) eqn:E; [lia|done].
  - intros i rows1 Hi (Hwf1 & Hc1).
    destruct (assign_in rows1 i y ROAD Hwf1 ltac:(lia) Hy)
      as (rows2 & -> & Hwf2 & Hk & Hrest).
    eexists. split; [done|]. split; [done|]. intros x' y' Hx' Hy'.
    destruct (decide ((x', y') = (i, y))) as [[= -> ->]|Hne].
    + rewrite Hk.
      destruct ((y =? y) && (a <=? i) && (i <? i + 1)) eqn:E; [done|lia].
    + rewrite Hrest, Hc1 by done.
      destruct ((y' =? y) && (a <=? x') && (x' <? i)) eqn:E1;
        destruct ((y' =? y) && (a <=? x') && (x' <? i + 1)) eqn:E2;
        try done; try lia.
      exfalso. apply Hne. f_equal; lia.
  - exists rows'. split; [done|]. split; [done|]. intros x' y' Hx' Hy'.
    rewrite Hcells by done.
    destruct ((y' =? y) && (a <=? x') && (x' <? a `max` b)) eqn:E1;
      destruct ((y' =? y) && (a <=? x') && (x' <? b)) eqn:E2;
      try done; lia.
Qed.

Lemma road_column_spec (rows : list (list TileType)) (x a b : Z) :
  GameMap.wf (as_map rows) -> 0 <= x < w -> 0 <= a -> b <= h ->
  exists rows',
    GameMap.for_in (fun rows y => GameMap.assign rows y x ROAD)
                   (GameMap.py_range a b) rows = Some rows' /\
    GameMap.wf (as_map rows') /\
    (forall x' y', 0 <= x' -> 0 <= y' ->
       GameMap.cell (as_map rows') x' y' =
         if (x' =? x) && (a <=? y') && (y' <? b) then Some ROAD
         else GameMap.cell (as_map rows) x' y').
Proof.
  intros Hwf Hx Ha Hb.
  set (I := fun (i : Z) (rows1 : list (list TileType)) =>
         GameMap.wf (as_map rows1) /\
         (forall x' y', 0 <= x' -> 0 <= y' ->
            GameMap.cell (as_map rows1) x' y' =
              if (x' =? x) && (a <=? y') && (y' <? i) then Some ROAD
              else GameMap.cell (as_map rows) x' y')).
  destruct (for_in_range (fun rows y => GameMap.assign rows y x ROAD)
              I a b rows) as (rows' & Hrun & Hwf' & Hcells).
  - split; [done|]. intros x' y' Hx' Hy'.
    destruct ((x' =? x) && (a <=? y') && (y' <? a)) eqn:E; [lia|done].
  - intros i rows1 Hi (Hwf1 & Hc1).
    destruct (assign_in rows1 x i ROAD Hwf1 Hx ltac:(lia))
      as (rows2 & -> & Hwf2 & Hk & Hrest).
    eexists. split; [done|]. split; [done|]. intros x' y' Hx' Hy'.
    destruct (decide ((x', y') = (x, i))) as [[= -> ->]|Hne].
    + rewrite Hk.
      destruct ((x =? x) && (a <=? i) && (i <? i + 1)) eqn:E; [done|lia].
    + rewrite Hrest, Hc1 by done.
      destruct ((x' =? x) && (a <=? y') && (y' <? i)) eqn:E1;
        destruct ((x' =? x) && (a <=? y') && (y' <? i + 1)) eqn:E2;
        try done; try lia.
      exfalso. apply Hne. f_equal; lia.
  - exists rows'. split; [done|]. split; [done|]. intros x' y' Hx' Hy'.
    rewrite Hcells by done.
    destruct ((x' =? x) && (a <=? y') && (y' <? a `max` b)) eqn:E1;
      destruct ((x' =? x) && (a <=? y') && (y' <? b)) eqn:E2;
      try done; lia.
Qed.

End GenerateFacts.

(** X: [generate_random] on a map of the constructor's shape with at
    least one row and one column.  It returns; the map keeps its shape
    and is marked dirty; a cell of a road corridor is [ROAD], any other
    cell of the outer ring is [WALL], and an interior cell has the kind
    the thresholds give the random number drawn for it, the numbers being
    drawn in row-major order over the interior; exactly one number per
    interior cell is drawn.  On a map of three or more rows and columns
    the corridors stay clear of the ring, so the map is walled in. *)
Theorem generate_random_spec `{PyRuntime} (m : GameMap.t) (draws : nat) :
  GameMap.wf m -> 1 <= GameMap.width m -> 1 <= GameMap.height m ->
  exists m',
    GameMap.generate_random m draws =
      Some (m',
            (draws + Z.to_nat (Z.max 0 (GameMap.width m - 2)
                               * Z.max 0 (GameMap.height m - 2)))%nat) /\
    GameMap.wf m' /\
    GameMap.width m' = GameMap.width m /\
    GameMap.height m' = GameMap.height m /\
    GameMap.dirty m' = true /\
    (forall x y, 0 <= x < GameMap.width m -> 0 <= y < GameMap.height m ->
       GameMap.get_tile m' x y = Some (generated m draws x y)) /\
    (3 <= GameMap.width m -> 3 <= GameMap.height m ->
     forall x y, 0 <= x < GameMap.width m -> 0 <= y < GameMap.height m ->
       on_border m x y = true -> GameMap.get_tile m' x y = Some WALL).
Proof.
  intros Hwf Hw Hh.
  destruct (generate_rows_spec m draws Hwf ltac:(lia) ltac:(lia))
    as (rows1 & Hrun1 & Hwf1 & Hc1).
  assert (Hmid_y : 0 <= GameMap.height m / 2 < GameMap.height m).
  { split; [apply Z.div_pos; lia | apply Z.div_lt_upper_bound; lia]. }
  assert (Hmid_x : 0 <= GameMap.width m / 2 < GameMap.width m).
  { split; [apply Z.div_pos; lia | apply Z.div_lt_upper_bound; lia]. }
  destruct (road_row_spec m rows1 (GameMap.height m / 2) 5
              (GameMap.width m - 5) Hwf1 Hmid_y ltac:(lia) ltac:(lia))
    as (rows2 & Hrun2 & Hwf2 & Hc2).
  destruct (road_column_spec m rows2 (GameMap.width m / 2) 5
              (GameMap.height m - 5) Hwf2 Hmid_x ltac:(lia) ltac:(lia))
    as (rows3 & Hrun3 & Hwf3 & Hc3).
  assert (Hcell : forall x y,
             0 <= x < GameMap.width m -> 0 <= y < GameMap.height m ->
             GameMap.get_tile
               (GameMap.mk (GameMap.width m) (GameMap.height m) rows3 true)
               x y = Some (generated m draws x y)).
  { intros x y Hx Hy. rewrite get_tile_in by done.
    rewrite Hc3, Hc2, Hc1 by lia. unfold generated, on_road, on_border.
    destruct ((x =? GameMap.width m / 2) && (5 <=? y)
              && (y <? GameMap.height m - 5)) eqn:E1;
      destruct ((y =? GameMap.height m / 2) && (5 <=? x)
                && (x <? GameMap.width m - 5)) eqn:E2; done. }
  eexists. unfold GameMap.generate_random. rewrite Hrun1. cbn.
  rewrite Hrun2. cbn. rewrite Hrun3. cbn. split_and!; try done.
  intros Hw3 Hh3 x y Hx Hy Hb. rewrite Hcell by done. f_equal.
  unfold generated. rewrite Hb.
  assert (Hroad : on_road m x y = false).
  { unfold on_road, on_border in *.
    assert (1 <= GameMap.height m / 2 <= GameMap.height m - 2).
    { split; [apply Z.div_le_lower_bound; lia|].
      assert (GameMap.height m / 2 < GameMap.height m - 1); [|lia].
      apply Z.div_lt_upper_bound; lia. }
    assert (1 <= GameMap.width m / 2 <= GameMap.width m - 2).
    { split; [apply Z.div_le_lower_bound; lia|].
      assert (GameMap.width m / 2 < GameMap.width m - 1); [|lia].
      apply Z.div_lt_upper_bound; lia. }
    lia. }
  by rewrite Hroad.
Qed.

Lemma generate_random_spec_witness :
  let H := scenario_runtime in
  let m := GameMap.init 3 3 in
  exists m',
    GameMap.generate_random m 0 =
      Some (m',
            (0 + Z.to_nat (Z.max 0 (GameMap.width m - 2)
                           * Z.max 0 (GameMap.height m - 2)))%nat) /\
    GameMap.wf m' /\
    GameMap.width m' = GameMap.width m /\
    GameMap.height m' = GameMap.height m /\
    GameMap.dirty m' = true /\
    (forall x y, 0 <= x < GameMap.width m -> 0 <= y < GameMap.height m ->
       GameMap.get_tile m' x y = Some (generated m 0 x y)) /\
    (3 <= GameMap.width m -> 3 <= GameMap.height m ->
     forall x y, 0 <= x < GameMap.width m -> 0 <= y < GameMap.height m ->
       on_border m x y = true -> GameMap.get_tile m' x y = Some WALL).
Proof.
  apply (@generate_random_spec scenario_runtime (GameMap.init 3 3) 0).
  - apply wf_init.
  - cbn. lia.
  - cbn. lia.
Defined.

(** ** Shells in flight *)

Section ShellFacts.
Context `{PyRuntime}.

(** The shell after the move and the tick of [update], before any test. *)
Let advanced (sh : Shell.t) : Shell.t :=
  Shell.moved sh
    (Shell.x sh + math_cos (radians (Shell.angle sh)) * Shell.speed sh)%float
    (Shell.y sh + math_sin (radians (Shell.angle sh)) * Shell.speed sh)%float
    (Shell.lifetime sh - 1).

(** The ways through [Shell.update]. *)
Lemma shell_update_cases (sh sh' : Shell.t) (m m' : GameMap.t) :
  Shell.update sh m = Some (sh', m') ->
  (Shell.lifetime sh <= 1 /\ sh' = Shell.destroy (advanced sh) /\ m' = m) \/
  (1 < Shell.lifetime sh /\
   exists tx ty tile terrain,
     tile_position (Shell.x (advanced sh)) (Shell.y (advanced sh))
       = Some (tx, ty) /\
     GameMap.get_tile m tx ty = Some tile /\
     terrain_get tile = Some terrain /\
     ((blocks_shots terrain = true /\
       sh' = Shell.destroy (advanced sh) /\
       (if destructible terrain then GameMap.damage_tile m tx ty
        else Some m) = Some m') \/
      (blocks_shots terrain = false /\ m' = m /\
       (sh' = Shell.destroy (advanced sh) \/ sh' = advanced sh)))).
Proof.
  unfold Shell.update. cbv zeta. fold (advanced sh).
  change (Shell.lifetime (advanced sh)) with (Shell.lifetime sh - 1).
  destruct (Shell.lifetime sh - 1 <=? 0) eqn:Hlife.
  { intros [= <- <-]. left. split_and!; [lia|done|done]. }
  destruct (tile_position _ _) as [[tx ty]|] eqn:Htp; [|done].
  cbn [mbind option_bind].
  destruct (GameMap.get_tile m tx ty) as [tile|] eqn:Htile; [|done].
  cbn [mbind option_bind].
  destruct (terrain_get tile) as [terrain|] eqn:Hterrain; [|done].
  cbn [mbind option_bind].
  intros Hrun. right. split; [lia|]. exists tx, ty, tile, terrain.
  split_and!; try done.
  destruct (blocks_shots terrain).
  - left. destruct (if destructible terrain then _ else _) as [m1|]; [|done].
    cbn [mbind option_bind] in Hrun. by injection Hrun as <- <-.
  - right. destruct (_ || _); injection Hrun as <- <-; split_and!; auto.
Qed.

(** What one [update] does to the fields of a shell. *)
Lemma shell_update_fields (sh sh' : Shell.t) (m m' : GameMap.t) :
  Shell.update sh m = Some (sh', m') ->
  Shell.id sh' = Shell.id sh /\
  Shell.angle sh' = Shell.angle sh /\
  Shell.team sh' = Shell.team sh /\
  Shell.owner_id sh' = Shell.owner_id sh /\
  Shell.speed sh' = Shell.speed sh /\
  Shell.damage sh' = Shell.damage sh /\
  Shell.radius sh' = Shell.radius sh /\
  Shell.lifetime sh' = Shell.lifetime sh - 1 /\
  (Shell.alive sh' = true ->
     Shell.alive sh = true /\ 1 < Shell.lifetime sh).
Proof.
  intros Hrun. apply shell_update_cases in Hrun
    as [(Hl & -> & _)
       |(Hl & tx & ty & tile & terrain & _ & _ & _
         & [(_ & -> & _)|(_ & _ & [-> | ->])])];
    split_and!; try done; cbn; by intros.
Qed.


End ShellFacts.

(** What stops a shell. *)
Lemma blocks_shots_kinds (tile : TileType) (terrain : TerrainInfo) :
  terrain_get tile = Some terrain ->
  (blocks_shots terrain = true ->
     (tile = WALL \/ tile = DAMAGED_WALL) /\ destructible terrain = true) /\
  (blocks_shots terrain = false -> tile <> WALL /\ tile <> DAMAGED_WALL).
Proof.
  destruct tile; intros [= <-]; cbn; split; intros ?; try done; auto.
Qed.

(** X: the life of a shell.  Every [update] takes one off [lifetime] and
    leaves the identity, team, owner, heading, speed, damage and radius
    alone; a destroyed shell is never revived; and a shell that is still
    alive after [n >= 1] updates had a [lifetime] above [n].  So a shell
    is alive after fewer than [lifetime] updates only. *)
Theorem shell_flight_bound `{PyRuntime} (n : nat) (sh sh' : Shell.t) (m m' : GameMap.t) :
  shell_updates n sh m = Some (sh', m') ->
  Shell.lifetime sh' = Shell.lifetime sh - Z.of_nat n /\
  Shell.id sh' = Shell.id sh /\
  Shell.angle sh' = Shell.angle sh /\
  Shell.team sh' = Shell.team sh /\
  Shell.owner_id sh' = Shell.owner_id sh /\
  Shell.speed sh' = Shell.speed sh /\
  Shell.damage sh' = Shell.damage sh /\
  Shell.radius sh' = Shell.radius sh /\
  (Shell.alive sh' = true ->
     Shell.alive sh = true /\ (n <> 0%nat -> Z.of_nat n < Shell.lifetime sh)) /\
  (n <> 0%nat -> Shell.lifetime sh <= Z.of_nat n -> Shell.alive sh' = false).
Proof.
  revert sh m. induction n as [|n IH]; intros sh m.
  { intros [= <- <-]. split_and!; try done; lia. }
  cbn [shell_updates].
  destruct (Shell.update sh m) as [[sh1 m1]|] eqn:H1; [|done].
  cbn [mbind option_bind]. intros Hrun.
  apply shell_update_fields in H1
    as (Hid & Han & Hte & How & Hsp & Hda & Hra & Hli & Hal).
  apply IH in Hrun
    as (Hli' & Hid' & Han' & Hte' & How' & Hsp' & Hda' & Hra' & Hal' & _).
  assert (Hlive : Shell.alive sh' = true ->
            Shell.alive sh = true /\
            (S n <> 0%nat -> Z.of_nat (S n) < Shell.lifetime sh)).
  { intros Ha. destruct (Hal' Ha) as [Ha1 Hn]. destruct (Hal Ha1) as [Ha0 Hl].
    split; [done|]. intros _. destruct n as [|n]; [lia|].
    specialize (Hn ltac:(done)). lia. }
  split_and!; try congruence; try lia; try done.
Qed.

Lemma shell_flight_bound_witness :
  let H := scenario_runtime in
  let sh := Shell.init 100 100 0 TEAM_1 0 1 in
  let m := GameMap.init 64 48 in
  let sh' := Shell.moved sh 112 100 88 in
  Shell.lifetime sh' = Shell.lifetime sh - Z.of_nat 2 /\
  Shell.id sh' = Shell.id sh /\
  Shell.angle sh' = Shell.angle sh /\
  Shell.team sh' = Shell.team sh /\
  Shell.owner_id sh' = Shell.owner_id sh /\
  Shell.speed sh' = Shell.speed sh /\
  Shell.damage sh' = Shell.damage sh /\
  Shell.radius sh' = Shell.radius sh /\
  (Shell.alive sh' = true ->
     Shell.alive sh = true /\ (2%nat <> 0%nat -> Z.of_nat 2 < Shell.lifetime sh)) /\
  (2%nat <> 0%nat -> Shell.lifetime sh <= Z.of_nat 2 -> Shell.alive sh' = false).
Proof.
  apply (@shell_flight_bound scenario_runtime 2
           (Shell.init 100 100 0 TEAM_1 0 1)
           (Shell.moved (Shell.init 100 100 0 TEAM_1 0 1) 112 100 88)
           (GameMap.init 64 48) (GameMap.init 64 48)).
  vm_compute. reflexivity.
Defined.

(** X: what a shell's [update] does to the map, and where a surviving
    shell is.  The heading, in radians, is not an infinity: there
    [math.cos] and [math.sin] raise, which the total [math_cos] and
    [math_sin] do not show.  On a map of the constructor's shape,
    [update] then returns as soon as the shell's new position has tile
    coordinates (and always when the shell's time is up).  The map keeps
    its shape.  Either the
    map is as it was, or the shell is destroyed and the one cell that
    changed is the cell under the shell's new position, inside the map,
    which held [WALL] or [DAMAGED_WALL] and now holds the next state of
    wear.  A shell alive afterwards left the map as it was and is over a
    cell inside the map that does not stop shells. *)
Theorem shell_update_effect `{PyRuntime} (sh : Shell.t) (m : GameMap.t) :
  GameMap.wf m ->
  PrimFloat.is_infinity (radians (Shell.angle sh)) = false ->
  let x' :=
    (Shell.x sh + math_cos (radians (Shell.angle sh)) * Shell.speed sh)%float in
  let y' :=
    (Shell.y sh + math_sin (radians (Shell.angle sh)) * Shell.speed sh)%float in
  (Shell.lifetime sh <= 1 \/ is_Some (tile_position x' y') ->
     is_Some (Shell.update sh m)) /\
  (forall sh' m',
     Shell.update sh m = Some (sh', m') ->
     Shell.x sh' = x' /\ Shell.y sh' = y' /\
     GameMap.wf m' /\
     GameMap.width m' = GameMap.width m /\
     GameMap.height m' = GameMap.height m /\
     (m' = m \/
      Shell.alive sh' = false /\
      exists tx ty c,
        tile_position x' y' = Some (tx, ty) /\
        0 <= tx < GameMap.width m /\ 0 <= ty < GameMap.height m /\
        GameMap.cell m tx ty = Some c /\
        (c = WALL \/ c = DAMAGED_WALL) /\
        GameMap.cell m' tx ty = Some (worn c) /\
        (forall x2 y2, 0 <= x2 -> 0 <= y2 -> (x2, y2) <> (tx, ty) ->
           GameMap.cell m' x2 y2 = GameMap.cell m x2 y2)) /\
     (Shell.alive sh' = true ->
        m' = m /\
        exists tx ty c,
          tile_position x' y' = Some (tx, ty) /\
          0 <= tx < GameMap.width m /\ 0 <= ty < GameMap.height m /\
          GameMap.cell m tx ty = Some c /\
          c <> WALL /\ c <> DAMAGED_WALL)).
Proof.
  intros Hwf _ x' y'. split.
  - intros Hpre. unfold Shell.update. cbv zeta. fold x' y'.
    change (Shell.lifetime (Shell.moved sh x' y' (Shell.lifetime sh - 1)))
      with (Shell.lifetime sh - 1).
    change (Shell.x (Shell.moved sh x' y' (Shell.lifetime sh - 1))) with x'.
    change (Shell.y (Shell.moved sh x' y' (Shell.lifetime sh - 1))) with y'.
    destruct (Shell.lifetime sh - 1 <=? 0) eqn:Hlife; [done|].
    destruct Hpre as [Hl|[[tx ty] ->]]; [lia|]. cbn [mbind option_bind].
    assert (Htile : is_Some (GameMap.get_tile m tx ty)).
    { destruct (decide (0 <= tx < GameMap.width m
                        /\ 0 <= ty < GameMap.height m)) as [[Hx Hy]|Hout].
      - rewrite get_tile_in by done. by apply wf_cell.
      - by rewrite get_tile_out. }
    destruct Htile as [tile ->]. cbn [mbind option_bind].
    assert (Hterrain : is_Some (terrain_get tile)) by (by destruct tile).
    destruct Hterrain as [terrain ->]. cbn [mbind option_bind].
    destruct (blocks_shots terrain).
    + destruct (destructible terrain); [|done].
      destruct (damage_tile_worn m tx ty Hwf) as (m1 & -> & _). done.
    + by destruct (_ || _).
  - intros sh' m' Hrun.
    apply shell_update_cases in Hrun
      as [(Hl & -> & ->)
         |(Hl & tx & ty & tile & terrain & Htp & Htile & Hterrain & Hcase)].
    { split_and!; try done. by left. }
    change (tile_position x' y' = Some (tx, ty)) in Htp.
    destruct (blocks_shots_kinds tile terrain Hterrain) as [Hblock Hfree].
    destruct Hcase as [(Hb & -> & Hm)|(Hb & -> & Hsh)].
    + destruct (Hblock Hb) as [Hkind Hd]. rewrite Hd in Hm.
      destruct (damage_tile_worn m tx ty Hwf)
        as (m1 & Hm1 & Hwf1 & Hw1 & Hh1 & Hout & Hin & Hrest).
      rewrite Hm1 in Hm. injection Hm as <-.
      split_and!; try done.
      destruct (decide (0 <= tx < GameMap.width m
                        /\ 0 <= ty < GameMap.height m)) as [[Hx Hy]|Hno].
      * right. split; [done|]. exists tx, ty, tile.
        rewrite get_tile_in in Htile by done.
        destruct (Hin Hx Hy tile Htile) as [Hworn _]. done.
      * left. by apply Hout.
    + destruct (Hfree Hb) as [Hn1 Hn2].
      assert (Hin : 0 <= tx < GameMap.width m /\ 0 <= ty < GameMap.height m).
      { destruct (decide (0 <= tx < GameMap.width m
                          /\ 0 <= ty < GameMap.height m)) as [|Hno]; [done|].
        rewrite get_tile_out in Htile by done. congruence. }
      destruct Hin as [Hx Hy]. rewrite get_tile_in in Htile by done.
      split_and!; try done; try (by destruct Hsh as [-> | ->]); [by left|].
      intros _. split; [done|]. by exists tx, ty, tile.
Qed.

Lemma shell_update_effect_witness :
  let H := scenario_runtime in
  let sh := Shell.init 12 24 0 TEAM_1 0 1 in
  let m := GameMap.mk 2 2 [[GRASS; GRASS]; [GRASS; WALL]] false in
  PrimFloat.is_infinity (radians (Shell.angle sh)) = false /\
  is_Some (Shell.update sh m) /\
  exists sh' m',
    Shell.update sh m = Some (sh', m') /\
    GameMap.wf m' /\
    (m' = m \/
      Shell.alive sh' = false /\
      exists tx ty c,
        tile_position 18 24 = Some (tx, ty) /\
        0 <= tx < GameMap.width m /\ 0 <= ty < GameMap.height m /\
        GameMap.cell m tx ty = Some c /\
        (c = WALL \/ c = DAMAGED_WALL) /\
        GameMap.cell m' tx ty = Some (worn c) /\
        (forall x2 y2, 0 <= x2 -> 0 <= y2 -> (x2, y2) <> (tx, ty) ->
           GameMap.cell m' x2 y2 = GameMap.cell m x2 y2)).
Proof.
  intros H sh m.
  assert (Hwf : GameMap.wf m) by (split; [reflexivity | repeat constructor]).
  assert (Hangle : PrimFloat.is_infinity (radians (Shell.angle sh)) = false)
    by reflexivity.
  destruct (@shell_update_effect scenario_runtime sh m Hwf Hangle)
    as [Htot Heff].
  split; [exact Hangle|]. split.
  - apply Htot. right. vm_compute. eauto.
  - eexists _, _. split; [vm_compute; reflexivity|].
    destruct (Heff _ _ eq_refl) as (_ & _ & Hwf' & _ & _ & Hmap & _).
    split; [exact Hwf'|]. exact Hmap.
Defined.


(** ** Tanks *)

Lemma tank_update_fields (tk : Tank.t) :
  Tank.id (Tank.update tk) = Tank.id tk /\
  Tank.x (Tank.update tk) = Tank.x tk /\
  Tank.y (Tank.update tk) = Tank.y tk /\
  Tank.alive (Tank.update tk) = Tank.alive tk /\
  Tank.team (Tank.update tk) = Tank.team tk /\
  Tank.angle (Tank.update tk) = Tank.angle tk /\
  Tank.resources (Tank.update tk) = Tank.resources tk /\
  Tank.speed (Tank.update tk) = Tank.speed tk /\
  Tank.size (Tank.update tk) = Tank.size tk /\
  Tank.has_boat (Tank.update tk) = Tank.has_boat tk /\
  Tank.fire_rate (Tank.update tk) = Tank.fire_rate tk /\
  Tank.fire_cooldown (Tank.update tk) =
    (if 0 <? Tank.fire_cooldown tk then Tank.fire_cooldown tk - 1
     else Tank.fire_cooldown tk).
Proof.
  unfold Tank.update.
  destruct (0 <? Tank.fire_cooldown tk); cbn;
    destruct (0 <? Tank.lgm_respawn_timer tk); cbn; done.
Qed.

Lemma tank_updates_fields (k : nat) (tk : Tank.t) :
  Tank.id (tank_updates k tk) = Tank.id tk /\
  Tank.x (tank_updates k tk) = Tank.x tk /\
  Tank.y (tank_updates k tk) = Tank.y tk /\
  Tank.alive (tank_updates k tk) = Tank.alive tk /\
  Tank.team (tank_updates k tk) = Tank.team tk /\
  Tank.angle (tank_updates k tk) = Tank.angle tk /\
  Tank.resources (tank_updates k tk) = Tank.resources tk /\
  Tank.size (tank_updates k tk) = Tank.size tk /\
  Tank.fire_rate (tank_updates k tk) = Tank.fire_rate tk /\
  Tank.fire_cooldown (tank_updates k tk) =
    (if 0 <? Tank.fire_cooldown tk
     then Z.max 0 (Tank.fire_cooldown tk - Z.of_nat k)
     else Tank.fire_cooldown tk).
Proof.
  induction k as [|k IH].
  { cbn. split_and!; try done. destruct (0 <? Tank.fire_cooldown tk) eqn:E; lia. }
  unfold tank_updates in *.
  change (Nat.iter (S k) Tank.update tk)
    with (Tank.update (Nat.iter k Tank.update tk)).
  destruct IH as (? & ? & ? & ? & ? & ? & ? & ? & ? & Hcd).
  destruct (tank_update_fields (Nat.iter k Tank.update tk))
    as (? & ? & ? & ? & ? & ? & ? & ? & ? & ? & ? & Hcd').
  split_and!; try congruence.
  rewrite Hcd', Hcd.
  destruct (0 <? Tank.fire_cooldown tk) eqn:E;
    [destruct (0 <? 0 `max` (Tank.fire_cooldown tk - Z.of_nat k)) eqn:E2;
     lia|].
  rewrite E. done.
Qed.

(** X: the rate of fire.  After a shot, [fire] returns [None] and changes
    nothing for as long as fewer than [fire_rate] updates have passed;
    from then on the next [fire] succeeds (while shells are left), takes
    one more shell and builds the shell with the next free id. *)
Theorem tank_rate_of_fire `{PyRuntime} (tk tk1 : Tank.t) (n n1 : Z)
    (sh : Shell.t) (k : nat) (n2 : Z) :
  Tank.fire tk n = (tk1, n1, Some sh) ->
  let tkk := tank_updates k tk1 in
  (Z.of_nat k < Tank.fire_rate tk -> Tank.fire tkk n2 = (tkk, n2, None)) /\
  (Tank.fire_rate tk <= Z.of_nat k ->
   1 < Resources.shells (Tank.resources tk) ->
   exists tk2 sh2,
     Tank.fire tkk n2 = (tk2, n2 + 1, Some sh2) /\
     Resources.shells (Tank.resources tk2)
       = Resources.shells (Tank.resources tk) - 2 /\
     Tank.fire_cooldown tk2 = Tank.fire_rate tk /\
     Shell.id sh2 = n2 /\ Shell.owner_id sh2 = Tank.id tk /\
     Shell.team sh2 = Tank.team tk).
Proof.
  intros Hfire tkk.
  assert (H1 : Tank.fire_cooldown tk1 = Tank.fire_rate tk /\
               Tank.fire_rate tk1 = Tank.fire_rate tk /\
               Tank.id tk1 = Tank.id tk /\ Tank.team tk1 = Tank.team tk /\
               Resources.shells (Tank.resources tk1)
                 = Resources.shells (Tank.resources tk) - 1).
  { unfold Tank.fire in Hfire.
    destruct ((0 <? Tank.fire_cooldown tk)
              || (Resources.shells (Tank.resources tk) <=? 0)); [done|].
    injection Hfire as <- _ _. done. }
  destruct H1 as (Hcd1 & Hfr1 & Hid1 & Hteam1 & Hsh1).
  destruct (tank_updates_fields k tk1)
    as (Hid & _ & _ & _ & Hteam & _ & Hres & _ & Hfr & Hcd).
  fold tkk in Hid, Hteam, Hres, Hfr, Hcd. split.
  - intros Hk. unfold Tank.fire.
    assert ((0 <? Tank.fire_cooldown tkk) = true) as ->; [|done].
    rewrite Hcd, Hcd1. destruct (0 <? Tank.fire_rate tk) eqn:E; lia.
  - intros Hk Hshells. unfold Tank.fire.
    assert ((0 <? Tank.fire_cooldown tkk) = false) as ->.
    { rewrite Hcd, Hcd1. destruct (0 <? Tank.fire_rate tk) eqn:E; lia. }
    assert ((Resources.shells (Tank.resources tkk) <=? 0) = false) as ->.
    { rewrite Hres. lia. }
    cbn [orb]. eexists _, _. split; [reflexivity|]. cbn.
    rewrite Hres, Hfr, Hid, Hteam. split_and!; try done; lia.
Qed.

Lemma tank_rate_of_fire_witness :
  let H := scenario_runtime in
  let tk := Tank.init 100 100 TEAM_1 0 in
  let tkk := tank_updates 10 (Tank.fire tk 1).1.1 in
  (Z.of_nat 10 < Tank.fire_rate tk -> Tank.fire tkk 2 = (tkk, 2, None)) /\
  (Tank.fire_rate tk <= Z.of_nat 10 ->
   1 < Resources.shells (Tank.resources tk) ->
   exists tk2 sh2,
     Tank.fire tkk 2 = (tk2, 2 + 1, Some sh2) /\
     Resources.shells (Tank.resources tk2)
       = Resources.shells (Tank.resources tk) - 2 /\
     Tank.fire_cooldown tk2 = Tank.fire_rate tk /\
     Shell.id sh2 = 2 /\ Shell.owner_id sh2 = Tank.id tk /\
     Shell.team sh2 = Tank.team tk).
Proof.
  apply (@tank_rate_of_fire scenario_runtime
           (Tank.init 100 100 TEAM_1 0)
           (Tank.fire (Tank.init 100 100 TEAM_1 0) 1).1.1 1 2
           (Shell.init 120 100 0 TEAM_1 0 1) 10 2).
  vm_compute. reflexivity.
Defined.

Section TankMoves.
Context `{PyRuntime}.

(** What [_can_move_to] has checked when it answers [True]. *)
Lemma can_move_to_true (tk : Tank.t) (x' y' : float) (m : GameMap.t) :
  Tank._can_move_to tk x' y' m = Some true ->
  PrimFloat.ltb x' (float_of_Z (Tank.size tk)) = false /\
  PrimFloat.ltb (float_of_Z (GameMap.pixel_width m - Tank.size tk)) x'
    = false /\
  PrimFloat.ltb y' (float_of_Z (Tank.size tk)) = false /\
  PrimFloat.ltb (float_of_Z (GameMap.pixel_height m - Tank.size tk)) y'
    = false /\
  exists tx ty c i,
    tile_position x' y' = Some (tx, ty) /\
    0 <= tx < GameMap.width m /\ 0 <= ty < GameMap.height m /\
    GameMap.cell m tx ty = Some c /\
    terrain_get c = Some i /\
    (passable i = true \/ (c = DEEP_WATER /\ Tank.has_boat tk = true)).
Proof.
  unfold Tank._can_move_to.
  destruct (PrimFloat.ltb x' _) eqn:E1; [done|].
  destruct (PrimFloat.ltb _ x') eqn:E2; [done|]. cbn [orb].
  destruct (PrimFloat.ltb y' _) eqn:E3; [done|].
  destruct (PrimFloat.ltb _ y') eqn:E4; [done|]. cbn [orb].
  destruct (tile_position x' y') as [[tx ty]|] eqn:Htp; [|done].
  cbn [mbind option_bind].
  destruct (GameMap.get_tile m tx ty) as [c|] eqn:Htile; [|done].
  cbn [mbind option_bind].
  destruct (terrain_get c) as [i|] eqn:Hterrain; [|done].
  cbn [mbind option_bind]. intros Hok.
  split_and!; try done. exists tx, ty, c, i.
  assert (Hpass : passable i = true \/
                  (c = DEEP_WATER /\ Tank.has_boat tk = true)).
  { destruct (passable i); [by left|]. cbn [negb] in Hok. right.
    destruct (bool_decide (c = DEEP_WATER)) eqn:Hc;
      destruct (Tank.has_boat tk); try done.
    split; [|done]. by apply bool_decide_eq_true in Hc. }
  assert (Hkind : c <> WALL).
  { intros ->. injection Hterrain as <-. by destruct Hpass as [?|[? _]]. }
  destruct (decide (0 <= tx < GameMap.width m /\ 0 <= ty < GameMap.height m))
    as [[Hx Hy]|Hout].
  - rewrite get_tile_in in Htile by done. done.
  - rewrite get_tile_out in Htile by done. congruence.
Qed.

End TankMoves.

(** The two outcomes of a move. *)
Lemma tank_move_outcome `{PyRuntime} (tk tk' : Tank.t) (m : GameMap.t) :
  Tank.move_forward tk m = Some tk' \/ Tank.move_backward tk m = Some tk' ->
  tk' = tk \/
  exists x' y' tx ty c i,
    tk' = Tank.move_to tk x' y' /\
    PrimFloat.ltb x' (float_of_Z (Tank.size tk)) = false /\
    PrimFloat.ltb (float_of_Z (GameMap.pixel_width m - Tank.size tk)) x'
      = false /\
    PrimFloat.ltb y' (float_of_Z (Tank.size tk)) = false /\
    PrimFloat.ltb (float_of_Z (GameMap.pixel_height m - Tank.size tk)) y'
      = false /\
    tile_position x' y' = Some (tx, ty) /\
    0 <= tx < GameMap.width m /\ 0 <= ty < GameMap.height m /\
    GameMap.cell m tx ty = Some c /\
    terrain_get c = Some i /\
    (passable i = true \/ (c = DEEP_WATER /\ Tank.has_boat tk = true)) /\
    c <> WALL /\ c <> DAMAGED_WALL.
Proof.
  assert (Hcase : forall x' y',
            (ok ← Tank._can_move_to tk x' y' m;
             if ok : bool then Some (Tank.move_to tk x' y') else Some tk)
              = Some tk' ->
            tk' = tk \/
            exists x' y' tx ty c i,
              tk' = Tank.move_to tk x' y' /\
              PrimFloat.ltb x' (float_of_Z (Tank.size tk)) = false /\
              PrimFloat.ltb
                (float_of_Z (GameMap.pixel_width m - Tank.size tk)) x'
                = false /\
              PrimFloat.ltb y' (float_of_Z (Tank.size tk)) = false /\
              PrimFloat.ltb
                (float_of_Z (GameMap.pixel_height m - Tank.size tk)) y'
                = false /\
              tile_position x' y' = Some (tx, ty) /\
              0 <= tx < GameMap.width m /\ 0 <= ty < GameMap.height m /\
              GameMap.cell m tx ty = Some c /\
              terrain_get c = Some i /\
              (passable i = true \/
               (c = DEEP_WATER /\ Tank.has_boat tk = true)) /\
              c <> WALL /\ c <> DAMAGED_WALL).
  { intros x' y'.
    destruct (Tank._can_move_to tk x' y' m) as [[|]|] eqn:Hok; [| |done].
    - cbn [mbind option_bind]. intros [= <-]. right.
      destruct (can_move_to_true tk x' y' m Hok)
        as (? & ? & ? & ? & tx & ty & c & i & ? & ? & ? & ? & Hi & Hp).
      exists x', y', tx, ty, c, i. split_and!; try done; try lia.
      + intros ->. injection Hi as <-. by destruct Hp as [?|[? _]].
      + intros ->. injection Hi as <-. by destruct Hp as [?|[? _]].
    - cbn [mbind option_bind]. intros [= <-]. by left. }
  intros [Hmove|Hmove]; revert Hmove;
    [unfold Tank.move_forward | unfold Tank.move_backward];
    (destruct (Tank._get_terrain_speed tk m) as [ts|]; [|done]);
    cbn [mbind option_bind];
    (destruct (PrimFloat.leb ts 0); [intros [= <-]; by left|]);
    apply Hcase.
Qed.

(** X: a move is all or nothing, and never ends on ground the tank
    cannot stand on.  If [move_forward] or [move_backward] returns, the
    tank is either exactly as it was, or only [x], [y] and [is_moving]
    changed and the new position keeps the tank's radius inside the map
    and lies over a cell inside the map whose terrain is passable, or is
    deep water while the tank has a boat. *)
Theorem tank_move_safety `{PyRuntime} (tk tk' : Tank.t) (m : GameMap.t) :
  Tank.move_forward tk m = Some tk' \/ Tank.move_backward tk m = Some tk' ->
  tk' = tk \/
  exists x' y' tx ty c i,
    tk' = Tank.move_to tk x' y' /\
    PrimFloat.ltb x' (float_of_Z (Tank.size tk)) = false /\
    PrimFloat.ltb (float_of_Z (GameMap.pixel_width m - Tank.size tk)) x'
      = false /\
    PrimFloat.ltb y' (float_of_Z (Tank.size tk)) = false /\
    PrimFloat.ltb (float_of_Z (GameMap.pixel_height m - Tank.size tk)) y'
      = false /\
    tile_position x' y' = Some (tx, ty) /\
    0 <= tx < GameMap.width m /\ 0 <= ty < GameMap.height m /\
    GameMap.cell m tx ty = Some c /\
    terrain_get c = Some i /\
    (passable i = true \/ (c = DEEP_WATER /\ Tank.has_boat tk = true)) /\
    c <> WALL /\ c <> DAMAGED_WALL.
Proof. apply tank_move_outcome. Qed.

Lemma tank_move_safety_witness :
  let H := scenario_runtime in
  let tk := Tank.init 100 100 TEAM_1 0 in
  let m := GameMap.init 64 48 in
  let tk' := Tank.move_to tk (100 + 1 * 2 * 0.8)%float 100 in
  tk' = tk \/
  exists x' y' tx ty c i,
    tk' = Tank.move_to tk x' y' /\
    PrimFloat.ltb x' (float_of_Z (Tank.size tk)) = false /\
    PrimFloat.ltb (float_of_Z (GameMap.pixel_width m - Tank.size tk)) x'
      = false /\
    PrimFloat.ltb y' (float_of_Z (Tank.size tk)) = false /\
    PrimFloat.ltb (float_of_Z (GameMap.pixel_height m - Tank.size tk)) y'
      = false /\
    tile_position x' y' = Some (tx, ty) /\
    0 <= tx < GameMap.width m /\ 0 <= ty < GameMap.height m /\
    GameMap.cell m tx ty = Some c /\
    terrain_get c = Some i /\
    (passable i = true \/ (c = DEEP_WATER /\ Tank.has_boat tk = true)) /\
    c <> WALL /\ c <> DAMAGED_WALL.
Proof.
  apply (@tank_move_safety scenario_runtime
           (Tank.init 100 100 TEAM_1 0)
           (Tank.move_to (Tank.init 100 100 TEAM_1 0) (100 + 1 * 2 * 0.8)%float 100)
           (GameMap.init 64 48)).
  left. vm_compute. reflexivity.
Defined.

Lemma tank_kept_refl (tk : Tank.t) : tank_kept tk tk.
Proof. unfold tank_kept. split_and!; try done; try lia; auto. Qed.

Lemma tank_kept_trans (a b c : Tank.t) :
  tank_kept a b -> tank_kept b c -> tank_kept a c.
Proof.
  unfold tank_kept.
  intros (? & ? & ? & ? & Hr1 & ? & ? & ? & ? & ? & ? & Hc1)
         (? & ? & ? & ? & Hr2 & ? & ? & ? & ? & ? & ? & Hc2).
  split_and!; try congruence; try tauto.
  intros Hcd Hfr. specialize (Hc1 Hcd Hfr).
  rewrite Hr1 in Hc2. specialize (Hc2 ltac:(lia) Hfr). lia.
Qed.

Lemma tank_kept_move (tk : Tank.t) (x' y' : float) :
  tank_kept tk (Tank.move_to tk x' y').
Proof. unfold tank_kept. cbn. split_and!; try done; try lia; auto. Qed.

Lemma tank_call_kept `{PyRuntime} (tk tk' : Tank.t) (n n' : Z)
    (c : TankCall) :
  tank_call (tk, n) c = Some (tk', n') -> tank_kept tk tk' /\ n <= n'.
Proof.
  destruct c as [|m|m| | |amount| |b]; cbn [tank_call].
  - intros [= <- <-]. split; [|lia].
    destruct (tank_update_fields tk)
      as (? & ? & ? & ? & ? & ? & Hres & ? & ? & ? & ? & Hcd).
    unfold tank_kept. rewrite Hres, Hcd.
    split_and!; try congruence; try done;
      intros ? ?; destruct (0 <? Tank.fire_cooldown tk) eqn:E; lia.
  - destruct (Tank.move_forward tk m) as [tk1|] eqn:Hm; [|done].
    cbn [mbind option_bind]. intros [= <- <-]. split; [|lia].
    destruct (tank_move_outcome tk tk1 m (or_introl Hm))
      as [->|(x' & y' & ? & ? & ? & ? & -> & _)];
      [apply tank_kept_refl | apply tank_kept_move].
  - destruct (Tank.move_backward tk m) as [tk1|] eqn:Hm; [|done].
    cbn [mbind option_bind]. intros [= <- <-]. split; [|lia].
    destruct (tank_move_outcome tk tk1 m (or_intror Hm))
      as [->|(x' & y' & ? & ? & ? & ? & -> & _)];
      [apply tank_kept_refl | apply tank_kept_move].
  - unfold Tank.fire.
    destruct ((0 <? Tank.fire_cooldown tk)
              || (Resources.shells (Tank.resources tk) <=? 0)) eqn:E.
    + intros [= <- <-]. split; [apply tank_kept_refl | lia].
    + intros [= <- <-]. split; [|lia]. unfold tank_kept. cbn.
      split_and!; try done; try lia; auto.
  - unfold Tank.place_mine.
    destruct (Resources.mines (Tank.resources tk) <=? 0) eqn:E.
    + intros [= <- <-]. split; [apply tank_kept_refl | lia].
    + intros [= <- <-]. split; [|lia]. unfold tank_kept. cbn.
      split_and!; try done; try lia; auto.
  - intros [= <- <-]. split; [|lia]. unfold tank_kept, Tank.take_damage.
    cbn. destruct (Resources.armor (Tank.resources tk) - amount <=? 0) eqn:E;
      cbn; split_and!; try done; try lia.
  - intros [= <- <-]. split; [|lia]. unfold tank_kept, Tank.resupply. cbn.
    unfold Config.TANK_MAX_ARMOR, Config.TANK_MAX_SHELLS,
      Config.TANK_MAX_MINES.
    split_and!; try done; try lia;
      try (intros Ha Hl; specialize (Ha Hl); lia).
  - destruct (Base.resupply_tank b tk) as [[b' tk1] flag] eqn:Hr.
    intros [= <- <-]. split; [|lia]. revert Hr. unfold Base.resupply_tank.
    destruct (negb (bool_decide (Tank.team tk = Base.team b))).
    { intros [= _ <- _]. apply tank_kept_refl. }
    unfold Config.TANK_MAX_ARMOR, Config.TANK_MAX_SHELLS,
      Config.TANK_MAX_MINES. cbn.
    destruct ((Resources.armor (Tank.resources tk) <? 8)
              && (0 <? Base.armor b)) eqn:E1; cbn;
      destruct ((Resources.shells (Tank.resources tk) <? 40)
                && (0 <? Base.shells b)) eqn:E2; cbn;
      destruct ((Resources.mines (Tank.resources tk) <? 40)
                && (0 <? Base.mines b)) eqn:E3; cbn;
      intros [= _ <- _]; unfold tank_kept; cbn;
      (split_and!; try done; try lia;
       try (intros Ha Hl; specialize (Ha Hl); lia)).
Qed.

(** X: what holds of a tank over any sequence of calls.  Whatever
    sequence of [update], [move_forward], [move_backward], [fire],
    [place_mine], [take_damage], [resupply] and [Base.resupply_tank] is
    made (with any amounts, maps and bases): the id, team, size, speed,
    fire rate, boat and heading stay; a destroyed tank stays destroyed;
    the shells and the mines, once non-negative, never go below zero;
    a tank that is alive keeps an armor above zero if it started so; the
    cooldown stays between zero and the larger of its start and the
    fire rate; and [Entity._next_id] never decreases. *)
Theorem tank_calls_keep `{PyRuntime} (cs : list TankCall)
    (tk tk' : Tank.t) (n n' : Z) :
  tank_calls (tk, n) cs = Some (tk', n') ->
  n <= n' /\
  Tank.id tk' = Tank.id tk /\
  Tank.team tk' = Tank.team tk /\
  Tank.size tk' = Tank.size tk /\
  Tank.speed tk' = Tank.speed tk /\
  Tank.fire_rate tk' = Tank.fire_rate tk /\
  Tank.has_boat tk' = Tank.has_boat tk /\
  Tank.angle tk' = Tank.angle tk /\
  (Tank.alive tk' = true -> Tank.alive tk = true) /\
  (0 <= Resources.shells (Tank.resources tk) ->
   0 <= Resources.shells (Tank.resources tk')) /\
  (0 <= Resources.mines (Tank.resources tk) ->
   0 <= Resources.mines (Tank.resources tk')) /\
  ((Tank.alive tk = true -> 0 < Resources.armor (Tank.resources tk)) ->
   Tank.alive tk' = true -> 0 < Resources.armor (Tank.resources tk')) /\
  (0 <= Tank.fire_cooldown tk -> 0 <= Tank.fire_rate tk ->
   0 <= Tank.fire_cooldown tk'
     <= Z.max (Tank.fire_cooldown tk) (Tank.fire_rate tk)).
Proof.
  intros Hrun.
  enough (Hk : tank_kept tk tk' /\ n <= n') by (destruct Hk; by split).
  revert tk n Hrun. induction cs as [|c cs IH]; intros tk n.
  { intros [= <- <-]. split; [apply tank_kept_refl | lia]. }
  cbn [tank_calls].
  destruct (tank_call (tk, n) c) as [[tk1 n1]|] eqn:Hc; [|done].
  cbn [mbind option_bind]. intros Hrun.
  destruct (tank_call_kept _ _ _ _ _ Hc) as [Hk1 Hn1].
  destruct (IH _ _ Hrun) as [Hk2 Hn2].
  split; [by eapply tank_kept_trans | lia].
Qed.

Lemma tank_calls_keep_witness :
  let H := scenario_runtime in
  let tk := Tank.init 100 100 TEAM_1 0 in
  let cs := [CallFire; CallUpdate; CallMoveForward (GameMap.init 64 48);
             CallPlaceMine; CallTakeDamage 3; CallResupply;
             CallBaseResupply (Base.init 100 100 TEAM_1 1)] in
  exists tk' n',
    tank_calls (tk, 2) cs = Some (tk', n') /\
    2 <= n' /\
    Tank.id tk' = Tank.id tk /\
    (Tank.alive tk' = true -> Tank.alive tk = true) /\
    (0 <= Resources.shells (Tank.resources tk) ->
     0 <= Resources.shells (Tank.resources tk')) /\
    ((Tank.alive tk = true -> 0 < Resources.armor (Tank.resources tk)) ->
     Tank.alive tk' = true -> 0 < Resources.armor (Tank.resources tk')).
Proof.
  intros H tk cs.
  destruct (tank_calls (tk, 2) cs) as [[tk' n']|] eqn:Hrun;
    [|vm_compute in Hrun; discriminate].
  exists tk', n'. split; [reflexivity|].
  destruct (@tank_calls_keep scenario_runtime cs tk tk' 2 n' Hrun)
    as (Hn & Hid & _ & _ & _ & _ & _ & _ & Hal & Hsh & _ & Har & _).
  split_and!; assumption.
Defined.

(** ** The targeting of a pillbox *)



Section Targeting.
Context `{PyRuntime}.
Variables (gs : GameState.t) (pb : Pillbox.t).






End Targeting.



Section PillboxUpdate.
Context `{PyRuntime}.



End PillboxUpdate.




(** ** Bases *)

(** X: a resupply moves supplies, it makes none.  Whatever the base and
    the tank: what the tank gains of armor, shells and mines is what the
    base loses, at most 1, 5 and 2 of them in one call; the stock of a
    base never rises and, once non-negative, stays so; nothing but the
    three stocks of the base and the resources of the tank changes; and
    the flag returned is [True] exactly when something moved (never for
    a tank of another team). *)
Theorem base_resupply_conserves (b : Base.t) (tk : Tank.t) :
  let '(b', tk', flag) := Base.resupply_tank b tk in
  let r := Tank.resources tk in
  let r' := Tank.resources tk' in
  Base.armor b' + Resources.armor r' = Base.armor b + Resources.armor r /\
  Base.shells b' + Resources.shells r' = Base.shells b + Resources.shells r /\
  Base.mines b' + Resources.mines r' = Base.mines b + Resources.mines r /\
  Resources.wood r' = Resources.wood r /\
  0 <= Resources.armor r' - Resources.armor r <= 1 /\
  0 <= Resources.shells r' - Resources.shells r <= 5 /\
  0 <= Resources.mines r' - Resources.mines r <= 2 /\
  (0 <= Base.armor b -> 0 <= Base.armor b') /\
  (0 <= Base.shells b -> 0 <= Base.shells b') /\
  (0 <= Base.mines b -> 0 <= Base.mines b') /\
  b' = Base.set_stock b (Base.shells b') (Base.mines b') (Base.armor b') /\
  tk' = Tank.set_resources tk r' /\
  (flag = true <->
     Resources.armor r < Resources.armor r'
     \/ Resources.shells r < Resources.shells r'
     \/ Resources.mines r < Resources.mines r') /\
  (flag = false -> b' = b /\ tk' = tk) /\
  (Tank.team tk <> Base.team b -> flag = false).
Proof.
  unfold Base.resupply_tank.
  destruct (bool_decide (Tank.team tk = Base.team b)) eqn:Hteam; cbn [negb].
  2:{ cbn. split_and!; try done; try lia; try (by destruct b);
        try (by destruct tk); try (split; [done|lia]). }
  apply bool_decide_eq_true in Hteam.
  unfold Config.TANK_MAX_ARMOR, Config.TANK_MAX_SHELLS, Config.TANK_MAX_MINES.
  destruct tk as [i x y al te an [ra rs rm rw] sp si mv bo ld lp lt cp fc fr],
    b as [bi bx by_ bal bte bh bsi bs bm ba bt]. cbn in *.
  destruct ((ra <? 8) && (0 <? ba)) eqn:E1; cbn;
    destruct ((rs <? 40) && (0 <? bs)) eqn:E2; cbn;
    destruct ((rm <? 40) && (0 <? bm)) eqn:E3; cbn;
    split_and!; try done; try lia;
    try (unfold Base.set_stock; cbn; f_equal; lia);
    try (split; [intros _; lia | done]);
    try (split; [done | lia]).
Qed.

Lemma base_update_fields (b : Base.t) :
  let b' := Base.update b in
  Base.id b' = Base.id b /\ Base.x b' = Base.x b /\ Base.y b' = Base.y b /\
  Base.alive b' = Base.alive b /\ Base.team b' = Base.team b /\
  Base.health b' = Base.health b /\ Base.size b' = Base.size b /\
  (1 < Base.regen_timer b ->
     Base.shells b' = Base.shells b /\ Base.mines b' = Base.mines b /\
     Base.armor b' = Base.armor b /\
     Base.regen_timer b' = Base.regen_timer b - 1) /\
  (Base.regen_timer b <= 1 ->
     Base.shells b' = Z.min 40 (Base.shells b + 1) /\
     Base.mines b' = Z.min 20 (Base.mines b + 1) /\
     Base.armor b' = Z.min 16 (Base.armor b + 1) /\
     Base.regen_timer b' = Config.BASE_RESUPPLY_RATE).
Proof.
  unfold Base.update. destruct (Base.regen_timer b - 1 <=? 0) eqn:E; cbn;
    split_and!; try done; intros; lia.
Qed.

(** X: the supply clock of a base.  A base whose timer stands at [T >= 1]
    keeps its stocks for [T - 1] frames, the timer counting down; the
    [T]-th frame adds one shell, one mine and one armor, up to the caps
    of 40, 20 and 16, and restarts the timer at [BASE_RESUPPLY_RATE];
    over any number of frames a stock within its cap stays within it and
    never falls, and the timer stays between 1 and the larger of [T] and
    [BASE_RESUPPLY_RATE].  The identity, team, position and health of the
    base are never touched. *)
Theorem base_regen_period (b : Base.t) (k : nat) :
  1 <= Base.regen_timer b ->
  let b' := base_updates k b in
  (Z.of_nat k < Base.regen_timer b ->
     Base.shells b' = Base.shells b /\ Base.mines b' = Base.mines b /\
     Base.armor b' = Base.armor b /\
     Base.regen_timer b' = Base.regen_timer b - Z.of_nat k) /\
  (Z.of_nat k = Base.regen_timer b ->
     Base.shells b' = Z.min 40 (Base.shells b + 1) /\
     Base.mines b' = Z.min 20 (Base.mines b + 1) /\
     Base.armor b' = Z.min 16 (Base.armor b + 1) /\
     Base.regen_timer b' = Config.BASE_RESUPPLY_RATE) /\
  (Base.shells b <= 40 -> Base.shells b <= Base.shells b' <= 40) /\
  (Base.mines b <= 20 -> Base.mines b <= Base.mines b' <= 20) /\
  (Base.armor b <= 16 -> Base.armor b <= Base.armor b' <= 16) /\
  1 <= Base.regen_timer b'
    <= Z.max (Base.regen_timer b) Config.BASE_RESUPPLY_RATE /\
  Base.id b' = Base.id b /\ Base.team b' = Base.team b /\
  Base.x b' = Base.x b /\ Base.y b' = Base.y b /\
  Base.health b' = Base.health b /\ Base.alive b' = Base.alive b.
Proof.
  intros HT. cbv zeta. unfold base_updates, Config.BASE_RESUPPLY_RATE.
  induction k as [|k IH].
  { cbn. split_and!; try done; intros; lia. }
  change (Nat.iter (S k) Base.update b)
    with (Base.update (Nat.iter k Base.update b)).
  destruct IH as (Hlt & Heq & Hs & Hm & Ha & Ht & Hid & Hte & Hx & Hy & Hh
                  & Hal).
  destruct (base_update_fields (Nat.iter k Base.update b))
    as (Hid' & Hx' & Hy' & Hal' & Hte' & Hh' & _ & Hkeep & Hadd).
  cbv zeta in Hid', Hx', Hy', Hal', Hte', Hh', Hkeep, Hadd.
  unfold Config.BASE_RESUPPLY_RATE in Hadd.
  set (bk := Nat.iter k Base.update b) in *.
  rewrite Nat2Z.inj_succ.
  split_and!; try congruence.
  - intros Hk. clear Heq Hs Hm Ha Hadd.
    assert (Hk' : Z.of_nat k < Base.regen_timer b) by (clear -Hk; lia).
    destruct (Hlt Hk') as (E1 & E2 & E3 & E4). clear Hlt.
    assert (Hc : 1 < Base.regen_timer bk) by (clear -Hk E4; lia).
    destruct (Hkeep Hc) as (F1 & F2 & F3 & F4). clear Hkeep.
    rewrite F1, F2, F3, F4, E1, E2, E3, E4.
    split_and!; try done. clear. lia.
  - intros Hk. clear Heq Hs Hm Ha Hkeep.
    assert (Hk' : Z.of_nat k < Base.regen_timer b) by (clear -Hk; lia).
    destruct (Hlt Hk') as (E1 & E2 & E3 & E4). clear Hlt.
    assert (Hc : Base.regen_timer bk <= 1) by (clear -Hk E4; lia).
    destruct (Hadd Hc) as (F1 & F2 & F3 & F4). clear Hadd.
    rewrite F1, F2, F3, F4, E1, E2, E3. done.
  - intros Hc. specialize (Hs Hc). clear Hlt Heq Hm Ha Ht.
    destruct (Z_lt_le_dec 1 (Base.regen_timer bk)) as [Hc1|Hc1];
      [destruct (Hkeep Hc1) as (F1 & _)|destruct (Hadd Hc1) as (F1 & _)];
      rewrite F1; clear -Hs Hc; lia.
  - intros Hc. specialize (Hm Hc). clear Hlt Heq Hs Ha Ht.
    destruct (Z_lt_le_dec 1 (Base.regen_timer bk)) as [Hc1|Hc1];
      [destruct (Hkeep Hc1) as (_ & F1 & _)
      |destruct (Hadd Hc1) as (_ & F1 & _)];
      rewrite F1; clear -Hm Hc; lia.
  - intros Hc. specialize (Ha Hc). clear Hlt Heq Hs Hm Ht.
    destruct (Z_lt_le_dec 1 (Base.regen_timer bk)) as [Hc1|Hc1];
      [destruct (Hkeep Hc1) as (_ & _ & F1 & _)
      |destruct (Hadd Hc1) as (_ & _ & F1 & _)];
      rewrite F1; clear -Ha Hc; lia.
  - clear Hlt Heq Hs Hm Ha.
    destruct (Z_lt_le_dec 1 (Base.regen_timer bk)) as [Hc1|Hc1];
      [destruct (Hkeep Hc1) as (_ & _ & _ & F1)
      |destruct (Hadd Hc1) as (_ & _ & _ & F1)];
      rewrite F1; clear -Ht Hc1 HT; lia.
  - clear Hlt Heq Hs Hm Ha.
    destruct (Z_lt_le_dec 1 (Base.regen_timer bk)) as [Hc1|Hc1];
      [destruct (Hkeep Hc1) as (_ & _ & _ & F1)
      |destruct (Hadd Hc1) as (_ & _ & _ & F1)];
      rewrite F1; clear -Ht Hc1 HT; lia.
Qed.

Lemma base_regen_period_witness :
  let b := Base.init 200 200 TEAM_1 0 in
  let b' := base_updates 1200 b in
  (Z.of_nat 1200 < Base.regen_timer b ->
     Base.shells b' = Base.shells b /\ Base.mines b' = Base.mines b /\
     Base.armor b' = Base.armor b /\
     Base.regen_timer b' = Base.regen_timer b - Z.of_nat 1200) /\
  (Z.of_nat 1200 = Base.regen_timer b ->
     Base.shells b' = Z.min 40 (Base.shells b + 1) /\
     Base.mines b' = Z.min 20 (Base.mines b + 1) /\
     Base.armor b' = Z.min 16 (Base.armor b + 1) /\
     Base.regen_timer b' = Config.BASE_RESUPPLY_RATE) /\
  (Base.shells b <= 40 -> Base.shells b <= Base.shells b' <= 40) /\
  (Base.mines b <= 20 -> Base.mines b <= Base.mines b' <= 20) /\
  (Base.armor b <= 16 -> Base.armor b <= Base.armor b' <= 16) /\
  1 <= Base.regen_timer b'
    <= Z.max (Base.regen_timer b) Config.BASE_RESUPPLY_RATE /\
  Base.id b' = Base.id b /\ Base.team b' = Base.team b /\
  Base.x b' = Base.x b /\ Base.y b' = Base.y b /\
  Base.health b' = Base.health b /\ Base.alive b' = Base.alive b.
Proof.
  apply (base_regen_period (Base.init 200 200 TEAM_1 0) 1200).
  vm_compute. discriminate.
Defined.

(** ** The camera *)

Lemma clamp_range (bound c : float) :
  PrimFloat.ltb (py_max 0 (py_min bound c)) 0 = false /\
  (PrimFloat.ltb bound 0 = false ->
   PrimFloat.ltb bound (py_max 0 (py_min bound c)) = false) /\
  (bound = 0%float -> py_max 0 (py_min bound c) = 0%float).
Proof.
  unfold py_max, py_min.
  destruct (PrimFloat.ltb c bound) eqn:E1.
  - destruct (PrimFloat.ltb 0 c) eqn:E2.
    + split_and!.
      * by apply ltb_asym.
      * intros _. by apply ltb_asym.
      * intros ->. by rewrite (ltb_asym _ _ E1) in E2.
    + split_and!; [apply ltb_irrefl|done|done].
  - destruct (PrimFloat.ltb 0 bound) eqn:E2.
    + split_and!.
      * by apply ltb_asym.
      * intros _. apply ltb_irrefl.
      * intros ->. by rewrite ltb_irrefl in E2.
    + split_and!; [apply ltb_irrefl|done|done].
Qed.

(** X: the camera stays on the map.  With a player tank in the store,
    [_update_camera] moves nothing but the camera and leaves it with
    neither coordinate below zero, and with neither above the largest
    offset that keeps the window on the map (when that offset is not
    negative).  On a map exactly as large as the window, as the
    configured one is, the camera is put at the origin whatever the
    position of the player.  Without a player tank nothing changes. *)
Theorem camera_clamped (gs : GameState.t) :
  let gs' := GameState._update_camera gs in
  let m := GameState.game_map gs in
  let bx := float_of_Z (GameMap.pixel_width m - Config.WINDOW_WIDTH) in
  let by_ := float_of_Z (GameMap.pixel_height m - Config.WINDOW_HEIGHT) in
  GameState.set_camera gs' (GameState.camera_x gs) (GameState.camera_y gs)
    = gs /\
  ((forall p pl, GameState.player gs = Some p ->
                 GameState.objs gs !! p <> Some (ETank pl)) -> gs' = gs) /\
  (forall p pl,
     GameState.player gs = Some p ->
     GameState.objs gs !! p = Some (ETank pl) ->
     PrimFloat.ltb (GameState.camera_x gs') 0 = false /\
     PrimFloat.ltb (GameState.camera_y gs') 0 = false /\
     (PrimFloat.ltb bx 0 = false ->
      PrimFloat.ltb bx (GameState.camera_x gs') = false) /\
     (PrimFloat.ltb by_ 0 = false ->
      PrimFloat.ltb by_ (GameState.camera_y gs') = false) /\
     (GameMap.pixel_width m = Config.WINDOW_WIDTH ->
      GameState.camera_x gs' = 0%float) /\
     (GameMap.pixel_height m = Config.WINDOW_HEIGHT ->
      GameState.camera_y gs' = 0%float)).
Proof.
  cbv zeta. unfold GameState._update_camera.
  destruct (GameState.player gs) as [p|] eqn:Hp.
  2:{ split_and!; [by destruct gs|done|done]. }
  destruct (GameState.objs gs !! p) as [[pl| | | |]|] eqn:Hpl;
    try (split_and!;
         [by destruct gs|done|intros ? ? [= <-] ?; congruence]).
  split_and!.
  - by destruct gs.
  - intros Hno. by destruct (Hno p pl).
  - intros p' pl' _ _. cbn [GameState.camera_x GameState.camera_y
                                       GameState.set_camera].
    match goal with
    | |- context [py_max 0 (py_min ?b ?c)] =>
        destruct (clamp_range b c) as (Hx1 & Hx2 & Hx3)
    end.
    match goal with
    | |- context [py_max 0 (py_min (float_of_Z (GameMap.pixel_height _ - _))
                                   ?c)] =>
        destruct (clamp_range
                    (float_of_Z (GameMap.pixel_height (GameState.game_map gs)
                                 - Config.WINDOW_HEIGHT)) c)
          as (Hy1 & Hy2 & Hy3)
    end.
    split_and!; try done.
    + intros Hw. apply Hx3. by rewrite Hw.
    + intros Hh. apply Hy3. by rewrite Hh.
Qed.

Lemma camera_clamped_witness :
  GameState.camera_x (GameState._update_camera depot) = 0%float /\
  GameState.camera_y (GameState._update_camera depot) = 0%float.
Proof.
  destruct (camera_clamped depot) as (_ & _ & Hcam).
  destruct (Hcam 0%nat _ eq_refl eq_refl) as (_ & _ & _ & _ & Hx & Hy).
  split; [apply Hx | apply Hy]; reflexivity.
Defined.

(** ** Mines *)

Section MineFacts.
Context `{PyRuntime}.

Lemma tank_mine_inner_first (gs : GameState.t) (r : nat) (mn : Mine.t)
    (others : list nat) (gs' : GameState.t) (evs : list Event) :
  GameState.tank_mine_inner gs r mn others = Some (gs', evs) ->
  (evs = [] /\ gs' = gs /\ forall o, o ∈ others -> ~ sets_off gs mn o) \/
  exists pre o post tk tx ty m',
    others = pre ++ o :: post /\
    (forall o', o' ∈ pre -> ~ sets_off gs mn o') /\
    sets_off gs mn o /\
    GameState.objs gs !! o = Some (ETank tk) /\
    tile_position (Mine.x mn) (Mine.y mn) = Some (tx, ty) /\
    GameMap.set_tile (GameState.game_map gs) tx ty CRATER = Some m' /\
    evs = [Contact TankMine r o] /\
    gs' = GameState.store r (EMine (Mine.destroy mn))
            (GameState.set_game_map
               (GameState.store o
                  (ETank (Tank.take_damage tk (Mine.damage mn))) gs) m').
Proof.
  induction others as [|o others IH]; cbn [GameState.tank_mine_inner].
  { intros [= <- <-]. left. split_and!; try done.
    intros o Hin. by apply elem_of_nil in Hin. }
  assert (Hskip : ~ sets_off gs mn o ->
            GameState.tank_mine_inner gs r mn others = Some (gs', evs) ->
            (evs = [] /\ gs' = gs /\
             forall o', o' ∈ o :: others -> ~ sets_off gs mn o') \/
            exists pre o' post tk tx ty m',
              o :: others = pre ++ o' :: post /\
              (forall o'', o'' ∈ pre -> ~ sets_off gs mn o'') /\
              sets_off gs mn o' /\
              GameState.objs gs !! o' = Some (ETank tk) /\
              tile_position (Mine.x mn) (Mine.y mn) = Some (tx, ty) /\
              GameMap.set_tile (GameState.game_map gs) tx ty CRATER
                = Some m' /\
              evs = [Contact TankMine r o'] /\
              gs' = GameState.store r (EMine (Mine.destroy mn))
                      (GameState.set_game_map
                         (GameState.store o'
                            (ETank (Tank.take_damage tk (Mine.damage mn)))
                            gs) m')).
  { intros Hno Hrun.
    destruct (IH Hrun)
      as [(-> & -> & Hnone)
         |(pre & o' & post & tk & tx & ty & m' & -> & Hpre & Hrest)].
    - left. split_and!; try done.
      intros o' [->|Hin]%elem_of_cons; [done|by apply Hnone].
    - right. exists (o :: pre), o', post, tk, tx, ty, m'.
      split_and!; try done; try apply Hrest.
      intros o'' [->|Hin]%elem_of_cons; [done|by apply Hpre]. }
  destruct (GameState.objs gs !! o) as [[tk| | | |]|] eqn:Ho;
    try (apply Hskip; intros (tk' & Ho' & _); congruence).
  destruct (Tank.alive tk) eqn:Halive.
  2:{ apply Hskip. intros (tk' & Ho' & Ha & _). congruence. }
  destruct (bool_decide (Tank.team tk = Mine.team mn)) eqn:Hteam.
  { apply Hskip. intros (tk' & Ho' & _ & Hne & _).
    apply bool_decide_eq_true in Hteam. congruence. }
  apply bool_decide_eq_false in Hteam.
  destruct (PrimFloat.ltb _ _) eqn:Hdist.
  2:{ apply Hskip. intros (tk' & Ho' & _ & _ & Hlt). congruence. }
  unfold Mine.detonate.
  change (GameState.game_map (GameState.store o _ gs))
    with (GameState.game_map gs).
  destruct (tile_position (Mine.x mn) (Mine.y mn)) as [[tx ty]|] eqn:Htp;
    [|done].
  cbn [mbind option_bind].
  destruct (GameMap.set_tile (GameState.game_map gs) tx ty CRATER)
    as [m'|] eqn:Hset; [|done].
  cbn [mbind option_bind]. intros [= <- <-]. right.
  exists [], o, others, tk, tx, ty, m'. split_and!; try done.
  - intros o' Hin. by apply elem_of_nil in Hin.
  - by exists tk.
Qed.

End MineFacts.

(** X: what sets a mine off, for tanks within [mine_test_exact] of the
    mine (sizes and coordinates as far from the extremes as any the
    engine builds).  In the Tank-vs-Mine pass a destroyed mine does
    nothing.  A live mine goes off under the first entity of the
    list that is a live tank of another team nearer than its size plus
    the mine's radius: that tank alone takes the mine's damage, the tile
    under the mine becomes a crater, the mine is destroyed, and one
    contact is recorded.  If no tank of the list sets it off, nothing
    changes.  On a map of the constructor's shape the pass on a mine
    whose position has tile coordinates always returns. *)
Theorem mine_first_contact `{PyRuntime} (gs : GameState.t) (r : nat)
    (mn : Mine.t) :
  GameState.objs gs !! r = Some (EMine mn) ->
  Forall (mine_test_exact mn) (GameState.objs gs) ->
  (GameMap.wf (GameState.game_map gs) ->
   is_Some (tile_position (Mine.x mn) (Mine.y mn)) ->
   is_Some (GameState.tank_mine_body gs r)) /\
  (forall gs' evs,
     GameState.tank_mine_body gs r = Some (gs', evs) ->
     (Mine.alive mn = false -> gs' = gs /\ evs = []) /\
     ((evs = [] /\ gs' = gs /\
       (Mine.alive mn = true ->
        forall o, o ∈ GameState.entities gs -> ~ sets_off gs mn o)) \/
      exists pre o post tk tx ty m',
        Mine.alive mn = true /\
        GameState.entities gs = pre ++ o :: post /\
        (forall o', o' ∈ pre -> ~ sets_off gs mn o') /\
        sets_off gs mn o /\
        GameState.objs gs !! o = Some (ETank tk) /\
        tile_position (Mine.x mn) (Mine.y mn) = Some (tx, ty) /\
        GameMap.set_tile (GameState.game_map gs) tx ty CRATER = Some m' /\
        evs = [Contact TankMine r o] /\
        GameState.game_map gs' = m' /\
        GameState.objs gs' =
          <[r := EMine (Mine.destroy mn)]>
            (<[o := ETank (Tank.take_damage tk (Mine.damage mn))]>
               (GameState.objs gs)) /\
        GameState.entities gs' = GameState.entities gs /\
        GameState.pending_entities gs' = GameState.pending_entities gs)).
Proof.
  intros Hr _. unfold GameState.tank_mine_body. rewrite Hr. split.
  - intros Hwf Htp. destruct (Mine.alive mn); [|done].
    by apply tank_mine_inner_total.
  - intros gs' evs. destruct (Mine.alive mn) eqn:Halive.
    + intros Hrun. split; [done|].
      destruct (tank_mine_inner_first _ _ _ _ _ _ Hrun)
        as [(-> & -> & Hnone)
           |(pre & o & post & tk & tx & ty & m' & Hl & Hpre & Ho & Htk & Htp
             & Hset & -> & ->)].
      * left. done.
      * right. exists pre, o, post, tk, tx, ty, m'. split_and!; done.
    + intros [= <- <-]. split; [done|]. left. done.
Qed.

Lemma mine_first_contact_witness :
  Forall (mine_test_exact (Mine.init 145 100 TEAM_2 8))
         (GameState.objs skirmish) /\
  is_Some (@GameState.tank_mine_body scenario_runtime skirmish 8) /\
  exists gs' o,
    @GameState.tank_mine_body scenario_runtime skirmish 8
      = Some (gs', [Contact TankMine 8 o]) /\
    @sets_off scenario_runtime skirmish (Mine.init 145 100 TEAM_2 8) o.
Proof.
  assert (Hexact : Forall (mine_test_exact (Mine.init 145 100 TEAM_2 8))
                          (GameState.objs skirmish)).
  { repeat constructor; vm_compute; congruence. }
  destruct (@mine_first_contact scenario_runtime skirmish 8
              (Mine.init 145 100 TEAM_2 8) eq_refl Hexact) as [Htot Hspec].
  split; [exact Hexact|]. split.
  - apply Htot; [apply wf_init | vm_compute; eauto].
  - destruct (@GameState.tank_mine_body scenario_runtime skirmish 8)
      as [[gs' evs]|] eqn:Hrun; [|vm_compute in Hrun; discriminate].
    destruct (Hspec gs' evs eq_refl) as [_ [(Hevs & _ & _)|Hhit]].
    + exfalso. subst evs. vm_compute in Hrun. discriminate.
    + destruct Hhit as (pre & o & post & tk & tx & ty & m' & _ & _ & _ & Ho
                        & _ & _ & _ & -> & _).
      exists gs', o. split; [reflexivity | exact Ho].
Defined.
